(** * roachdemo: the process-lifecycle supervisor of [node.go]

    A shallow embedding of [node.go] (variable expansion, output sinks,
    process runs, nodes) and the properties of its specification.

    Go strings are byte sequences: they are modelled by [string] (a list of
    8-bit [ascii] characters).  Go maps with string keys are [gmap string _].
    Pointers to [nodeRun] objects are locations in an explicit heap, so that
    [node.Active] and the elements of [node.Runs] alias the same object. *)

From Stdlib Require Import ZArith Ascii String DecimalString DecimalZ.
From stdpp Require Import gmap strings list fin_maps.

Local Open Scope Z_scope.

(** ** Strings *)

Module Str.

Definition is_empty (s : string) : bool :=
  match s with EmptyString => true | String _ _ => false end.

(** [len(s)] *)
Definition len (s : string) : nat := String.length s.

(** Whether byte [c] occurs in [s]. *)
Fixpoint contains (c : ascii) (s : string) : bool :=
  match s with
  | EmptyString => false
  | String d s' => Ascii.eqb d c || contains c s'
  end.

(** [strings.Join(l, sep)] *)
Fixpoint join (l : list string) (sep : string) : string :=
  match l with
  | [] => EmptyString
  | [x] => x
  | x :: l' => x +:+ sep +:+ join l' sep
  end.

End Str.

(** ** [os.Expand] (Go standard library)

    [replaceVars] delegates to [os.Expand]; the three functions below follow
    the standard library's [os/env.go]. *)

(** [isShellSpecialVar]: the byte names a special shell variable such as
    [$*] or [$1]. *)
Definition isShellSpecialVar (c : ascii) : bool :=
  match c with
  | "*" | "#" | "$" | "@" | "!" | "?" | "-"
  | "0" | "1" | "2" | "3" | "4" | "5" | "6" | "7" | "8" | "9" => true
  | _ => false
  end%char.

(** [isAlphaNum]: ASCII letter, digit or underscore. *)
Definition isAlphaNum (c : ascii) : bool :=
  let n := nat_of_ascii c in
  (Ascii.eqb c "_"
   || (Nat.leb 48 n && Nat.leb n 57)
   || (Nat.leb 97 n && Nat.leb n 122)
   || (Nat.leb 65 n && Nat.leb n 90))%bool.

(** The bytes of [s] before its first closing brace, if it has one
    (the loop [for i := 1; i < len(s); i++ { if s[i] == '}' ... }]). *)
Fixpoint scanBrace (s : string) : option string :=
  match s with
  | EmptyString => None
  | String c s' =>
      if Ascii.eqb c "}" then Some EmptyString
      else match scanBrace s' with
           | Some name => Some (String c name)
           | None => None
           end
  end.

(** The longest alphanumeric prefix
    ([for i = 0; i < len(s) && isAlphaNum(s[i]); i++ {}]). *)
Fixpoint scanAlphaNum (s : string) : string :=
  match s with
  | EmptyString => EmptyString
  | String c s' => if isAlphaNum c then String c (scanAlphaNum s') else EmptyString
  end.

(** [getShellName(s)]: the name that begins [s] and the number of bytes
    consumed.  [os.Expand] only calls it on a non-empty [s]. *)
Definition getShellName (s : string) : string * nat :=
  match s with
  | EmptyString => (EmptyString, O)
  | String c rest =>
      if Ascii.eqb c "{" then
        let scan :=
          match scanBrace rest with
          | Some name =>
              if Str.is_empty name then (EmptyString, 2%nat)   (* bad syntax: eat [${}] *)
              else (name, S (S (Str.len name)))
          | None => (EmptyString, 1%nat)                       (* bad syntax: eat [${] *)
          end in
        match rest with
        | String c1 (String c2 _) =>
            if isShellSpecialVar c1 && Ascii.eqb c2 "}"
            then (String c1 EmptyString, 3%nat)
            else scan
        | _ => scan
        end
      else if isShellSpecialVar c then (String c EmptyString, 1%nat)
      else let name := scanAlphaNum s in (name, Str.len name)
  end.

(** [os.Expand(s, mapping)].  The Go loop walks an index [j] over [s]; here
    the recursion is on the suffix [s[j:]], and [skip] counts the bytes that
    [j += w] still has to step over.  Bytes outside a [$] reference are
    copied, a reference is replaced by [mapping(name)], a lone [$] followed
    by no name is kept, and invalid syntax is dropped. *)
Fixpoint Expand_from (skip : nat) (s : string) (mapping : string → string) : string :=
  match s with
  | EmptyString => EmptyString
  | String c rest =>
      match skip with
      | S k => Expand_from k rest mapping
      | O =>
          if Ascii.eqb c "$" && negb (Str.is_empty rest) then
            let '(name, w) := getShellName rest in
            (if Str.is_empty name
             then (if Nat.ltb 0 w then EmptyString else String c EmptyString)
             else mapping name)
            +:+ Expand_from w rest mapping
          else String c (Expand_from O rest mapping)
      end
  end.

Definition Expand (s : string) (mapping : string → string) : string :=
  Expand_from O s mapping.

(** ** [strconv.Itoa] (Go standard library): decimal rendering of an [int]. *)
Definition Itoa (i : Z) : string := NilEmpty.string_of_int (Z.to_int i).

(** ** [replaceVars] *)

Definition replaceVars (text : string) (vars : gmap string string) : string :=
  Expand text (λ name,
    match vars !! name with
    | Some v => v
    | None => "$" +:+ name
    end).

(** ** The operating system and the Go runtime, as [node.go] sees them *)

(** Addresses of [nodeRun] objects and identities of channels. *)
Abbreviation loc := nat.
Abbreviation chan := nat.

Inductive signal := SIGKILL | SIGSTOP | SIGCONT.

Global Instance signal_eq_dec : EqDecision signal.
Proof. solve_decision. Defined.

(** Goroutines started by [node.go]. *)
Inductive goroutine :=
  | Waiter (r : loc) (exitCh : chan)   (* the [go func] of [nodeRun.start], blocked in [r.Cmd.Wait()] *)
  | Handler (c : chan)                 (* the [go func] of [node.start], parked in [<-c] *)
  | Resumed (c : chan)                 (* the same goroutine once its receive has completed *)
  | Restart.                           (* the same goroutine in [time.Sleep], about to call [n.start()] *)

Global Instance goroutine_eq_dec : EqDecision goroutine.
Proof. solve_decision. Defined.

(** Effects visible outside the supervisor, in the order they happen. *)
Inductive event :=
  | EvLog (msg : string)                      (* [log.Printf] *)
  | EvCreate (path : string)                  (* [os.Create] succeeded *)
  | EvClose (path : string)                   (* [File.Close] on the sink file *)
  | EvStart (argv : list string) (pid : Z)    (* [Cmd.Start] spawned a process *)
  | EvSignal (pid : Z) (sig : signal)         (* [Process.Kill], [Process.Signal] *)
  | EvSend (c : chan)                         (* a goroutine reached [c <- struct{}{}] *)
  | EvRecv (c : chan).                        (* a goroutine completed [<-c] *)

Global Instance event_eq_dec : EqDecision event.
Proof. solve_decision. Defined.

(** The ways a call does not return to its caller. *)
Inductive abort :=
  | Fatal (msg : string)    (* [log.Fatalf]: [os.Exit(1)], the whole application terminates *)
  | Panic (msg : string)    (* run-time panic *)
  | Block (c : chan).       (* parked in a send on [c], on which nobody receives *)

Inductive result (A : Type) :=
  | Ok (a : A)
  | Abort (e : abort).
Arguments Ok {A} a.
Arguments Abort {A} e.

Module os.

Record Process := { Pid : Z }.

Record ProcessState := { ExitStatus : Z; String : string }.

End os.

Module user.

Record User := { Username : string; Uid : string; Gid : string; HomeDir : string }.

End user.

(** What the environment decides: which files can be created, which
    commands can be spawned, how processes end, who the user is. *)
Record OS := {
  os_Create : string → option string;              (* error of [os.Create(path)] *)
  os_StartProcess : nat → list string → Z + string; (* pid or error of the k-th [Cmd.Start] *)
  os_Wait : Z → os.ProcessState;                   (* how process [pid] ends *)
  user_Current : option user.User;                 (* [user.Current()], [None] on error *)
  os_Getenv : string → string;                     (* [os.Getenv] *)
  time_Now : Z                                     (* [time.Now()] *)
}.

Record world := {
  host : OS;
  starts : nat;                    (* number of [Cmd.Start] attempts so far *)
  chans : nat;                     (* number of channels made so far *)
  goroutines : list goroutine;
  trace : list event
}.

Definition set_trace (t : list event) (w : world) : world :=
  {| host := host w; starts := starts w; chans := chans w;
     goroutines := goroutines w; trace := t |}.
Definition set_starts (k : nat) (w : world) : world :=
  {| host := host w; starts := k; chans := chans w;
     goroutines := goroutines w; trace := trace w |}.
Definition set_chans (k : nat) (w : world) : world :=
  {| host := host w; starts := starts w; chans := k;
     goroutines := goroutines w; trace := trace w |}.
Definition set_goroutines (g : list goroutine) (w : world) : world :=
  {| host := host w; starts := starts w; chans := chans w;
     goroutines := g; trace := trace w |}.

(** ** A state monad with aborts *)

Definition M (S A : Type) : Type := S → result A * S.

Global Instance M_ret {S} : MRet (M S) := λ A a s, (Ok a, s).
Global Instance M_bind {S} : MBind (M S) := λ A B f m s,
  match m s with
  | (Ok a, s') => f a s'
  | (Abort e, s') => (Abort e, s')
  end.

Definition get {S} : M S S := λ s, (Ok s, s).
Definition modify {S} (f : S → S) : M S unit := λ s, (Ok tt, f s).
Definition throw {S A} (e : abort) : M S A := λ s, (Abort e, s).

(** Whether a call returned. *)
Definition returned {A S} (x : result A * S) : bool :=
  match x.1 with Ok _ => true | Abort _ => false end.

(** *** Primitive effects *)

Definition emit (e : event) : M world unit :=
  modify (λ w, set_trace (trace w ++ [e]) w).

Definition log_Printf (msg : string) : M world unit := emit (EvLog msg).

Definition log_Fatalf {A} (msg : string) : M world A :=
  emit (EvLog msg);; throw (Fatal msg).

Definition Now : M world Z := λ w, (Ok (time_Now (host w)), w).

(** [go f()] *)
Definition go (g : goroutine) : M world unit :=
  modify (λ w, set_goroutines (goroutines w ++ [g]) w).

(** [make(chan struct{})]: a fresh unbuffered channel. *)
Definition make_chan : M world chan :=
  λ w, (Ok (chans w), set_chans (S (chans w)) w).

Fixpoint remove_first (g : goroutine) (l : list goroutine) : list goroutine :=
  match l with
  | [] => []
  | h :: l' => if decide (h = g) then l' else h :: remove_first g l'
  end.

(** [c <- struct{}{}] on an unbuffered channel: the send completes when a
    goroutine is parked in [<-c], which then resumes; with no receiver the
    sender stays parked. *)
Definition chan_send (c : chan) : M world unit :=
  emit (EvSend c);;
  w ← get;
  if decide (Handler c ∈ goroutines w)
  then modify (λ w, set_goroutines (remove_first (Handler c) (goroutines w) ++ [Resumed c]) w)
  else throw (Block c).

Definition nil_dereference : string :=
  "invalid memory address or nil pointer dereference".

(** ** Output sinks: [fileLogWriter] behind the [logWriter] interface *)

Record fileLogWriter := { filename : string }.

(** A [logWriter] interface value: [None] is the nil interface. *)
Definition logWriter := option fileLogWriter.

(** [newFileLogWriter(file)]: the writer, or the error of [os.Create]. *)
Definition newFileLogWriter (file : string) : M world (fileLogWriter + string) :=
  w ← get;
  match os_Create (host w) file with
  | Some err => mret (inr err)
  | None => emit (EvCreate file);; mret (inl {| filename := file |})
  end.

(** [w.Close()] through the interface: a method call on the nil interface
    panics. *)
Definition logWriter_Close (w : logWriter) : M world unit :=
  match w with
  | Some f => emit (EvClose (filename f))
  | None => throw (Panic nil_dereference)
  end.

(** ** [exec.Cmd] *)

Module exec.

Record Cmd := {
  Path : string;
  Args : list string;
  Env : list string;
  Stdout : logWriter;
  Stderr : logWriter;
  Process : option os.Process;
  ProcessState : option os.ProcessState
}.

Definition set_Env (e : list string) (c : Cmd) : Cmd :=
  {| Path := Path c; Args := Args c; Env := e; Stdout := Stdout c;
     Stderr := Stderr c; Process := Process c; ProcessState := ProcessState c |}.
Definition set_Stdout (o : logWriter) (c : Cmd) : Cmd :=
  {| Path := Path c; Args := Args c; Env := Env c; Stdout := o;
     Stderr := Stderr c; Process := Process c; ProcessState := ProcessState c |}.
Definition set_Stderr (o : logWriter) (c : Cmd) : Cmd :=
  {| Path := Path c; Args := Args c; Env := Env c; Stdout := Stdout c;
     Stderr := o; Process := Process c; ProcessState := ProcessState c |}.
Definition set_Process (p : option os.Process) (c : Cmd) : Cmd :=
  {| Path := Path c; Args := Args c; Env := Env c; Stdout := Stdout c;
     Stderr := Stderr c; Process := p; ProcessState := ProcessState c |}.
Definition set_ProcessState (p : option os.ProcessState) (c : Cmd) : Cmd :=
  {| Path := Path c; Args := Args c; Env := Env c; Stdout := Stdout c;
     Stderr := Stderr c; Process := Process c; ProcessState := p |}.

(** [exec.Command(name, arg...)] *)
Definition Command (name : string) (arg : list string) : Cmd :=
  {| Path := name; Args := name :: arg; Env := []; Stdout := None;
     Stderr := None; Process := None; ProcessState := None |}.

(** [c.Start()]: the updated command and the error, if any.  The process
    handle is set exactly when the process was spawned. *)
Definition Start (c : Cmd) : M world (Cmd * option string) :=
  match Process c with
  | Some _ => mret (c, Some "exec: already started")
  | None =>
      w ← get;
      modify (set_starts (S (starts w)));;
      match os_StartProcess (host w) (starts w) (Args c) with
      | inl pid =>
          emit (EvStart (Args c) pid);;
          mret (set_Process (Some {| os.Pid := pid |}) c, None)
      | inr err => mret (c, Some err)
      end
  end.

(** [c.Wait()]: records how the process ended. *)
Definition Wait (c : Cmd) : M world Cmd :=
  match Process c with
  | None => mret c
  | Some p =>
      w ← get;
      mret (set_ProcessState (Some (os_Wait (host w) (os.Pid p))) c)
  end.

End exec.

(** [p.Kill()] and [p.Signal(sig)]; their errors are ignored by [node.go]. *)
Definition Process_Signal (p : os.Process) (sig : signal) : M world unit :=
  emit (EvSignal (os.Pid p) sig).
Definition Process_Kill (p : os.Process) : M world unit :=
  Process_Signal p SIGKILL.

(** ** [nodeRun]: one execution attempt *)

Module nodeRun.

Record t := {
  ID : Z;
  Cmd : option exec.Cmd;          (* [*exec.Cmd], [None] is nil *)
  Error : option string;          (* [error], [None] is nil *)
  Started : Z;
  Stopped : Z;
  Args : list string;
  Attrs : string;
  Locality : string;
  Stdout : string;
  Stderr : string;
  StdoutBuf : logWriter;
  StderrBuf : logWriter;
  Env : gmap string string;
  WaitStatus : Z;
  Paused : bool
}.

Definition set_Cmd (x : option exec.Cmd) (r : t) : t :=
  {| ID := ID r; Cmd := x; Error := Error r; Started := Started r;
     Stopped := Stopped r; Args := Args r; Attrs := Attrs r;
     Locality := Locality r; Stdout := Stdout r; Stderr := Stderr r;
     StdoutBuf := StdoutBuf r; StderrBuf := StderrBuf r; Env := Env r;
     WaitStatus := WaitStatus r; Paused := Paused r |}.
Definition set_Error (x : option string) (r : t) : t :=
  {| ID := ID r; Cmd := Cmd r; Error := x; Started := Started r;
     Stopped := Stopped r; Args := Args r; Attrs := Attrs r;
     Locality := Locality r; Stdout := Stdout r; Stderr := Stderr r;
     StdoutBuf := StdoutBuf r; StderrBuf := StderrBuf r; Env := Env r;
     WaitStatus := WaitStatus r; Paused := Paused r |}.
Definition set_Started (x : Z) (r : t) : t :=
  {| ID := ID r; Cmd := Cmd r; Error := Error r; Started := x;
     Stopped := Stopped r; Args := Args r; Attrs := Attrs r;
     Locality := Locality r; Stdout := Stdout r; Stderr := Stderr r;
     StdoutBuf := StdoutBuf r; StderrBuf := StderrBuf r; Env := Env r;
     WaitStatus := WaitStatus r; Paused := Paused r |}.
Definition set_Stopped (x : Z) (r : t) : t :=
  {| ID := ID r; Cmd := Cmd r; Error := Error r; Started := Started r;
     Stopped := x; Args := Args r; Attrs := Attrs r;
     Locality := Locality r; Stdout := Stdout r; Stderr := Stderr r;
     StdoutBuf := StdoutBuf r; StderrBuf := StderrBuf r; Env := Env r;
     WaitStatus := WaitStatus r; Paused := Paused r |}.
Definition set_StdoutBuf (x : logWriter) (r : t) : t :=
  {| ID := ID r; Cmd := Cmd r; Error := Error r; Started := Started r;
     Stopped := Stopped r; Args := Args r; Attrs := Attrs r;
     Locality := Locality r; Stdout := Stdout r; Stderr := Stderr r;
     StdoutBuf := x; StderrBuf := StderrBuf r; Env := Env r;
     WaitStatus := WaitStatus r; Paused := Paused r |}.
Definition set_StderrBuf (x : logWriter) (r : t) : t :=
  {| ID := ID r; Cmd := Cmd r; Error := Error r; Started := Started r;
     Stopped := Stopped r; Args := Args r; Attrs := Attrs r;
     Locality := Locality r; Stdout := Stdout r; Stderr := Stderr r;
     StdoutBuf := StdoutBuf r; StderrBuf := x; Env := Env r;
     WaitStatus := WaitStatus r; Paused := Paused r |}.
Definition set_Paused (x : bool) (r : t) : t :=
  {| ID := ID r; Cmd := Cmd r; Error := Error r; Started := Started r;
     Stopped := Stopped r; Args := Args r; Attrs := Attrs r;
     Locality := Locality r; Stdout := Stdout r; Stderr := Stderr r;
     StdoutBuf := StdoutBuf r; StderrBuf := StderrBuf r; Env := Env r;
     WaitStatus := WaitStatus r; Paused := x |}.

(** The state a method of [*nodeRun] works on: the receiver and the world. *)
Definition St : Type := t * world.

Definition self : M St t := λ s, (Ok s.1, s).
Definition assign (f : t → t) : M St unit := modify (λ s, (f s.1, s.2)).

(** Runs a primitive effect. *)
Definition sys {A} (m : M world A) : M St A :=
  λ s, let '(x, w) := m s.2 in (x, (s.1, w)).

(** [r.Cmd], dereferenced: panics when [r.Cmd] is nil. *)
Definition deref_Cmd : M St exec.Cmd :=
  r ← self;
  match Cmd r with
  | Some c => mret c
  | None => throw (Panic nil_dereference)
  end.

(** [r.Cmd.f = ...] *)
Definition assign_Cmd (f : exec.Cmd → exec.Cmd) : M St unit :=
  c ← deref_Cmd;
  assign (set_Cmd (Some (f c))).

End nodeRun.

Import nodeRun (self, assign, sys, deref_Cmd, assign_Cmd).

(** [r.Command()] *)
Definition nodeRun_Command (r : nodeRun.t) : string :=
  Str.join (nodeRun.Args r) " ".

(** The strings [k+"="+v] appended to [r.Cmd.Env] by the [range] loop over
    [r.Env] (Go leaves the iteration order unspecified). *)
Definition env_strings (e : gmap string string) : list string :=
  (λ kv, kv.1 +:+ "=" +:+ kv.2) <$> map_to_list e.

(** The goroutine body [go func() { r.Cmd.Wait(); ... exitCh <- struct{}{} }()]
    of [nodeRun.start], run when the process of [r] has ended. *)
Definition nodeRun_waiter (exitCh : chan) : M nodeRun.St unit :=
  c ← deref_Cmd;
  c' ← sys (exec.Wait c);
  assign (nodeRun.set_Cmd (Some c'));;

  r ← self;
  sys (logWriter_Close (nodeRun.StdoutBuf r));;
  sys (logWriter_Close (nodeRun.StderrBuf r));;

  match exec.ProcessState c', exec.Process c' with
  | Some ps, Some p =>
      sys (log_Printf ("Process " +:+ Itoa (os.Pid p) +:+ " exited with status "
                       +:+ Itoa (os.ExitStatus ps)));;
      sys (log_Printf (os.String ps));;
      now ← sys Now;
      assign (nodeRun.set_Stopped now);;
      sys (chan_send exitCh)
  | _, _ => throw (Panic nil_dereference)
  end.

(** [func (r *nodeRun) start(exitCh chan struct{})]; [this] is the address of
    the receiver, which the goroutine started at the end captures. *)
Definition nodeRun_start (this : loc) (exitCh : chan) : M nodeRun.St unit :=
  now ← sys Now;
  assign (nodeRun.set_Started now);;

  r ← self;
  (if Nat.ltb 0 (Str.len (nodeRun.Stdout r)) then
     wr ← sys (newFileLogWriter (nodeRun.Stdout r));
     match wr with
     | inr err =>
         sys (log_Fatalf ("unable to open file " +:+ nodeRun.Stdout r +:+ ": " +:+ err))
     | inl wr => assign (nodeRun.set_StdoutBuf (Some wr))
     end
   else mret tt);;
  r ← self;
  assign_Cmd (exec.set_Stdout (nodeRun.StdoutBuf r));;

  (if Nat.ltb 0 (Str.len (nodeRun.Stderr r)) then
     wr ← sys (newFileLogWriter (nodeRun.Stderr r));
     match wr with
     | inr err =>
         sys (log_Fatalf ("unable to open file " +:+ nodeRun.Stderr r +:+ ": " +:+ err))
     | inl wr => assign (nodeRun.set_StderrBuf (Some wr))
     end
   else mret tt);;
  r ← self;
  assign_Cmd (exec.set_Stderr (nodeRun.StderrBuf r));;

  assign_Cmd (λ c, exec.set_Env (exec.Env c ++ env_strings (nodeRun.Env r)) c);;

  c ← deref_Cmd;
  '(c, err) ← sys (exec.Start c);
  assign (nodeRun.set_Cmd (Some c));;
  match exec.Process c with
  | Some p =>
      sys (log_Printf ("process " +:+ Itoa (os.Pid p) +:+ " started: "
                       +:+ Str.join (nodeRun.Args r) " "))
  | None => mret tt
  end;;
  match err with
  | Some err =>
      assign (nodeRun.set_Error (Some err));;
      sys (log_Printf err);;
      r ← self;
      sys (logWriter_Close (nodeRun.StdoutBuf r));;
      sys (logWriter_Close (nodeRun.StderrBuf r));;
      sys (chan_send exitCh)
  | None =>
      sys (go (Waiter this exitCh))
  end.

(** [func (r *nodeRun) stop()] *)
Definition nodeRun_stop : M nodeRun.St unit :=
  r ← self;
  match nodeRun.Cmd r with
  | None => mret tt
  | Some c =>
      match exec.Process c with
      | None => mret tt
      | Some p =>
          assign (nodeRun.set_Paused false);;
          sys (Process_Kill p)
      end
  end.

(** [func (r *nodeRun) pause()] *)
Definition nodeRun_pause : M nodeRun.St unit :=
  r ← self;
  match nodeRun.Cmd r with
  | None => mret tt
  | Some c =>
      match exec.Process c with
      | None => mret tt
      | Some p =>
          assign (nodeRun.set_Paused true);;
          sys (Process_Signal p SIGSTOP)
      end
  end.

(** [func (r *nodeRun) resume()] *)
Definition nodeRun_resume : M nodeRun.St unit :=
  r ← self;
  match nodeRun.Cmd r with
  | None => mret tt
  | Some c =>
      match exec.Process c with
      | None => mret tt
      | Some p =>
          assign (nodeRun.set_Paused false);;
          sys (Process_Signal p SIGCONT)
      end
  end.

(** ** [node]: a managed process and its run history *)

Module node.

Record t := {
  Name : string;
  Args : list string;
  Env : gmap string string;
  Stdout : string;
  Stderr : string;
  URL : string;
  Attrs : string;
  Locality : string;
  Active : option loc;      (* [*nodeRun], [None] is nil *)
  Runs : list loc;          (* [[]*nodeRun] *)
  Service : bool
}.

Definition set_Active (x : option loc) (n : t) : t :=
  {| Name := Name n; Args := Args n; Env := Env n; Stdout := Stdout n;
     Stderr := Stderr n; URL := URL n; Attrs := Attrs n;
     Locality := Locality n; Active := x; Runs := Runs n;
     Service := Service n |}.
Definition set_Runs (x : list loc) (n : t) : t :=
  {| Name := Name n; Args := Args n; Env := Env n; Stdout := Stdout n;
     Stderr := Stderr n; URL := URL n; Attrs := Attrs n;
     Locality := Locality n; Active := Active n; Runs := x;
     Service := Service n |}.
Definition set_Service (x : bool) (n : t) : t :=
  {| Name := Name n; Args := Args n; Env := Env n; Stdout := Stdout n;
     Stderr := Stderr n; URL := URL n; Attrs := Attrs n;
     Locality := Locality n; Active := Active n; Runs := Runs n;
     Service := x |}.

End node.

(** The supervisor's memory: the node, the [nodeRun] objects allocated so
    far (a pointer is an index into [heap]) and the world. *)
Record system := {
  nd : node.t;
  heap : list nodeRun.t;
  wd : world
}.

Definition this : M system node.t := λ s, (Ok (nd s), s).

Definition assign_node (f : node.t → node.t) : M system unit :=
  modify (λ s, {| nd := f (nd s); heap := heap s; wd := wd s |}).

Definition sysW {A} (m : M world A) : M system A :=
  λ s, let '(x, w) := m (wd s) in (x, {| nd := nd s; heap := heap s; wd := w |}).

(** [&nodeRun{...}]: allocates the object and returns its address. *)
Definition new (r : nodeRun.t) : M system loc :=
  λ s, (Ok (length (heap s)), {| nd := nd s; heap := heap s ++ [r]; wd := wd s |}).

(** A method call on the [nodeRun] at address [l]; what the method did to the
    object is kept also when the call does not return. *)
Definition with_run {A} (l : loc) (m : M nodeRun.St A) : M system A :=
  λ s, match heap s !! l with
       | None => (Abort (Panic nil_dereference), s)
       | Some r =>
           let '(x, (r', w)) := m (r, wd s) in
           (x, {| nd := nd s; heap := <[l := r']> (heap s); wd := w |})
       end.

(** [addDefaultVars] *)
Definition set_default (k v : string) (vars : gmap string string) : gmap string string :=
  match vars !! k with
  | Some _ => vars
  | None => <[k := v]> vars
  end.

Definition addDefaultVars (o : OS) (vars : gmap string string) : gmap string string :=
  let vars :=
    match user_Current o with
    | Some u =>
        set_default "HOME" (user.HomeDir u)
          (set_default "GID" (user.Gid u)
             (set_default "UID" (user.Uid u)
                (set_default "USER" (user.Username u) vars)))
    | None => vars
    end in
  set_default "PATH" (os_Getenv o "PATH") vars.

(** [func (n *node) start()] *)
Definition node_start : M system unit :=
  n ← this;
  match node.Active n with
  | Some _ => mret tt
  | None =>
      let run := Z.of_nat (length (node.Runs n)) in
      let args := (λ a, replaceVars a (node.Env n)) <$> node.Args n in
      match args with
      | [] => throw (Panic "index out of range")
      | name :: arg =>
          let cmd := exec.Command name arg in
          let vars : gmap string string := {[ "RUN" := Itoa run ]} in
          let stdout := replaceVars (node.Stdout n) vars in
          let stderr := replaceVars (node.Stderr n) vars in
          l ← new {| nodeRun.ID := run;
                     nodeRun.Cmd := Some cmd;
                     nodeRun.Error := None;
                     nodeRun.Started := 0;
                     nodeRun.Stopped := 0;
                     nodeRun.Args := args;
                     nodeRun.Attrs := EmptyString;
                     nodeRun.Locality := EmptyString;
                     nodeRun.Stdout := stdout;
                     nodeRun.Stderr := stderr;
                     nodeRun.StdoutBuf := None;
                     nodeRun.StderrBuf := None;
                     nodeRun.Env := node.Env n;
                     nodeRun.WaitStatus := 0;
                     nodeRun.Paused := false |};
          assign_node (node.set_Active (Some l));;
          assign_node (λ n, node.set_Runs (node.Runs n ++ [l]) n);;
          c ← sysW make_chan;
          with_run l (nodeRun_start l c);;
          sysW (go (Handler c))
      end
  end.

(** The goroutine of [node.start] after its receive [<-c] completed:
    [n.Active = nil], and in service mode it goes to sleep before
    restarting. *)
Definition node_completion : M system unit :=
  assign_node (node.set_Active None);;
  n ← this;
  if node.Service n then sysW (go Restart) else mret tt.

(** [func (n *node) stop()] *)
Definition node_stop : M system unit :=
  n ← this;
  match node.Active n with
  | Some l =>
      with_run l nodeRun_stop;;
      assign_node (node.set_Active None)
  | None => mret tt
  end.

(** [func (n *node) pause()] *)
Definition node_pause : M system unit :=
  n ← this;
  match node.Active n with
  | Some l => with_run l nodeRun_pause
  | None => mret tt
  end.

(** [func (n *node) resume()] *)
Definition node_resume : M system unit :=
  n ← this;
  match node.Active n with
  | Some l => with_run l nodeRun_resume
  | None => mret tt
  end.

(** [func (n *node) Status() string] *)
Definition node_Status (s : system) : string :=
  match node.Active (nd s) with
  | None => "Stopped"
  | Some l =>
      match heap s !! l with
      | None => "Stopped"
      | Some r =>
          match nodeRun.Cmd r with
          | None => "Stopped"
          | Some c =>
              match exec.Process c with
              | None => "Stopped"
              | Some p =>
                  if 0 <? os.Pid p then
                    if nodeRun.Paused r then "Paused" else "Running"
                  else "Stopped"
              end
          end
      end
  end.

(** [func (n *node) Command() string] *)
Definition node_Command (n : node.t) : string := Str.join (node.Args n) " ".

(** [newNode]: builds the node in the memory [h] and world [w]; [env] is
    [None] for a nil map. *)
Definition newNode (name : string) (args : list string)
    (env : option (gmap string string)) (service : bool)
    (stdout stderr attributes locality : string)
    (h : list nodeRun.t) (w : world) : result unit * system :=
  let env := match env with None => ∅ | Some e => e end in
  let env := addDefaultVars (host w) env in
  let stdout := replaceVars stdout env in
  let stderr := replaceVars stderr env in
  let n := {| node.Name := name;
              node.Args := args;
              node.Env := env;
              node.Stdout := stdout;
              node.Stderr := stderr;
              node.URL := EmptyString;
              node.Attrs := attributes;
              node.Locality := locality;
              node.Active := None;
              node.Runs := [];
              node.Service := service |} in
  let s := {| nd := n; heap := h; wd := w |} in
  if node.Service n then node_start s else (Ok tt, s).

(** ** The supervisor as a transition system

    What can happen to a node once it exists: calls of its methods (from the
    request handlers of [cluster.go]), and the goroutines started by
    [nodeRun.start] and [node.start] taking their turn.  The bodies run
    atomically.  A call that does not return leaves what it did so far in
    the memory, and the system goes on from there. *)
Inductive action :=
  | Start | Stop | Pause | Resume
  | SetService (b : bool)              (* [t.Service = b] in [startNode], [stopNode] *)
  | ProcessExit (r : loc) (c : chan)   (* the process of [r] ended: its waiter runs *)
  | Receive (c : chan)                 (* the completion handler continues after [<-c] *)
  | Wake.                              (* the handler's sleep is over: [n.start()] *)

Definition take (g : goroutine) : M system unit :=
  sysW (modify (λ w, set_goroutines (remove_first g (goroutines w)) w)).

Definition perform (a : action) (s : system) : option (result unit * system) :=
  match a with
  | Start => Some (node_start s)
  | Stop => Some (node_stop s)
  | Pause => Some (node_pause s)
  | Resume => Some (node_resume s)
  | SetService b => Some (assign_node (node.set_Service b) s)
  | ProcessExit r c =>
      if decide (Waiter r c ∈ goroutines (wd s))
      then Some ((take (Waiter r c);; with_run r (nodeRun_waiter c)) s)
      else None
  | Receive c =>
      if decide (Resumed c ∈ goroutines (wd s))
      then Some ((take (Resumed c);; sysW (emit (EvRecv c));; node_completion) s)
      else None
  | Wake =>
      if decide (Restart ∈ goroutines (wd s))
      then Some ((take Restart;; node_start) s)
      else None
  end.

Inductive step (s : system) : system → Prop :=
  | step_perform a x s' : perform a s = Some (x, s') → step s s'.

(** The states a node goes through after [newNode]. *)
Inductive reachable (s0 : system) : system → Prop :=
  | reachable_init : reachable s0 s0
  | reachable_step s s' : reachable s0 s → step s s' → reachable s0 s'.

(** ** Observations used in the statements *)

(** The process handle of a Run, [r.Cmd.Process], when there is one. *)
Definition handle (r : nodeRun.t) : option os.Process :=
  match nodeRun.Cmd r with
  | Some c => exec.Process c
  | None => None
  end.

(** The guard of [stop], [pause] and [resume]:
    [r.Cmd == nil || r.Cmd.Process == nil]. *)
Definition no_handle (r : nodeRun.t) : Prop := handle r = None.

(** The Run's process was spawned and [Wait] has returned for it. *)
Definition exited (r : nodeRun.t) : bool :=
  match nodeRun.Cmd r with
  | Some c =>
      match exec.Process c, exec.ProcessState c with
      | Some _, Some _ => true
      | _, _ => false
      end
  | None => false
  end.


(** The Run the node currently points to. *)
Definition active_run (s : system) (r : nodeRun.t) : Prop :=
  ∃ l, node.Active (nd s) = Some l ∧ heap s !! l = Some r.

(** A sink path that is asked for and cannot be created. *)
Definition unopenable (o : OS) (path : string) : Prop :=
  Nat.ltb 0 (Str.len path) = true ∧ is_Some (os_Create o path).

(** A sink path that is asked for and can be created. *)
Definition openable (o : OS) (path : string) : Prop :=
  Nat.ltb 0 (Str.len path) = true ∧ os_Create o path = None.

(** How often a send on [c] was reached in a trace. *)
Definition sends (c : chan) (t : list event) : nat :=
  count_occ event_eq_dec t (EvSend c).


(** The fields of a Run that say which attempt it is. *)
Definition same_identity (r r' : nodeRun.t) : Prop :=
  nodeRun.ID r' = nodeRun.ID r
  ∧ nodeRun.Stdout r' = nodeRun.Stdout r
  ∧ nodeRun.Stderr r' = nodeRun.Stderr r.

(** A method of [*nodeRun] that leaves the identity of its receiver alone. *)
Definition keeps_identity {A} (m : M nodeRun.St A) : Prop :=
  ∀ r w x r' w', m (r, w) = (x, (r', w')) → same_identity r r'.

(** Every object of [h] is still in [h'], with the same identity. *)
Definition heap_le (h h' : list nodeRun.t) : Prop :=
  ∀ l r, h !! l = Some r → ∃ r', h' !! l = Some r' ∧ same_identity r r'.

(** The two ways a transition can affect the node's history: it leaves
    [Runs] alone and keeps or clears [Active]; or it allocates one Run,
    numbered by the length of [Runs] and with its sink paths expanded for
    that number, appends it to [Runs] and makes it [Active]. *)
Definition effect (s s' : system) : Prop :=
  heap_le (heap s) (heap s')
  ∧ node.Stdout (nd s') = node.Stdout (nd s)
  ∧ node.Stderr (nd s') = node.Stderr (nd s)
  ∧ ((node.Runs (nd s') = node.Runs (nd s)
      ∧ (node.Active (nd s') = node.Active (nd s) ∨ node.Active (nd s') = None))
     ∨ (∃ l r,
          heap s !! l = None
          ∧ heap s' !! l = Some r
          ∧ nodeRun.ID r = Z.of_nat (length (node.Runs (nd s)))
          ∧ nodeRun.Stdout r
            = replaceVars (node.Stdout (nd s))
                {[ "RUN" := Itoa (Z.of_nat (length (node.Runs (nd s)))) ]}
          ∧ nodeRun.Stderr r
            = replaceVars (node.Stderr (nd s))
                {[ "RUN" := Itoa (Z.of_nat (length (node.Runs (nd s)))) ]}
          ∧ node.Runs (nd s') = node.Runs (nd s) ++ [l]
          ∧ node.Active (nd s') = Some l)).

(** What holds of the history in every state of a node: the i-th element of
    [Runs] is a Run numbered i, whose sink paths are the node's templates
    expanded for i, and [Active] is nil or the last element of [Runs]. *)
Definition history_ok (s : system) : Prop :=
  (∀ i l, node.Runs (nd s) !! i = Some l →
     ∃ r, heap s !! l = Some r
          ∧ nodeRun.ID r = Z.of_nat i
          ∧ nodeRun.Stdout r
            = replaceVars (node.Stdout (nd s)) {[ "RUN" := Itoa (Z.of_nat i) ]}
          ∧ nodeRun.Stderr r
            = replaceVars (node.Stderr (nd s)) {[ "RUN" := Itoa (Z.of_nat i) ]})
  ∧ (∀ l, node.Active (nd s) = Some l → last (node.Runs (nd s)) = Some l).

(** The Run that [node.start] allocates for the node [n]. *)
Definition next_run (n : node.t) : nodeRun.t :=
  let run := Z.of_nat (length (node.Runs n)) in
  let args := (λ a, replaceVars a (node.Env n)) <$> node.Args n in
  let vars : gmap string string := {[ "RUN" := Itoa run ]} in
  {| nodeRun.ID := run;
     nodeRun.Cmd := Some (exec.Command (hd EmptyString args) (tl args));
     nodeRun.Error := None;
     nodeRun.Started := 0;
     nodeRun.Stopped := 0;
     nodeRun.Args := args;
     nodeRun.Attrs := EmptyString;
     nodeRun.Locality := EmptyString;
     nodeRun.Stdout := replaceVars (node.Stdout n) vars;
     nodeRun.Stderr := replaceVars (node.Stderr n) vars;
     nodeRun.StdoutBuf := None;
     nodeRun.StderrBuf := None;
     nodeRun.Env := node.Env n;
     nodeRun.WaitStatus := 0;
     nodeRun.Paused := false |}.


(** The node as [newNode] builds it, before the [if n.Service] at its end. *)
Definition constructed (name : string) (args : list string)
    (env : option (gmap string string)) (service : bool)
    (stdout stderr attributes locality : string)
    (h : list nodeRun.t) (w : world) : system :=
  let env := addDefaultVars (host w) (match env with None => ∅ | Some e => e end) in
  {| nd := {| node.Name := name;
              node.Args := args;
              node.Env := env;
              node.Stdout := replaceVars stdout env;
              node.Stderr := replaceVars stderr env;
              node.URL := EmptyString;
              node.Attrs := attributes;
              node.Locality := locality;
              node.Active := None;
              node.Runs := [];
              node.Service := service |};
     heap := h;
     wd := w |}.

(** Whether the first byte of [s] is a letter, a digit or an underscore. *)
Definition starts_alnum (s : string) : bool :=
  match s with
  | EmptyString => false
  | String c _ => isAlphaNum c
  end.

(** ** A sample environment *)

Module Sample.

(** Nothing can be created under [/ro]; the command [missing] cannot be
    spawned; every process ends with status 0. *)
Definition machine : OS :=
  {| os_Create := λ p, if String.prefix "/ro" p then Some "permission denied" else None;
     os_StartProcess := λ k argv,
       match argv with
       | "missing" :: _ => inr "executable file not found in $PATH"
       | _ => inl (1000 + Z.of_nat k)
       end;
     os_Wait := λ pid, {| os.ExitStatus := 0; os.String := "exit status 0" |};
     user_Current := Some {| user.Username := "demo"; user.Uid := "501";
                             user.Gid := "20"; user.HomeDir := "/home/demo" |};
     os_Getenv := λ _, "/usr/bin";
     time_Now := 1700000000 |}.

Definition boot : world :=
  {| host := machine; starts := 0; chans := 0; goroutines := []; trace := [] |}.

(** A machine on which every file can be created and every command can be
    spawned. *)
Definition open_machine : OS :=
  {| os_Create := λ _, None;
     os_StartProcess := λ k _, inl (1000 + Z.of_nat k);
     os_Wait := λ pid, {| os.ExitStatus := 0; os.String := "exit status 0" |};
     user_Current := None;
     os_Getenv := λ _, "/usr/bin";
     time_Now := 1700000000 |}.

Definition open_boot : world :=
  {| host := open_machine; starts := 0; chans := 0; goroutines := []; trace := [] |}.

(** The node of [cluster.newNode] for the first node of a cluster. *)
Definition cluster_node : result unit * system :=
  newNode "1" ["cockroach"; "start"; "--insecure"] None true
    "cockroach-data/1/logs/${RUN}.stdout" "cockroach-data/1/logs/${RUN}.stderr"
    EmptyString EmptyString [] boot.

(** A one-shot node with the same command. *)
Definition oneshot_node : result unit * system :=
  newNode "1" ["cockroach"; "start"; "--insecure"] None false
    "cockroach-data/1/logs/${RUN}.stdout" "cockroach-data/1/logs/${RUN}.stderr"
    EmptyString EmptyString [] boot.

(** A node whose command cannot be spawned. *)
Definition missing_node : result unit * system :=
  newNode "1" ["missing"] None true
    "logs/${RUN}.stdout" "logs/${RUN}.stderr" EmptyString EmptyString [] boot.

(** A node whose stdout sink cannot be created. *)
Definition readonly_node : result unit * system :=
  newNode "1" ["cockroach"; "start"] None true
    "/ro/${RUN}.stdout" "logs/${RUN}.stderr" EmptyString EmptyString [] boot.

(** Nodes that do not want their stdout captured. *)
Definition quiet_node : result unit * system :=
  newNode "1" ["cockroach"; "start"] None true
    EmptyString "logs/${RUN}.stderr" EmptyString EmptyString [] boot.

Definition quiet_missing_node : result unit * system :=
  newNode "1" ["missing"] None true
    EmptyString "logs/${RUN}.stderr" EmptyString EmptyString [] boot.


(** The Run that [node.start] builds first for the command [argv] and the
    sink paths [out] and [err]. *)
Definition first_run (out err : string) (argv : list string) : nodeRun.t :=
  {| nodeRun.ID := 0;
     nodeRun.Cmd := Some (exec.Command (hd EmptyString argv) (tl argv));
     nodeRun.Error := None;
     nodeRun.Started := 0;
     nodeRun.Stopped := 0;
     nodeRun.Args := argv;
     nodeRun.Attrs := EmptyString;
     nodeRun.Locality := EmptyString;
     nodeRun.Stdout := out;
     nodeRun.Stderr := err;
     nodeRun.StdoutBuf := None;
     nodeRun.StderrBuf := None;
     nodeRun.Env := ∅;
     nodeRun.WaitStatus := 0;
     nodeRun.Paused := false |}.

(** Performs the actions in turn, skipping those that are not enabled. *)
Definition after (l : list action) (s : system) : system :=
  foldl (λ s a, match perform a s with
                | Some (_, s') => s'
                | None => s
                end) s l.

(** [oneshot_node] after a call of [start]. *)
Definition oneshot_started : system := after [Start] oneshot_node.2.

(** The Run of [missing_node], whose launch failed. *)
Definition failed_run : option nodeRun.t := heap missing_node.2 !! 0%nat.

(** [cluster_node] once the process of its Run 0 has exited and the waiter
    has run, before the completion handler takes its turn. *)
Definition exited_state : system :=
  after [ProcessExit 0%nat 0%nat] cluster_node.2.

End Sample.

(** ** More about strings *)

(** Whether every byte of [s] satisfies [p]. *)
Fixpoint all_bytes (p : ascii → bool) (s : string) : bool :=
  match s with
  | EmptyString => true
  | String c s' => p c && all_bytes p s'
  end.

(** Whether the first byte of [s] names a special shell variable. *)
Definition starts_special (s : string) : bool :=
  match s with
  | EmptyString => false
  | String c _ => isShellSpecialVar c
  end.

(** ** [strconv.Atoi] (Go standard library)

    An optional sign followed by at least one decimal digit, with a value
    that fits an [int] (64 bits); [None] is the error. *)
Definition Atoi (s : string) : option Z :=
  let digits (t : string) : option Z :=
    if Str.is_empty t then None
    else match NilEmpty.uint_of_string t with
         | Some d => Some (Z.of_uint d)
         | None => None
         end in
  let value :=
    match s with
    | String "+" t => digits t
    | String "-" t => match digits t with Some z => Some (- z) | None => None end
    | _ => digits s
    end%char in
  match value with
  | Some z => if (- 2 ^ 63 <=? z) && (z <? 2 ^ 63) then Some z else None
  | None => None
  end.

(** ** [cluster.go] *)

Definition basePort : Z := 26257.
Definition dataDir : string := "cockroach-data".

(** [filepath.Join(a, b)] for two clean, non-empty elements, which is what
    [cluster.go] joins: the elements separated by a slash. *)
Definition filepath_Join (a b : string) : string := a +:+ "/" +:+ b.

(** *** [envRE]

    The expression has a first group, [COCKROACH_[^=]+] or [GO[^=]+], then
    [=], then a second group of any number of [.].

    [FindStringSubmatch] takes the leftmost match.  At one position the
    expression matches when the text goes on with one of the two literals,
    then with at least one byte other than [=] (a class that also matches a
    newline), then with [=]; the second group is the rest up to the first
    newline, which [.] does not match. *)

(** Splits [s] at its first [=]. *)
Fixpoint cut_at_equals (s : string) : option (string * string) :=
  match s with
  | EmptyString => None
  | String c s' =>
      if Ascii.eqb c "=" then Some (EmptyString, s')
      else match cut_at_equals s' with
           | Some (a, b) => Some (String c a, b)
           | None => None
           end
  end.

(** The bytes of [s] before its first newline. *)
Fixpoint up_to_newline (s : string) : string :=
  match s with
  | EmptyString => EmptyString
  | String c s' =>
      if Ascii.eqb c "010" then EmptyString else String c (up_to_newline s')
  end.

(** [s] without the prefix [p], when it has that prefix. *)
Fixpoint strip_prefix (p s : string) : option string :=
  match p, s with
  | EmptyString, _ => Some s
  | String a p', String b s' => if Ascii.eqb a b then strip_prefix p' s' else None
  | String _ _, EmptyString => None
  end.

(** A match of one alternative, [lit[^=]+], and of the rest of the
    expression at the start of [s]: the two groups. *)
Definition envRE_alternative (lit s : string) : option (string * string) :=
  match strip_prefix lit s with
  | None => None
  | Some rest =>
      match cut_at_equals rest with
      | Some (run, value) =>
          if Str.is_empty run then None
          else Some (lit +:+ run, up_to_newline value)
      | None => None
      end
  end.

Definition envRE_here (s : string) : option (string * string) :=
  match envRE_alternative "COCKROACH_" s with
  | Some m => Some m
  | None => envRE_alternative "GO" s
  end.

(** [envRE.FindStringSubmatch(val)]: the groups [m[1]] and [m[2]]. *)
Fixpoint envRE_FindStringSubmatch (val : string) : option (string * string) :=
  match envRE_here val with
  | Some m => Some m
  | None =>
      match val with
      | EmptyString => None
      | String _ val' => envRE_FindStringSubmatch val'
      end
  end.

(** The loop over [os.Environ()] in [cluster.newNode]. *)
Definition cockroach_env (environ : list string) : gmap string string :=
  foldl (λ env val,
           match envRE_FindStringSubmatch val with
           | None => env
           | Some (k, v) => <[k := v]> env
           end) ∅ environ.

(** *** The cluster *)

Module cluster.

(** The type [perNodeAttribute] of [attrs] and [localities] is declared
    outside the files at hand; [newNode] only looks a node number up in
    them, so they are partial functions here. *)
Record t := {
  Nodes : gmap string node.t;       (* [map[string]*node]: a node is known by its key *)
  NextPort : Z;
  args : list string;
  attrs : Z → option string;
  localities : Z → option string
}.

Definition set_Nodes (x : gmap string node.t) (c : t) : t :=
  {| Nodes := x; NextPort := NextPort c; args := args c; attrs := attrs c;
     localities := localities c |}.
Definition set_NextPort (x : Z) (c : t) : t :=
  {| Nodes := Nodes c; NextPort := x; args := args c; attrs := attrs c;
     localities := localities c |}.

End cluster.

(** [newCluster] *)
Definition newCluster (args : list string) (attrs localities : Z → option string)
    : cluster.t :=
  {| cluster.Nodes := ∅;
     cluster.NextPort := basePort;
     cluster.args := args;
     cluster.attrs := attrs;
     cluster.localities := localities |}.

(** The memory of the application: the cluster, the [nodeRun] objects and
    the world. *)
Record server := {
  cl : cluster.t;
  mem : list nodeRun.t;
  sw : world
}.

(** What [cluster.go] asks of its surroundings: [os.MkdirAll],
    [os.Environ()] and the package variable [cockroachBin]. *)
Record cluster_host := {
  os_MkdirAll : string → option string;    (* the error, if any *)
  os_Environ : list string;
  cockroachBin : string
}.

Definition srvW {A} (m : M world A) : M server A :=
  λ s, let '(x, w) := m (sw s) in (x, {| cl := cl s; mem := mem s; sw := w |}).

Definition assign_cluster (f : cluster.t → cluster.t) : M server unit :=
  modify (λ s, {| cl := f (cl s); mem := mem s; sw := sw s |}).

(** [n.URL = x] *)
Definition node_set_URL (x : string) (n : node.t) : node.t :=
  {| node.Name := node.Name n; node.Args := node.Args n; node.Env := node.Env n;
     node.Stdout := node.Stdout n; node.Stderr := node.Stderr n; node.URL := x;
     node.Attrs := node.Attrs n; node.Locality := node.Locality n;
     node.Active := node.Active n; node.Runs := node.Runs n;
     node.Service := node.Service n |}.

(** [func (c *cluster) newNode() *node]; the node is returned by its key. *)
Definition cluster_newNode (ch : cluster_host) : M server string :=
  s ← get;
  let c := cl s in
  let id := Z.of_nat (size (cluster.Nodes c)) + 1 in
  let name := Itoa id in
  let dir := filepath_Join dataDir name in
  let logdir := filepath_Join dir "logs" in
  match os_MkdirAll ch logdir with
  | Some err => srvW (log_Fatalf err)
  | None =>
      let port := cluster.NextPort c in
      let httpPort := port + 1 in
      assign_cluster (cluster.set_NextPort (cluster.NextPort c + 2));;
      let args :=
        [ cockroachBin ch; "start"; "--insecure"; "--host=localhost";
          "--port=" +:+ Itoa port; "--http-port=" +:+ Itoa httpPort;
          "--store=" +:+ dir; "--cache=256MiB" ] in
      let args :=
        if decide (port = basePort) then args
        else args ++ ["--join=localhost:" +:+ Itoa basePort] in
      let attributes := default EmptyString (cluster.attrs c id) in
      let args :=
        match cluster.attrs c id with
        | Some a => args ++ ["--attrs=" +:+ a]
        | None => args
        end in
      let locality := default EmptyString (cluster.localities c id) in
      let args :=
        match cluster.localities c id with
        | Some l => args ++ ["--locality=" +:+ l]
        | None => args
        end in
      let args := args ++ cluster.args c in
      let env := cockroach_env (os_Environ ch) in
      s ← get;
      let '(x, sys) :=
        newNode name args (Some env) true
          (filepath_Join logdir "${RUN}.stdout")
          (filepath_Join logdir "${RUN}.stderr")
          attributes locality (mem s) (sw s) in
      modify (λ s, {| cl := cl s; mem := heap sys; sw := wd sys |});;
      match x with
      | Abort e => throw e
      | Ok _ =>
          let n := node_set_URL ("http://localhost:" +:+ Itoa httpPort) (nd sys) in
          assign_cluster (λ c, cluster.set_Nodes (<[node.Name n := n]> (cluster.Nodes c)) c);;
          mret (node.Name n)
      end
  end.

(** A node of the cluster acting: a method call on it or one of its
    goroutines taking its turn.  The goroutines of all nodes share the
    world; which node a goroutine belongs to is not recorded, so this lets
    any node take the turn, which covers what the program does. *)
Definition node_acts (k : string) (a : action) (s : server)
    : option (result unit * server) :=
  match cluster.Nodes (cl s) !! k with
  | None => None
  | Some n =>
      match perform a {| nd := n; heap := mem s; wd := sw s |} with
      | None => None
      | Some (x, sys) =>
          Some (x, {| cl := cluster.set_Nodes (<[k := nd sys]> (cluster.Nodes (cl s))) (cl s);
                      mem := heap sys;
                      sw := wd sys |})
      end
  end.

Inductive cluster_step (ch : cluster_host) (s : server) : server → Prop :=
  | cluster_step_newNode x s' :
      cluster_newNode ch s = (x, s') → cluster_step ch s s'
  | cluster_step_node k a x s' :
      node_acts k a s = Some (x, s') → cluster_step ch s s'.

Inductive cluster_reachable (ch : cluster_host) (s0 : server) : server → Prop :=
  | cluster_reachable_init : cluster_reachable ch s0 s0
  | cluster_reachable_step s s' :
      cluster_reachable ch s0 s → cluster_step ch s s' →
      cluster_reachable ch s0 s'.

(** The [range] loops of the [AnyNodes...] methods: whether some node of
    the cluster satisfies [p]. *)
Definition any_node (p : node.t → bool) (c : cluster.t) : bool :=
  existsb (λ kn, p kn.2) (map_to_list (cluster.Nodes c)).

(** [t.Active.Paused], for a node with an active Run. *)
Definition active_paused (h : list nodeRun.t) (n : node.t) : option bool :=
  match node.Active n with
  | None => None
  | Some l => nodeRun.Paused <$> h !! l
  end.

(** [AnyNodesStarted], [AnyNodesStopped], [AnyNodesPaused] and
    [AnyNodesNotPaused] *)
Definition AnyNodesStarted (s : server) : bool :=
  any_node (λ t, bool_decide (node.Active t ≠ None)) (cl s).
Definition AnyNodesStopped (s : server) : bool :=
  any_node (λ t, bool_decide (node.Active t = None)) (cl s).
Definition AnyNodesPaused (s : server) : bool :=
  any_node (λ t, bool_decide (active_paused (mem s) t = Some true)) (cl s).
Definition AnyNodesNotPaused (s : server) : bool :=
  any_node (λ t, bool_decide (active_paused (mem s) t = Some false)) (cl s).

(** *** Requests *)

(** An [http.ResponseWriter]: the status code once it is written, the
    bodies written, the headers, and the error that [Write] returns when the
    connection is gone. *)
Record ResponseWriter := {
  Code : option Z;
  Body : list string;
  Header : gmap string string;
  Broken : option string
}.

(** A template of [tmpls]: what [Execute] gives for the data, or its error.
    The data of [renderError] maps names to strings. *)
Definition template : Type := gmap string string → string + string.

(** The state of a request: the response and the world. *)
Definition Rq : Type := ResponseWriter * world.

Definition on_rw (f : ResponseWriter → ResponseWriter) : M Rq unit :=
  modify (λ s, (f s.1, s.2)).
Definition rqW {A} (m : M world A) : M Rq A :=
  λ s, let '(x, w) := m s.2 in (x, (s.1, w)).

(** [rw.WriteHeader(code)]: only the first status counts. *)
Definition WriteHeader (code : Z) : M Rq unit :=
  on_rw (λ rw, match Code rw with
               | Some _ => rw
               | None => {| Code := Some code; Body := Body rw;
                            Header := Header rw; Broken := Broken rw |}
               end).

(** [rw.Write(b)]: the error, if any; a first write sets the status 200. *)
Definition Write (b : string) : M Rq (option string) :=
  s ← get;
  match Broken s.1 with
  | Some err => mret (Some err)
  | None =>
      WriteHeader 200;;
      on_rw (λ rw, {| Code := Code rw; Body := Body rw ++ [b];
                      Header := Header rw; Broken := Broken rw |});;
      mret None
  end.

(** [render(asset, data)]: the page or the error. *)
Definition render (tmpls : gmap string template) (asset : string)
    (data : gmap string string) : M Rq (string + string) :=
  match tmpls !! asset with
  | None => mret (inr (asset +:+ " not found"))
  | Some t =>
      match t data with
      | inr err =>
          rqW (log_Printf ("failed executing template " +:+ asset +:+ ": " +:+ err));;
          mret (inr err)
      | inl html => mret (inl html)
      end
  end.

(** [renderSimple(rw, asset, data)] *)
Definition renderSimple (tmpls : gmap string template) (asset : string)
    (data : gmap string string) : M Rq unit :=
  r ← render tmpls asset data;
  match r with
  | inr err => rqW (log_Fatalf err)
  | inl html =>
      e ← Write html;
      match e with
      | Some err => rqW (log_Printf err)
      | None => mret tt
      end
  end.

(** [renderError(rw, message)] *)
Definition renderError (tmpls : gmap string template) (message : string) : M Rq unit :=
  renderSimple tmpls "error.html" {[ "Error" := message ]}.

(** [args[key]]: the empty string for a missing key. *)
Definition arg (args : gmap string string) (key : string) : string :=
  default EmptyString (args !! key).

(** [func (c *cluster) findNode(rw, args) *node]; the node is returned by
    its key, [None] is nil. *)
Definition findNode (tmpls : gmap string template) (c : cluster.t)
    (args : gmap string string) : M Rq (option string) :=
  let id := arg args "node" in
  match cluster.Nodes c !! id with
  | None =>
      WriteHeader 400;;
      renderError tmpls ("node " +:+ id +:+ " not found");;
      mret None
  | Some _ => mret (Some id)
  end.

(** [func (c *cluster) findNodeRun(rw, t, args) *nodeRun]; of the text of
    the [Atoi] error only the beginning is kept. *)
Definition findNodeRun (tmpls : gmap string template) (t : node.t)
    (args : gmap string string) : M Rq (option loc) :=
  match Atoi (arg args "run") with
  | None =>
      WriteHeader 400;;
      renderError tmpls ("strconv.Atoi: parsing " +:+ arg args "run");;
      mret None
  | Some run =>
      if (run <? 0) || (Z.of_nat (length (node.Runs t)) <=? run) then
        WriteHeader 400;;
        renderError tmpls ("run " +:+ Itoa run +:+ " of node " +:+ node.Name t
                           +:+ " not found");;
        mret None
      else
        match node.Runs t !! Z.to_nat run with
        | Some l => mret (Some l)
        | None => throw (Panic "index out of range")
        end
  end.

(** The configuration of a node: everything but its run state and its
    service flag. *)
Definition same_config (n n' : node.t) : Prop :=
  node.Name n' = node.Name n
  ∧ node.Args n' = node.Args n
  ∧ node.Env n' = node.Env n
  ∧ node.Stdout n' = node.Stdout n
  ∧ node.Stderr n' = node.Stderr n
  ∧ node.URL n' = node.URL n
  ∧ node.Attrs n' = node.Attrs n
  ∧ node.Locality n' = node.Locality n.

(** *** The handlers of the node controls *)

(** [redirect(rw, req)], with [req.Referer()] given. *)
Definition redirect (referer : string) : M Rq unit :=
  on_rw (λ rw, {| Code := Code rw; Body := Body rw;
                  Header := <["Location" := referer]> (Header rw);
                  Broken := Broken rw |});;
  WriteHeader 302.

(** The state of a handler: the response and the application. *)
Definition Hd : Type := ResponseWriter * server.

Definition hdRq {A} (m : M Rq A) : M Hd A :=
  λ st, let '(x, (rw, w)) := m (st.1, sw st.2) in
        (x, (rw, {| cl := cl st.2; mem := mem st.2; sw := w |})).

(** A method call on the node that [findNode] returned. *)
Definition hdNode {A} (k : string) (m : M system A) : M Hd A :=
  λ st, match cluster.Nodes (cl st.2) !! k with
        | None => (Abort (Panic nil_dereference), st)
        | Some n =>
            let '(x, sys) := m {| nd := n; heap := mem st.2; wd := sw st.2 |} in
            (x, (st.1,
                 {| cl := cluster.set_Nodes (<[k := nd sys]> (cluster.Nodes (cl st.2)))
                            (cl st.2);
                    mem := heap sys;
                    sw := wd sys |}))
        end.

(** [func (c *cluster) startNode(rw, req, args)] *)
Definition startNode (tmpls : gmap string template) (referer : string)
    (args : gmap string string) : M Hd unit :=
  st ← get;
  t ← hdRq (findNode tmpls (cl st.2) args);
  match t with
  | None => mret tt
  | Some k =>
      hdNode k (assign_node (node.set_Service true);; node_start);;
      hdRq (redirect referer)
  end.

(** [func (c *cluster) stopNode(rw, req, args)] *)
Definition stopNode (tmpls : gmap string template) (referer : string)
    (args : gmap string string) : M Hd unit :=
  st ← get;
  t ← hdRq (findNode tmpls (cl st.2) args);
  match t with
  | None => mret tt
  | Some k =>
      hdNode k (assign_node (node.set_Service false);; node_stop);;
      hdRq (redirect referer)
  end.

(** [func (c *cluster) pauseNode(rw, req, args)] *)
Definition pauseNode (tmpls : gmap string template) (referer : string)
    (args : gmap string string) : M Hd unit :=
  st ← get;
  t ← hdRq (findNode tmpls (cl st.2) args);
  match t with
  | None => mret tt
  | Some k => hdNode k node_pause;; hdRq (redirect referer)
  end.

(** [func (c *cluster) resumeNode(rw, req, args)] *)
Definition resumeNode (tmpls : gmap string template) (referer : string)
    (args : gmap string string) : M Hd unit :=
  st ← get;
  t ← hdRq (findNode tmpls (cl st.2) args);
  match t with
  | None => mret tt
  | Some k => hdNode k node_resume;; hdRq (redirect referer)
  end.

(** A node of the cluster as the system its methods act on. *)
Definition node_of (s : server) (n : node.t) : system :=
  {| nd := n; heap := mem s; wd := sw s |}.

(** The command line that the appends of [cluster.newNode] build for the
    node numbered [id] with the port [port], in one expression. *)
Definition node_command (ch : cluster_host) (c : cluster.t) (id port : Z)
    : list string :=
  [ cockroachBin ch; "start"; "--insecure"; "--host=localhost";
    "--port=" +:+ Itoa port; "--http-port=" +:+ Itoa (port + 1);
    "--store=" +:+ filepath_Join dataDir (Itoa id); "--cache=256MiB" ]
  ++ (if decide (port = basePort) then []
      else ["--join=localhost:" +:+ Itoa basePort])
  ++ match cluster.attrs c id with Some a => ["--attrs=" +:+ a] | None => [] end
  ++ match cluster.localities c id with Some l => ["--locality=" +:+ l] | None => [] end
  ++ cluster.args c.

(** The log directory of the node named [k]. *)
Definition logdir_of (k : string) : string :=
  filepath_Join (filepath_Join dataDir k) "logs".

(** What holds of a cluster in every state: the ports are handed out in
    pairs from [basePort] on; a node is registered under its name, the
    decimal rendering of a number from 1 to the number of nodes; it has a
    pair of ports below [NextPort], the command line built for its number
    and port, and the log paths of its directory; its history is that of a
    node (see [history_ok]); different nodes have different URLs and share
    no Run. *)
Definition cluster_ok (ch : cluster_host) (s : server) : Prop :=
  let c := cl s in
  let N := Z.of_nat (size (cluster.Nodes c)) in
  (∃ J, 0 ≤ J ∧ cluster.NextPort c = basePort + 2 * J)
  ∧ (∀ k n, cluster.Nodes c !! k = Some n →
       node.Name n = k
       ∧ (∃ i j, 1 ≤ i ≤ N ∧ k = Itoa i
            ∧ 0 ≤ j ∧ basePort + 2 * j + 2 ≤ cluster.NextPort c
            ∧ node.URL n = "http://localhost:" +:+ Itoa (basePort + 2 * j + 1)
            ∧ node.Args n = node_command ch c i (basePort + 2 * j))
       ∧ node.Stdout n = filepath_Join (logdir_of k) "$RUN.stdout"
       ∧ node.Stderr n = filepath_Join (logdir_of k) "$RUN.stderr"
       ∧ history_ok (node_of s n))
  ∧ (∀ i, 1 ≤ i ≤ N → is_Some (cluster.Nodes c !! Itoa i))
  ∧ (∀ k1 k2 n1 n2,
       k1 ≠ k2 →
       cluster.Nodes c !! k1 = Some n1 → cluster.Nodes c !! k2 = Some n2 →
       node.URL n1 ≠ node.URL n2
       ∧ ∀ l, l ∈ node.Runs n1 → l ∉ node.Runs n2).

(** ** A sample cluster *)

Module SampleCluster.

(** A machine on which the log directories can be made, with the binary
    [cockroach] on the path. *)
Definition datacenter : cluster_host :=
  {| os_MkdirAll := λ _, None;
     os_Environ := ["PATH=/bin"; "COCKROACH_SKIP_UPDATE_CHECK=1"; "GOGC=50"];
     cockroachBin := "cockroach" |}.

(** The same with a binary that cannot be spawned. *)
Definition broken : cluster_host :=
  {| os_MkdirAll := λ _, None;
     os_Environ := [];
     cockroachBin := "missing" |}.

(** A machine on which no command can be spawned, and the application on
    it before its first node. *)
Definition barren : OS :=
  {| os_Create := λ _, None;
     os_StartProcess := λ _ _, inr "executable file not found in $PATH";
     os_Wait := λ pid, {| os.ExitStatus := 0; os.String := "exit status 0" |};
     user_Current := None;
     os_Getenv := λ _, EmptyString;
     time_Now := 1700000000 |}.

Definition stranded : server :=
  {| cl := newCluster [] (λ _, None) (λ _, None);
     mem := [];
     sw := {| host := barren; starts := 0; chans := 0; goroutines := [];
              trace := [] |} |}.

(** The application before its first node, and after [n] calls of
    [cluster.newNode]. *)
Definition fresh : server :=
  {| cl := newCluster ["--logtostderr"] (λ _, None) (λ _, None);
     mem := [];
     sw := Sample.boot |}.

Fixpoint grown (ch : cluster_host) (n : nat) : server :=
  match n with
  | O => fresh
  | S n' => (cluster_newNode ch (grown ch n')).2
  end.

End SampleCluster.

(** * Properties *)

(** ** Strings *)

#[local] Arguments String.append !_ _ /.

Lemma append_assoc (a b c : string) : (a +:+ b) +:+ c = a +:+ b +:+ c.
Proof. induction a as [|x a IH]; simpl; [reflexivity | by f_equal]. Qed.

Lemma append_nil_r (a : string) : a +:+ EmptyString = a.
Proof. induction a as [|x a IH]; simpl; [reflexivity | by f_equal]. Qed.

Lemma len_append (a b : string) : Str.len (a +:+ b) = (Str.len a + Str.len b)%nat.
Proof. induction a as [|x a IH]; simpl; [reflexivity | by f_equal]. Qed.

Lemma append_inv_head (p a b : string) : p +:+ a = p +:+ b → a = b.
Proof. induction p as [|x p IH]; simpl; [done | intros [= H]; auto]. Qed.


Lemma contains_append (c : ascii) (a b : string) :
  Str.contains c (a +:+ b) = Str.contains c a || Str.contains c b.
Proof.
  induction a as [|x a IH]; simpl; [reflexivity|].
  rewrite IH. by rewrite orb_assoc.
Qed.

(** ** [os.Expand] *)

Section Expand.
Variable mapping : string → string.

(** Stepping over the bytes of a reference. *)
Lemma Expand_from_skip (a b : string) :
  Expand_from (Str.len a) (a +:+ b) mapping = Expand_from O b mapping.
Proof. induction a as [|x a IH]; simpl; [by destruct b | exact IH]. Qed.

(** Text without a dollar sign is copied. *)
Lemma Expand_copy (pre s : string) :
  Str.contains "$" pre = false →
  Expand (pre +:+ s) mapping = pre +:+ Expand s mapping.
Proof.
  unfold Expand. induction pre as [|x pre IH]; simpl; [done|].
  intros [Hx Hpre]%orb_false_elim.
  rewrite Hx. simpl. by rewrite IH.
Qed.

Lemma Expand_plain (s : string) :
  Str.contains "$" s = false → Expand s mapping = s.
Proof.
  intros H. rewrite <- (append_nil_r s) at 1.
  rewrite Expand_copy by done. simpl. apply append_nil_r.
Qed.

Lemma scanBrace_name (name post : string) :
  Str.contains "}" name = false →
  scanBrace (name +:+ String "}" post) = Some name.
Proof.
  induction name as [|x name IH]; simpl; [done|].
  intros [Hx Hn]%orb_false_elim. rewrite Hx. by rewrite IH.
Qed.

Lemma getShellName_brace (name post : string) :
  name ≠ EmptyString →
  Str.contains "}" name = false →
  getShellName ("{" +:+ name +:+ "}" +:+ post) = (name, S (S (Str.len name))).
Proof.
  intros Hne Hn. unfold getShellName. simpl.
  rewrite scanBrace_name by done.
  destruct name as [|x name]; [done|]. simpl.
  simpl in Hn. apply orb_false_elim in Hn as [Hx Hn].
  destruct name as [|y name]; simpl.
  - by destruct (isShellSpecialVar x).
  - simpl in Hn. apply orb_false_elim in Hn as [Hy _]. rewrite Hy.
    by rewrite andb_false_r.
Qed.

(** A braced reference is replaced by what [mapping] returns for its name. *)
Lemma Expand_brace (name post : string) :
  name ≠ EmptyString →
  Str.contains "}" name = false →
  Expand ("${" +:+ name +:+ "}" +:+ post) mapping
  = mapping name +:+ Expand post mapping.
Proof.
  intros Hne Hn. unfold Expand.
  change ("${" +:+ name +:+ "}" +:+ post)
    with (String "$" ("{" +:+ name +:+ "}" +:+ post)).
  cbn [Expand_from]. rewrite Ascii.eqb_refl.
  replace (Str.is_empty ("{" +:+ name +:+ "}" +:+ post)) with false by done.
  cbn [andb negb]. rewrite getShellName_brace by done.
  replace (Str.is_empty name) with false by (by destruct name).
  f_equal.
  rewrite <- (Expand_from_skip ("{" +:+ name +:+ "}") post).
  f_equal.
  - simpl. rewrite len_append. simpl. lia.
  - cbn [String.append]. f_equal. symmetry. apply (append_assoc name "}" post).
Qed.
End Expand.

Lemma replaceVars_plain (s : string) (vars : gmap string string) :
  Str.contains "$" s = false → replaceVars s vars = s.
Proof. apply Expand_plain. Qed.

(** C1 (as amended).  [replaceVars] is a total function of the template and
    the mapping.  The text up to the first dollar sign is copied; a braced
    reference [${NAME}] standing there is replaced by the value of [NAME]
    when the mapping defines it and by [$NAME], without the braces, when it
    does not; the text after the reference is expanded in the same way. *)
Theorem replaceVars_braced_reference
    (pre name post : string) (vars : gmap string string) :
  Str.contains "$" pre = false →
  name ≠ EmptyString →
  Str.contains "}" name = false →
  replaceVars (pre +:+ "${" +:+ name +:+ "}" +:+ post) vars
  = pre +:+ (match vars !! name with
             | Some v => v
             | None => "$" +:+ name
             end) +:+ replaceVars post vars.
Proof.
  intros Hpre Hne Hn. unfold replaceVars.
  rewrite Expand_copy by done.
  by rewrite Expand_brace.
Qed.

Lemma replaceVars_braced_reference_witness :
  let vars : gmap string string := {[ "EXT" := "out" ]} in
  Str.contains "$" "logs/" = false
  ∧ "RUN" ≠ EmptyString
  ∧ Str.contains "}" "RUN" = false
  ∧ replaceVars ("logs/" +:+ "${" +:+ "RUN" +:+ "}" +:+ ".${EXT}") vars
    = "logs/" +:+ "$RUN" +:+ replaceVars ".${EXT}" vars.
Proof.
  intros vars.
  split; [reflexivity|]. split; [discriminate|]. split; [reflexivity|].
  rewrite (replaceVars_braced_reference "logs/" "RUN" ".${EXT}" vars);
    [ | reflexivity | discriminate | reflexivity ].
  unfold vars. rewrite lookup_singleton_ne by discriminate.
  reflexivity.
Defined.

(** C1, the claim as stated fails: an undefined name does not stay in the
    output as [${NAME}], the braces are lost. *)
Lemma replaceVars_undefined_not_verbatim :
  replaceVars "${NAME}" ∅ = "$NAME" ∧ replaceVars "${NAME}" ∅ ≠ "${NAME}".
Proof. split; [vm_compute; reflexivity | vm_compute; discriminate]. Qed.

(** *** Examples *)

Example replaceVars_defined :
  replaceVars "a/${X}/b-$X." {[ "X" := "42" ]} = "a/42/b-42.".
Proof. vm_compute. reflexivity. Qed.

Example replaceVars_undefined :
  replaceVars "logs/${RUN}.stdout" ∅ = "logs/$RUN.stdout".
Proof. vm_compute. reflexivity. Qed.

Example Itoa_examples : Itoa 0 = "0" ∧ Itoa 12 = "12" ∧ Itoa (-7) = "-7".
Proof. vm_compute. auto. Qed.


(** *** The [RUN] variable *)

Lemma getShellName_RUN (post : string) :
  starts_alnum post = false →
  getShellName ("RUN" +:+ post) = ("RUN", 3%nat).
Proof.
  intros H. destruct post as [|x post]; [reflexivity|].
  simpl in H. unfold getShellName. simpl. by rewrite H.
Qed.

(** A bare reference [$RUN] is replaced when no name character follows. *)
Lemma Expand_RUN (mapping : string → string) (post : string) :
  starts_alnum post = false →
  Expand ("$RUN" +:+ post) mapping = mapping "RUN" +:+ Expand post mapping.
Proof.
  intros H. unfold Expand.
  change ("$RUN" +:+ post) with (String "$" ("RUN" +:+ post)).
  cbn [Expand_from]. rewrite Ascii.eqb_refl.
  replace (Str.is_empty ("RUN" +:+ post)) with false by done.
  cbn [andb negb]. rewrite getShellName_RUN by done.
  cbn [Str.is_empty]. f_equal.
Qed.

(** The pass of [newNode]: without a value for [RUN], the reference loses
    its braces. *)
Lemma replaceVars_RUN_undefined (pre post : string) (vars : gmap string string) :
  vars !! "RUN" = None →
  Str.contains "$" pre = false →
  Str.contains "$" post = false →
  replaceVars (pre +:+ "${RUN}" +:+ post) vars = pre +:+ "$RUN" +:+ post.
Proof.
  intros Hv Hpre Hpost. unfold replaceVars.
  rewrite Expand_copy by done.
  change ("${RUN}" +:+ post) with ("${" +:+ "RUN" +:+ "}" +:+ post).
  rewrite Expand_brace by done.
  by rewrite Hv, Expand_plain.
Qed.

(** The pass of [node.start]: [RUN] is the only variable defined. *)
Lemma replaceVars_RUN_defined (pre post v : string) :
  Str.contains "$" pre = false →
  Str.contains "$" post = false →
  starts_alnum post = false →
  replaceVars (pre +:+ "$RUN" +:+ post) {[ "RUN" := v ]} = pre +:+ v +:+ post.
Proof.
  intros Hpre Hpost Hal. unfold replaceVars.
  rewrite Expand_copy by done. rewrite Expand_RUN by done.
  rewrite lookup_singleton_eq. by rewrite Expand_plain.
Qed.

Lemma Itoa_inj (a b : Z) : Itoa a = Itoa b → a = b.
Proof.
  unfold Itoa. intros H. apply to_int_inj.
  apply (f_equal NilEmpty.int_of_string) in H.
  rewrite !NilEmpty.isi in H. by injection H.
Qed.

Lemma set_default_other (k v k' : string) (vars : gmap string string) :
  k ≠ k' → set_default k v vars !! k' = vars !! k'.
Proof.
  intros Hne. unfold set_default.
  destruct (vars !! k); [done | by rewrite lookup_insert_ne].
Qed.

(** [addDefaultVars] never defines [RUN]. *)
Lemma addDefaultVars_RUN (o : OS) (vars : gmap string string) :
  addDefaultVars o vars !! "RUN" = vars !! "RUN".
Proof.
  unfold addDefaultVars.
  destruct (user_Current o); rewrite ?set_default_other; done.
Qed.

(** ** Runs *)

#[local] Arguments String.append : simpl never.
#[local] Arguments Nat.ltb : simpl never.
#[local] Arguments Str.len : simpl never.
#[local] Arguments Str.join : simpl never.
#[local] Arguments Itoa : simpl never.
#[local] Arguments replaceVars : simpl never.
#[local] Arguments env_strings : simpl never.

(** Unfolds the monad and the primitive effects at the head of a goal. *)
Ltac mred :=
  repeat (progress
    (unfold mbind, M_bind, mret, M_ret, nodeRun.self, nodeRun.assign,
       nodeRun.sys, nodeRun.deref_Cmd, nodeRun.assign_Cmd, modify, get,
       throw, emit, log_Printf, log_Fatalf, Now, go, Process_Signal,
       Process_Kill, newFileLogWriter, logWriter_Close, exec.Start,
       exec.Wait, chan_send;
     cbn)).

Lemma handle_Some (r : nodeRun.t) (p : os.Process) :
  handle r = Some p →
  ∃ c, nodeRun.Cmd r = Some c ∧ exec.Process c = Some p.
Proof.
  unfold handle. destruct (nodeRun.Cmd r) as [c|]; [|done]. eauto.
Qed.

Lemma nodeRun_control_no_handle (r : nodeRun.t) (w : world) :
  no_handle r →
  nodeRun_stop (r, w) = (Ok tt, (r, w))
  ∧ nodeRun_pause (r, w) = (Ok tt, (r, w))
  ∧ nodeRun_resume (r, w) = (Ok tt, (r, w)).
Proof.
  unfold no_handle, handle, nodeRun_stop, nodeRun_pause, nodeRun_resume.
  mred. destruct (nodeRun.Cmd r) as [c|]; [|done].
  by intros ->.
Qed.

Lemma nodeRun_control_handle (r : nodeRun.t) (w : world) (p : os.Process) :
  handle r = Some p →
  nodeRun_stop (r, w)
    = (Ok tt, (nodeRun.set_Paused false r,
               set_trace (trace w ++ [EvSignal (os.Pid p) SIGKILL]) w))
  ∧ nodeRun_pause (r, w)
    = (Ok tt, (nodeRun.set_Paused true r,
               set_trace (trace w ++ [EvSignal (os.Pid p) SIGSTOP]) w))
  ∧ nodeRun_resume (r, w)
    = (Ok tt, (nodeRun.set_Paused false r,
               set_trace (trace w ++ [EvSignal (os.Pid p) SIGCONT]) w)).
Proof.
  intros (c & Hc & Hp)%handle_Some.
  unfold nodeRun_stop, nodeRun_pause, nodeRun_resume.
  mred. by rewrite Hc, Hp.
Qed.

Lemma node_stop_inactive (s : system) :
  node.Active (nd s) = None → node_stop s = (Ok tt, s).
Proof. intros H. unfold node_stop, this. mred. by rewrite H. Qed.

(** C6 (as amended).  For a Run without a process handle (never spawned, or
    its launch failed) [stop], [pause] and [resume] return without changing
    the Run or doing anything.  For a Run that has a handle, which it keeps
    after its process exited, they return after setting the paused flag and
    sending the signal.  [stop] on a node without an active Run returns
    without changing anything. *)
Theorem control_without_handle_is_noop :
  (∀ r w, no_handle r →
     nodeRun_stop (r, w) = (Ok tt, (r, w))
     ∧ nodeRun_pause (r, w) = (Ok tt, (r, w))
     ∧ nodeRun_resume (r, w) = (Ok tt, (r, w)))
  ∧ (∀ r w p, handle r = Some p →
     nodeRun_stop (r, w)
       = (Ok tt, (nodeRun.set_Paused false r,
                  set_trace (trace w ++ [EvSignal (os.Pid p) SIGKILL]) w))
     ∧ nodeRun_pause (r, w)
       = (Ok tt, (nodeRun.set_Paused true r,
                  set_trace (trace w ++ [EvSignal (os.Pid p) SIGSTOP]) w))
     ∧ nodeRun_resume (r, w)
       = (Ok tt, (nodeRun.set_Paused false r,
                  set_trace (trace w ++ [EvSignal (os.Pid p) SIGCONT]) w)))
  ∧ (∀ s, node.Active (nd s) = None → node_stop s = (Ok tt, s)).
Proof.
  split; [exact nodeRun_control_no_handle|].
  split; [exact nodeRun_control_handle|].
  exact node_stop_inactive.
Qed.

Lemma control_without_handle_is_noop_witness :
  ∃ r, Sample.failed_run = Some r
       ∧ no_handle r
       ∧ nodeRun_pause (r, Sample.boot) = (Ok tt, (r, Sample.boot))
       ∧ node_stop Sample.oneshot_node.2 = (Ok tt, Sample.oneshot_node.2).
Proof.
  assert (handle <$> Sample.failed_run = Some None) as H
    by (vm_compute; reflexivity).
  destruct Sample.failed_run as [r|]; [|discriminate].
  injection H as H. exists r.
  destruct control_without_handle_is_noop as (Hno & _ & Hstop).
  split; [reflexivity|]. split; [exact H|]. split.
  - apply Hno. exact H.
  - apply Hstop. vm_compute. reflexivity.
Defined.

Lemma exited_handle (r : nodeRun.t) :
  exited r = true → ∃ p, handle r = Some p.
Proof.
  unfold exited, handle. destruct (nodeRun.Cmd r) as [c|]; [|done].
  destruct (exec.Process c) as [p|]; [eauto | done].
Qed.

(** C6, the claim as stated fails for a Run whose process has exited: the
    handle is still there, so [pause] sets the paused flag, and the node
    reports [Paused] for a process that is gone. *)
Lemma pause_after_exit_changes_run :
  ∃ r, active_run Sample.exited_state r
       ∧ exited r = true
       ∧ nodeRun.Paused r = false
       ∧ nodeRun.Paused (nodeRun_pause (r, wd Sample.exited_state)).2.1 = true
       ∧ node_Status Sample.exited_state = "Running"
       ∧ node_Status (node_pause Sample.exited_state).2 = "Paused".
Proof.
  assert (node.Active (nd Sample.exited_state) = Some 0%nat) as Ha
    by (vm_compute; reflexivity).
  assert ((λ r, (exited r, nodeRun.Paused r)) <$> heap Sample.exited_state !! 0%nat
          = Some (true, false)) as Hr by (vm_compute; reflexivity).
  destruct (heap Sample.exited_state !! 0%nat) as [r|] eqn:Hl; [|discriminate].
  injection Hr as He Hp. exists r.
  split; [exists 0%nat; split; [exact Ha | exact Hl] |].
  split; [exact He|]. split; [exact Hp|].
  split.
  - destruct (exited_handle r He) as [p Hh].
    destruct (nodeRun_control_handle r (wd Sample.exited_state) p Hh) as (_ & -> & _).
    reflexivity.
  - split; vm_compute; reflexivity.
Qed.

(** *** Sinks that cannot be opened *)

Lemma nodeRun_start_stdout_unopenable this c r w err :
  Nat.ltb 0 (Str.len (nodeRun.Stdout r)) = true →
  os_Create (host w) (nodeRun.Stdout r) = Some err →
  let msg := "unable to open file " +:+ nodeRun.Stdout r +:+ ": " +:+ err in
  nodeRun_start this c (r, w)
  = (Abort (Fatal msg),
     (nodeRun.set_Started (time_Now (host w)) r,
      set_trace (trace w ++ [EvLog msg]) w)).
Proof.
  intros H1 H2. unfold nodeRun_start. mred.
  rewrite H1. mred. rewrite H2. mred. reflexivity.
Qed.

Lemma nodeRun_start_stderr_unopenable this c r w cmd err :
  nodeRun.Cmd r = Some cmd →
  Nat.ltb 0 (Str.len (nodeRun.Stdout r)) = false
  ∨ os_Create (host w) (nodeRun.Stdout r) = None →
  Nat.ltb 0 (Str.len (nodeRun.Stderr r)) = true →
  os_Create (host w) (nodeRun.Stderr r) = Some err →
  let msg := "unable to open file " +:+ nodeRun.Stderr r +:+ ": " +:+ err in
  ∃ r' t,
    nodeRun_start this c (r, w)
    = (Abort (Fatal msg), (r', set_trace (trace w ++ t ++ [EvLog msg]) w))
    ∧ nodeRun.Error r' = nodeRun.Error r
    ∧ handle r' = handle r
    ∧ (t = [] ∨ t = [EvCreate (nodeRun.Stdout r)]).
Proof.
  intros Hc Hout H1 H2. unfold nodeRun_start. mred.
  destruct (Nat.ltb 0 (Str.len (nodeRun.Stdout r))) eqn:Hlen; mred.
  - destruct Hout as [|Hout]; [done|]. rewrite Hout. mred.
    rewrite Hc. mred. rewrite H1. mred. rewrite H2. mred.
    eexists _, [EvCreate (nodeRun.Stdout r)]. split.
    + rewrite <- app_assoc. reflexivity.
    + unfold handle. cbn. rewrite Hc. auto.
  - rewrite Hc. mred. rewrite H1. mred. rewrite H2. mred.
    eexists _, []. split; [reflexivity|].
    unfold handle. cbn. rewrite Hc. auto.
Qed.

(** C2 (as amended).  When the stdout or the stderr sink of a Run cannot be
    opened, starting the Run ends in [log.Fatalf]: the whole application
    terminates.  No process is spawned, the Run's error field is left as it
    was, no goroutine is started, and nothing is closed or signalled: the
    only effects are the log line and, when stderr is the sink that fails,
    the creation of the stdout file. *)
Theorem start_with_unopenable_sink_is_fatal
    (this : loc) (c : chan) (r : nodeRun.t) (w : world) :
  unopenable (host w) (nodeRun.Stdout r)
  ∨ (¬ unopenable (host w) (nodeRun.Stdout r)
     ∧ is_Some (nodeRun.Cmd r)
     ∧ unopenable (host w) (nodeRun.Stderr r)) →
  ∃ msg r' w',
    nodeRun_start this c (r, w) = (Abort (Fatal msg), (r', w'))
    ∧ nodeRun.Error r' = nodeRun.Error r
    ∧ handle r' = handle r
    ∧ starts w' = starts w
    ∧ goroutines w' = goroutines w
    ∧ ∀ e, e ∈ trace w' →
        e ∈ trace w ∨ e = EvLog msg ∨ e = EvCreate (nodeRun.Stdout r).
Proof.
  intros [[Hlen [err Herr]] | (Hout & [cmd Hc] & Hlen & [err Herr])].
  - eexists _, _, _. split.
    + apply nodeRun_start_stdout_unopenable; eassumption.
    + repeat split. cbn. intros e [He | He]%elem_of_app; [by left|].
      apply list_elem_of_singleton in He. by right; left.
  - assert (Nat.ltb 0 (Str.len (nodeRun.Stdout r)) = false
            ∨ os_Create (host w) (nodeRun.Stdout r) = None) as Hout'.
    { unfold unopenable in Hout.
      destruct (Nat.ltb 0 (Str.len (nodeRun.Stdout r))); [|by left].
      destruct (os_Create (host w) (nodeRun.Stdout r)) eqn:E; [|by right].
      exfalso. apply Hout. split; [done | by eexists]. }
    destruct (nodeRun_start_stderr_unopenable this c r w cmd err Hc Hout' Hlen Herr)
      as (r' & t & Hstart & He & Hh & Ht).
    eexists _, r', _. split; [exact Hstart|].
    repeat split; [exact He | exact Hh |]. cbn.
    intros e [He' | [He' | He']%elem_of_app]%elem_of_app.
    + by left.
    + destruct Ht as [-> | ->].
      * by apply elem_of_nil in He'.
      * apply list_elem_of_singleton in He'. by right; right.
    + apply list_elem_of_singleton in He'. by right; left.
Qed.

Lemma start_with_unopenable_sink_is_fatal_witness :
  let r := Sample.first_run "/ro/0.stdout" "logs/0.stderr" ["cockroach"] in
  unopenable (host Sample.boot) (nodeRun.Stdout r)
  ∧ ∃ msg r' w',
      nodeRun_start 0%nat 0%nat (r, Sample.boot) = (Abort (Fatal msg), (r', w'))
      ∧ starts w' = starts Sample.boot.
Proof.
  intros r.
  assert (unopenable (host Sample.boot) (nodeRun.Stdout r)) as H.
  { split; [vm_compute; reflexivity | eexists; vm_compute; reflexivity]. }
  split; [exact H|].
  destruct (start_with_unopenable_sink_is_fatal 0%nat 0%nat r Sample.boot (or_introl H))
    as (msg & r' & w' & Hs & _ & _ & Hst & _).
  exists msg, r', w'. split; [exact Hs | exact Hst].
Defined.

(** C2, the claim as stated fails: with a stdout path that cannot be
    created, [newNode] in service mode, and so the start of Run 0, ends the
    application, and the Run is not marked as failed. *)
Lemma unopenable_sink_terminates_application :
  Sample.readonly_node.1
  = Abort (Fatal "unable to open file /ro/0.stdout: permission denied")
  ∧ nodeRun.Error <$> heap Sample.readonly_node.2 !! 0%nat = Some None
  ∧ starts (wd Sample.readonly_node.2) = 0%nat.
Proof. repeat apply conj; vm_compute; reflexivity. Qed.

(** *** Completion *)

Lemma sends_app (c : chan) (t1 t2 : list event) :
  sends c (t1 ++ t2) = (sends c t1 + sends c t2)%nat.
Proof. apply count_occ_app. Qed.










(** C3.  With an empty stdout path no sink is created and the command's
    standard output is left unset, but the Run cannot complete: closing the
    sink it does not have panics, on process exit (in the waiter) as well as
    on launch failure (in [start]), before the completion send. *)
Theorem empty_sink_path_panics_at_completion :
  Sample.quiet_node.1 = Ok tt
  ∧ (λ r, (nodeRun.StdoutBuf r, exec.Stdout <$> nodeRun.Cmd r))
      <$> heap Sample.quiet_node.2 !! 0%nat = Some (None, Some None)
  ∧ trace (wd Sample.quiet_node.2)
    = [EvCreate "logs/0.stderr"; EvStart ["cockroach"; "start"] 1000;
       EvLog "process 1000 started: cockroach start"]
  ∧ (λ x, (x.1, trace (wd x.2), goroutines (wd x.2)))
      <$> perform (ProcessExit 0%nat 0%nat) Sample.quiet_node.2
    = Some (Abort (Panic nil_dereference),
            trace (wd Sample.quiet_node.2), [Handler 0%nat])
  ∧ Sample.quiet_missing_node.1 = Abort (Panic nil_dereference)
  ∧ trace (wd Sample.quiet_missing_node.2)
    = [EvCreate "logs/0.stderr"; EvLog "executable file not found in $PATH"].
Proof. repeat apply conj; vm_compute; reflexivity. Qed.

(** ** Nodes *)

#[local] Arguments nodeRun_start : simpl never.
#[local] Arguments nodeRun_waiter : simpl never.
#[local] Arguments nodeRun_stop : simpl never.
#[local] Arguments nodeRun_pause : simpl never.
#[local] Arguments nodeRun_resume : simpl never.

(** *** The identity of a Run is never reassigned *)

Lemma same_identity_refl (r : nodeRun.t) : same_identity r r.
Proof. by unfold same_identity. Qed.

Lemma same_identity_trans (r1 r2 r3 : nodeRun.t) :
  same_identity r1 r2 → same_identity r2 r3 → same_identity r1 r3.
Proof. unfold same_identity. intros (?&?&?) (?&?&?). repeat split; congruence. Qed.

Section Keeps.
Context {A B : Type}.

Lemma keeps_ret (a : A) : keeps_identity (mret a : M nodeRun.St A).
Proof. intros r w x r' w' [= _ <- _]. apply same_identity_refl. Qed.

Lemma keeps_throw (e : abort) : keeps_identity (throw e : M nodeRun.St A).
Proof. intros r w x r' w' [= _ <- _]. apply same_identity_refl. Qed.

Lemma keeps_sys (m : M world A) : keeps_identity (sys m).
Proof.
  intros r w x r' w'. unfold sys. cbn. destruct (m w) as [y w1].
  intros [= _ <- _]. apply same_identity_refl.
Qed.

Lemma keeps_bind (m : M nodeRun.St A) (f : A → M nodeRun.St B) :
  keeps_identity m → (∀ a, keeps_identity (f a)) → keeps_identity (m ≫= f).
Proof.
  intros Hm Hf r w x r' w'. unfold mbind, M_bind.
  destruct (m (r, w)) as [[a|e] [r1 w1]] eqn:E.
  - intros H. eapply same_identity_trans; [by eapply Hm | by eapply Hf].
  - intros [= _ <- _]. by eapply Hm.
Qed.
End Keeps.

Lemma keeps_self : keeps_identity self.
Proof. intros r w x r' w' [= _ <- _]. apply same_identity_refl. Qed.

Lemma keeps_assign (f : nodeRun.t → nodeRun.t) :
  (∀ r, same_identity r (f r)) → keeps_identity (assign f).
Proof. intros Hf r w x r' w' [= _ <- _]. apply Hf. Qed.

Lemma keeps_deref_Cmd : keeps_identity deref_Cmd.
Proof.
  unfold deref_Cmd. apply keeps_bind; [apply keeps_self|].
  intros r. destruct (nodeRun.Cmd r); [apply keeps_ret | apply keeps_throw].
Qed.

Lemma keeps_assign_Cmd (f : exec.Cmd → exec.Cmd) : keeps_identity (assign_Cmd f).
Proof.
  unfold assign_Cmd. apply keeps_bind; [apply keeps_deref_Cmd|].
  intros c. by apply keeps_assign.
Qed.

(** Goes through the body of a method statement by statement. *)
Ltac keeps :=
  repeat first
    [ apply keeps_ret | apply keeps_throw | apply keeps_self | apply keeps_sys
    | apply keeps_deref_Cmd | apply keeps_assign_Cmd
    | apply keeps_assign; intros ?; by unfold same_identity
    | apply keeps_bind; [| intros ?]
    | match goal with
      | |- keeps_identity (match ?x with _ => _ end) => destruct x
      end ].

Lemma keeps_nodeRun_start this c : keeps_identity (nodeRun_start this c).
Proof. unfold nodeRun_start, log_Fatalf. keeps. Qed.

Lemma keeps_nodeRun_waiter c : keeps_identity (nodeRun_waiter c).
Proof. unfold nodeRun_waiter. keeps. Qed.

Lemma keeps_nodeRun_stop : keeps_identity nodeRun_stop.
Proof. unfold nodeRun_stop. keeps. Qed.

Lemma keeps_nodeRun_pause : keeps_identity nodeRun_pause.
Proof. unfold nodeRun_pause. keeps. Qed.

Lemma keeps_nodeRun_resume : keeps_identity nodeRun_resume.
Proof. unfold nodeRun_resume. keeps. Qed.

(** *** What a transition does to the history *)

#[local] Arguments with_run : simpl never.

Lemma heap_le_refl (h : list nodeRun.t) : heap_le h h.
Proof. intros l r H. exists r. split; [done | apply same_identity_refl]. Qed.

Lemma heap_le_trans (h1 h2 h3 : list nodeRun.t) :
  heap_le h1 h2 → heap_le h2 h3 → heap_le h1 h3.
Proof.
  intros H12 H23 l r H. destruct (H12 l r H) as (r2 & H2 & Hi2).
  destruct (H23 l r2 H2) as (r3 & H3 & Hi3).
  exists r3. split; [done | by eapply same_identity_trans].
Qed.

Lemma heap_le_app (h : list nodeRun.t) (r : nodeRun.t) : heap_le h (h ++ [r]).
Proof.
  intros l r0 H. exists r0. split; [|apply same_identity_refl].
  by apply lookup_app_l_Some.
Qed.

Lemma heap_le_insert (h : list nodeRun.t) (l : loc) (r r' : nodeRun.t) :
  h !! l = Some r → same_identity r r' → heap_le h (<[l := r']> h).
Proof.
  intros Hl Hi l0 r0 H0. destruct (decide (l = l0)) as [<- | Hne].
  - exists r'. split.
    + apply list_lookup_insert_eq. by eapply lookup_lt_Some.
    + rewrite Hl in H0. by injection H0 as <-.
  - exists r0. split; [|apply same_identity_refl].
    by rewrite list_lookup_insert_ne.
Qed.

(** A method call on a Run touches neither the node nor the identity of any
    Run. *)
Lemma with_run_effect {A} (l : loc) (m : M nodeRun.St A) s x s' :
  keeps_identity m →
  with_run l m s = (x, s') →
  nd s' = nd s ∧ heap_le (heap s) (heap s').
Proof.
  intros Hm. unfold with_run.
  destruct (heap s !! l) as [r|] eqn:Hl.
  - destruct (m (r, wd s)) as [y [r' w']] eqn:E. intros [= _ <-]. cbn.
    split; [done|]. eapply heap_le_insert; [done | by eapply Hm].
  - intros [= _ <-]. split; [done | apply heap_le_refl].
Qed.

Lemma effect_same (s s' : system) :
  heap_le (heap s) (heap s') →
  node.Stdout (nd s') = node.Stdout (nd s) →
  node.Stderr (nd s') = node.Stderr (nd s) →
  node.Runs (nd s') = node.Runs (nd s) →
  node.Active (nd s') = node.Active (nd s) ∨ node.Active (nd s') = None →
  effect s s'.
Proof. intros. split; [done|]. split; [done|]. split; [done|]. by left. Qed.

Lemma effect_refl (s : system) : effect s s.
Proof. apply effect_same; auto. apply heap_le_refl. Qed.

(** Unfolds the statements of a node method. *)
Ltac sred :=
  repeat (progress
    (unfold mbind, M_bind, mret, M_ret, this, assign_node, sysW, new, take,
       make_chan, modify, get, throw, go, emit;
     cbn)).

Lemma node_start_effect s x s' : node_start s = (x, s') → effect s s'.
Proof.
  unfold node_start. sred.
  destruct (node.Active (nd s)) as [la|] eqn:Ha.
  { intros [= _ <-]. apply effect_refl. }
  destruct ((λ a, replaceVars a (node.Env (nd s))) <$> node.Args (nd s))
    as [|name arg] eqn:Hargs.
  { intros [= _ <-]. apply effect_refl. }
  sred.
  match goal with
  | |- context [with_run ?l ?m ?s0] =>
      destruct (with_run l m s0) as [y s1] eqn:Hrun
  end.
  apply with_run_effect in Hrun as [Hnd Hheap]; [|apply keeps_nodeRun_start].
  cbn in Hnd, Hheap.
  destruct (Hheap (length (heap s)) _ (list_lookup_middle _ [] _ _ eq_refl))
    as (r' & Hr' & Hid & Hout & Herr).
  assert (effect s s1) as Heff.
  { split; [eapply heap_le_trans; [apply heap_le_app | exact Hheap]|].
    rewrite Hnd. cbn. split; [done|]. split; [done|]. right.
    exists (length (heap s)), r'.
    split; [by apply lookup_ge_None|]. split; [exact Hr'|].
    split; [by rewrite Hid|]. split; [by rewrite Hout|].
    split; [by rewrite Herr|]. done. }
  destruct y as [[]|e]; intros [= _ <-]; exact Heff.
Qed.

Lemma node_stop_effect s x s' : node_stop s = (x, s') → effect s s'.
Proof.
  unfold node_stop. sred.
  destruct (node.Active (nd s)) as [la|] eqn:Ha.
  - destruct (with_run la nodeRun_stop s) as [y s1] eqn:Hrun.
    apply with_run_effect in Hrun as [Hnd Hheap]; [|apply keeps_nodeRun_stop].
    destruct y as [[]|e]; intros [= _ <-]; cbn.
    + apply effect_same; cbn; rewrite ?Hnd; auto.
    + apply effect_same; cbn; rewrite ?Hnd; auto.
  - intros [= _ <-]. apply effect_refl.
Qed.

Lemma node_pause_effect s x s' : node_pause s = (x, s') → effect s s'.
Proof.
  unfold node_pause. sred.
  destruct (node.Active (nd s)) as [la|] eqn:Ha.
  - intros [Hnd Hheap]%with_run_effect; [|apply keeps_nodeRun_pause].
    apply effect_same; rewrite ?Hnd; auto.
  - intros [= _ <-]. apply effect_refl.
Qed.

Lemma node_resume_effect s x s' : node_resume s = (x, s') → effect s s'.
Proof.
  unfold node_resume. sred.
  destruct (node.Active (nd s)) as [la|] eqn:Ha.
  - intros [Hnd Hheap]%with_run_effect; [|apply keeps_nodeRun_resume].
    apply effect_same; rewrite ?Hnd; auto.
  - intros [= _ <-]. apply effect_refl.
Qed.

Lemma perform_effect a s x s' : perform a s = Some (x, s') → effect s s'.
Proof.
  destruct a as [| | | |b|r c|c|]; cbn.
  - intros [= H]. by eapply node_start_effect.
  - intros [= H]. by eapply node_stop_effect.
  - intros [= H]. by eapply node_pause_effect.
  - intros [= H]. by eapply node_resume_effect.
  - intros [= _ <-]. apply effect_same; cbn; auto. apply heap_le_refl.
  - destruct (decide (Waiter r c ∈ goroutines (wd s))); [|done].
    sred. intros [= H].
    apply with_run_effect in H as [Hnd Hheap]; [|apply keeps_nodeRun_waiter].
    apply effect_same; rewrite ?Hnd; auto.
  - destruct (decide (Resumed c ∈ goroutines (wd s))); [|done].
    unfold node_completion. sred.
    destruct (node.Service (nd s)); sred; intros [= _ <-];
      apply effect_same; cbn; auto; apply heap_le_refl.
  - destruct (decide (Restart ∈ goroutines (wd s))); [|done].
    sred. intros [= H]. apply node_start_effect in H.
    destruct H as (Hh & Ho & He & H). split; [exact Hh|].
    split; [exact Ho|]. split; [exact He|]. exact H.
Qed.

(** *** [node.start] *)

Lemma node_start_active (s : system) :
  is_Some (node.Active (nd s)) → node_start s = (Ok tt, s).
Proof. intros [l Hl]. unfold node_start. sred. by rewrite Hl. Qed.

(** [node.start] on an inactive node, statement by statement: the Run is
    allocated, made active and appended, a channel is made, the Run is
    started, and the completion handler is started if that call returned. *)
Lemma node_start_inactive (s : system) :
  node.Active (nd s) = None →
  node.Args (nd s) ≠ [] →
  node_start s =
    let l := length (heap s) in
    let c := chans (wd s) in
    let n' := node.set_Runs (node.Runs (nd s) ++ [l])
                (node.set_Active (Some l) (nd s)) in
    let '(y, (r', w')) :=
      nodeRun_start l c (next_run (nd s), set_chans (S c) (wd s)) in
    match y with
    | Ok _ =>
        (Ok tt, {| nd := n'; heap := heap s ++ [r'];
                   wd := set_goroutines (goroutines w' ++ [Handler c]) w' |})
    | Abort e => (Abort e, {| nd := n'; heap := heap s ++ [r']; wd := w' |})
    end.
Proof.
  intros Ha Hargs. unfold node_start. sred. rewrite Ha.
  unfold next_run.
  destruct ((λ a, replaceVars a (node.Env (nd s))) <$> node.Args (nd s))
    as [|name arg] eqn:E.
  { by apply fmap_nil_inv in E. }
  sred. unfold with_run. cbn.
  rewrite (list_lookup_middle (heap s) [] _ _ eq_refl).
  match goal with
  | |- context [nodeRun_start ?l ?c ?x] =>
      destruct (nodeRun_start l c x) as [y [r' w']]
  end.
  rewrite insert_app_r_alt by lia. rewrite Nat.sub_diag. cbn.
  by destruct y as [[]|e].
Qed.

(** C4.  [start] on a node whose active Run is set returns at once: the
    node, its Runs, the goroutines and the world stay as they are, so it
    creates no Run and queues nothing.  Hence, on an inactive node with a
    command, the second of two successive [start] calls does nothing, and
    the two calls together create exactly one Run. *)
Theorem redundant_start_is_noop (s : system) :
  (is_Some (node.Active (nd s)) → node_start s = (Ok tt, s))
  ∧ (node.Active (nd s) = None →
     node.Args (nd s) ≠ [] →
     ∃ x s1,
       node_start s = (x, s1)
       ∧ node_start s1 = (Ok tt, s1)
       ∧ node.Runs (nd s1) = node.Runs (nd s) ++ [length (heap s)]
       ∧ length (heap s1) = S (length (heap s))).
Proof.
  split; [apply node_start_active|].
  intros Ha Hargs. rewrite (node_start_inactive s Ha Hargs). cbn zeta.
  destruct (nodeRun_start _ _ _) as [y [r' w']].
  destruct y as [[]|e]; eexists _, _; (split; [reflexivity|]);
    (split; [apply node_start_active; by eexists|]);
    cbn; rewrite length_app; cbn; split; [done|lia|done|lia].
Qed.

Lemma redundant_start_is_noop_witness :
  let s := Sample.oneshot_node.2 in
  node.Active (nd s) = None
  ∧ node.Args (nd s) ≠ []
  ∧ ∃ x s1,
      node_start s = (x, s1)
      ∧ node_start s1 = (Ok tt, s1)
      ∧ node.Runs (nd s1) = node.Runs (nd s) ++ [length (heap s)].
Proof.
  intros s.
  assert (node.Active (nd s) = None) as Ha by (vm_compute; reflexivity).
  assert (node.Args (nd s) ≠ []) as Hargs by (vm_compute; discriminate).
  split; [exact Ha|]. split; [exact Hargs|].
  destruct (redundant_start_is_noop s) as [_ H].
  destruct (H Ha Hargs) as (x & s1 & H1 & H2 & H3 & _).
  exists x, s1. split; [exact H1|]. split; [exact H2 | exact H3].
Defined.

(** *** The run history *)

Lemma history_ok_effect (s s' : system) :
  history_ok s → effect s s' → history_ok s'.
Proof.
  intros [Hruns Hact] (Hheap & Ho & He & Hcase).
  destruct Hcase as [[HR HA] | (l & r & Hfresh & Hl & Hid & Hout & Herr & HR & HA)].
  - split.
    + intros i l Hi. rewrite HR in Hi.
      destruct (Hruns i l Hi) as (r & Hr & Hid & Hso & Hse).
      destruct (Hheap l r Hr) as (r' & Hr' & Hid' & Hso' & Hse').
      exists r'. rewrite Ho, He. repeat split; congruence.
    + intros l Hl. rewrite HR. destruct HA as [HA | HA]; [|congruence].
      apply Hact. congruence.
  - split.
    + intros i l0 Hi. rewrite HR in Hi. rewrite Ho, He.
      apply lookup_app_Some in Hi as [Hi | [Hlen Hi]].
      * destruct (Hruns i l0 Hi) as (r0 & Hr0 & Hid0 & Hso & Hse).
        destruct (Hheap l0 r0 Hr0) as (r' & Hr' & Hid' & Hso' & Hse').
        exists r'. repeat split; congruence.
      * apply list_lookup_singleton_Some in Hi as [Hi <-].
        assert (i = length (node.Runs (nd s))) as -> by lia.
        exists r. done.
    + intros l0 Hl0. rewrite HR. rewrite last_snoc. congruence.
Qed.

Lemma history_ok_constructed name args env service stdout stderr attributes
    locality h w :
  history_ok (constructed name args env service stdout stderr attributes locality h w).
Proof. split; [intros i l Hi | intros l Hl]; cbn in *; done. Qed.

Lemma newNode_unfold name args env service stdout stderr attributes locality h w :
  newNode name args env service stdout stderr attributes locality h w
  = if service
    then node_start (constructed name args env true stdout stderr attributes locality h w)
    else (Ok tt, constructed name args env false stdout stderr attributes locality h w).
Proof. unfold newNode, constructed. cbn. by destruct service. Qed.



Lemma reachable_after (l : list action) (s0 s : system) :
  reachable s0 s → reachable s0 (Sample.after l s).
Proof.
  revert s. induction l as [|a l IH]; intros s Hs; [done|].
  unfold Sample.after. cbn. apply IH.
  destruct (perform a s) as [[x s']|] eqn:E; [|done].
  eapply reachable_step; [exact Hs|]. by econstructor.
Qed.



(** *** [Status] *)




(** [Status] follows [pause] and [resume] at once. *)
Example node_Status_follows_pause_resume :
  node_Status Sample.cluster_node.2 = "Running"
  ∧ node_Status (Sample.after [Pause] Sample.cluster_node.2) = "Paused"
  ∧ node_Status (Sample.after [Pause; Resume] Sample.cluster_node.2) = "Running"
  ∧ node_Status (Sample.after [Stop] Sample.cluster_node.2) = "Stopped".
Proof. repeat apply conj; vm_compute; reflexivity. Qed.

(** *** Output paths *)







(** An environment that defines [RUN] itself takes the variable away from
    [node.start]: all Runs share one path. *)
Example run_paths_collide_when_env_defines_RUN :
  let s := Sample.after [Start; Stop; Start]
             (newNode "1" ["cockroach"] (Some {[ "RUN" := "x" ]}) false
                "logs/${RUN}.stdout" "logs/${RUN}.stderr"
                EmptyString EmptyString [] Sample.boot).2 in
  nodeRun.Stdout <$> heap s !! 0%nat = Some "logs/x.stdout"
  ∧ nodeRun.Stdout <$> heap s !! 1%nat = Some "logs/x.stdout".
Proof. intros s. repeat apply conj; vm_compute; reflexivity. Qed.

(** *** [newNode] *)

(** When every file can be created and the command can be spawned, [start]
    returns with the process handle set, whether or not sinks are asked
    for. *)
Lemma nodeRun_start_spawns this c r w cmd pid :
  nodeRun.Cmd r = Some cmd →
  exec.Process cmd = None →
  (∀ p, os_Create (host w) p = None) →
  os_StartProcess (host w) (starts w) (exec.Args cmd) = inl pid →
  ∃ r1 w1,
    nodeRun_start this c (r, w) = (Ok tt, (r1, w1))
    ∧ handle r1 = Some {| os.Pid := pid |}
    ∧ EvStart (exec.Args cmd) pid ∈ trace w1
    ∧ Waiter this c ∈ goroutines w1.
Proof.
  intros Hc Hp Hfs Hs. unfold nodeRun_start. mred.
  destruct (Nat.ltb 0 (Str.len (nodeRun.Stdout r))); mred;
    rewrite ?Hfs; mred; rewrite Hc; mred.
  all: destruct (Nat.ltb 0 (Str.len (nodeRun.Stderr r))); mred;
    rewrite ?Hfs; mred; rewrite Hp; mred; rewrite Hs; mred.
  all: eexists _, _; split; [reflexivity|]; cbn.
  all: split; [done|]; split.
  all: rewrite ?elem_of_app, ?list_elem_of_singleton; auto.
Qed.

(** C10.  [newNode] with the service flag unset returns a node without Runs
    and without an active Run, and does nothing else.  With the flag set it
    is [start] called on that node: for a node with a command, Run 0 is
    allocated, made active and appended to the history, whether or not the
    call returns; and when every sink can be created and the command can be
    spawned, [newNode] returns with the process of Run 0 running. *)
Theorem newNode_starts_service_node
    (name : string) (args : list string) (env : option (gmap string string))
    (stdout stderr attributes locality : string)
    (h : list nodeRun.t) (w : world) :
  let fresh b := constructed name args env b stdout stderr attributes locality h w in
  let built b := newNode name args env b stdout stderr attributes locality h w in
  (built false = (Ok tt, fresh false)
   ∧ node.Runs (nd (fresh false)) = []
   ∧ node.Active (nd (fresh false)) = None
   ∧ heap (fresh false) = h
   ∧ wd (fresh false) = w)
  ∧ built true = node_start (fresh true)
  ∧ (args ≠ [] →
     ∃ r0, node.Runs (nd (built true).2) = [length h]
           ∧ node.Active (nd (built true).2) = Some (length h)
           ∧ heap (built true).2 = h ++ [r0]
           ∧ nodeRun.ID r0 = 0)
  ∧ (args ≠ [] →
     (∀ p, os_Create (host w) p = None) →
     (∀ argv, ∃ pid, os_StartProcess (host w) (starts w) argv = inl pid) →
     ∃ s r0 p argv,
       built true = (Ok tt, s)
       ∧ heap s = h ++ [r0]
       ∧ handle r0 = Some p
       ∧ EvStart argv (os.Pid p) ∈ trace (wd s)).
Proof.
  intros fresh built. subst fresh built. cbn beta.
  rewrite !newNode_unfold. cbn match.
  set (s0 := constructed name args env true stdout stderr attributes locality h w).
  split; [done|]. split; [done|].
  assert (node.Active (nd s0) = None) as Ha by done.
  split.
  - intros Hargs.
    rewrite (node_start_inactive s0 Ha Hargs). cbn zeta.
    destruct (nodeRun_start _ _ _) as [y [r' w']] eqn:E.
    apply keeps_nodeRun_start in E as (Hid & _).
    exists r'. destruct y as [[]|e]; cbn; by rewrite Hid.
  - intros Hargs Hfs Hspawn.
    rewrite (node_start_inactive s0 Ha Hargs). cbn zeta.
    destruct (Hspawn (exec.Args (exec.Command
                (hd EmptyString (nodeRun.Args (next_run (nd s0))))
                (tl (nodeRun.Args (next_run (nd s0))))))) as [pid Hpid].
    destruct (nodeRun_start_spawns (length (heap s0)) (chans (wd s0))
                (next_run (nd s0)) (set_chans (S (chans (wd s0))) (wd s0))
                _ pid eq_refl eq_refl Hfs Hpid)
      as (r1 & w1 & -> & Hh & Hev & _).
    eexists _, r1, _, _. split; [reflexivity|]. cbn.
    split; [done|]. split; [exact Hh|exact Hev].
Qed.

Lemma newNode_starts_service_node_witness :
  let args := ["cockroach"; "start"; "--insecure"] in
  let w := Sample.open_boot in
  args ≠ []
  ∧ (∀ p, os_Create (host w) p = None)
  ∧ (∀ argv, ∃ pid, os_StartProcess (host w) (starts w) argv = inl pid)
  ∧ ∃ s r0 p,
      newNode "1" args None true "out-${RUN}.log" "err-${RUN}.log"
        EmptyString EmptyString [] w = (Ok tt, s)
      ∧ heap s = [r0]
      ∧ handle r0 = Some p.
Proof.
  intros args w.
  assert (args ≠ []) as Hargs by discriminate.
  assert (∀ p, os_Create (host w) p = None) as Hfs by reflexivity.
  assert (∀ argv, ∃ pid, os_StartProcess (host w) (starts w) argv = inl pid)
    as Hspawn by (intros argv; eexists; reflexivity).
  split; [exact Hargs|]. split; [exact Hfs|]. split; [exact Hspawn|].
  destruct (newNode_starts_service_node "1" args None "out-${RUN}.log"
              "err-${RUN}.log" EmptyString EmptyString [] w)
    as (_ & _ & _ & H).
  destruct (H Hargs Hfs Hspawn) as (s & r0 & p & argv & Hs & Hh & Hp & _).
  exists s, r0, p. split; [exact Hs|]. split; [exact Hh | exact Hp].
Defined.

(** * Further properties *)

(** ** Expansion *)

#[local] Arguments String.append !_ _ /.

Lemma alnum_not_brace (c : ascii) : isAlphaNum c = true → Ascii.eqb c "{" = false.
Proof.
  destruct c as [[] [] [] [] [] [] [] []]; vm_compute; congruence.
Qed.

Lemma scanAlphaNum_name (name post : string) :
  all_bytes isAlphaNum name = true →
  starts_alnum post = false →
  scanAlphaNum (name +:+ post) = name.
Proof.
  intros Hn Hp. induction name as [|c name IH]; simpl in *.
  - destruct post as [|d post]; [done|]. simpl in *. by rewrite Hp.
  - apply andb_prop in Hn as [Hc Hn]. rewrite Hc. by rewrite IH.
Qed.

Lemma getShellName_name (name post : string) :
  name ≠ EmptyString →
  all_bytes isAlphaNum name = true →
  starts_special name = false →
  starts_alnum post = false →
  getShellName (name +:+ post) = (name, Str.len name).
Proof.
  intros Hne Hn Hs Hp. destruct name as [|c name]; [done|].
  pose proof (scanAlphaNum_name (String c name) post Hn Hp) as Hscan.
  simpl in Hn, Hs. apply andb_prop in Hn as [Hc Hn].
  unfold getShellName. cbn [String.append].
  rewrite (alnum_not_brace c Hc), Hs.
  change (String c (name +:+ post)) with (String c name +:+ post).
  by rewrite Hscan.
Qed.

(** X1.  A bare reference [$NAME] (a name of letters, digits and
    underscores that does not begin with a digit, followed by no further
    name byte) standing at the first dollar sign of the text is replaced by
    the value of [NAME] when the mapping defines it and is left as it is
    when it does not; the text before it is copied and the text after it is
    expanded in the same way. *)
Theorem replaceVars_bare_reference
    (pre name post : string) (vars : gmap string string) :
  Str.contains "$" pre = false →
  name ≠ EmptyString →
  all_bytes isAlphaNum name = true →
  starts_special name = false →
  starts_alnum post = false →
  replaceVars (pre +:+ "$" +:+ name +:+ post) vars
  = pre +:+ (match vars !! name with
             | Some v => v
             | None => "$" +:+ name
             end) +:+ replaceVars post vars.
Proof.
  intros Hpre Hne Hn Hs Hp. unfold replaceVars.
  rewrite Expand_copy by done. f_equal.
  unfold Expand.
  change ("$" +:+ name +:+ post) with (String "$" (name +:+ post)).
  cbn [Expand_from]. rewrite Ascii.eqb_refl.
  replace (Str.is_empty (name +:+ post)) with false by (by destruct name).
  cbn [andb negb]. rewrite getShellName_name by done.
  replace (Str.is_empty name) with false by (by destruct name).
  f_equal. apply Expand_from_skip.
Qed.

Lemma replaceVars_bare_reference_witness :
  let vars : gmap string string := {[ "HOME" := "/home/demo" ]} in
  Str.contains "$" "cd " = false
  ∧ all_bytes isAlphaNum "HOME" = true
  ∧ starts_special "HOME" = false
  ∧ starts_alnum "/logs" = false
  ∧ replaceVars ("cd " +:+ "$" +:+ "HOME" +:+ "/logs") vars
    = "cd " +:+ "/home/demo" +:+ replaceVars "/logs" vars.
Proof.
  intros vars.
  split; [reflexivity|]. split; [reflexivity|]. split; [reflexivity|].
  split; [reflexivity|].
  rewrite (replaceVars_bare_reference "cd " "HOME" "/logs" vars);
    [ | reflexivity | discriminate | reflexivity | reflexivity | reflexivity ].
  unfold vars. by rewrite lookup_singleton_eq.
Defined.

Lemma Expand_lone_dollar (mapping : string → string) :
  Expand "$" mapping = "$".
Proof. reflexivity. Qed.

(** X2.  Text without a dollar sign comes out of [replaceVars] as it went
    in, whatever the mapping defines, and so does such text followed by one
    dollar sign at its very end. *)
Theorem replaceVars_keeps_plain_text (text : string) (vars : gmap string string) :
  Str.contains "$" text = false →
  replaceVars text vars = text
  ∧ replaceVars (text +:+ "$") vars = text +:+ "$".
Proof.
  intros H. unfold replaceVars. split.
  - by apply Expand_plain.
  - rewrite Expand_copy by done. by rewrite Expand_lone_dollar.
Qed.

Lemma replaceVars_keeps_plain_text_witness :
  Str.contains "$" "--cache=256MiB" = false
  ∧ replaceVars "--cache=256MiB" {[ "cache" := "1" ]} = "--cache=256MiB".
Proof.
  split; [reflexivity|].
  by apply (replaceVars_keeps_plain_text "--cache=256MiB").
Defined.

#[local] Arguments String.append : simpl never.

(** ** [addDefaultVars] *)

Lemma set_default_defined (k v : string) (vars : gmap string string) :
  is_Some (vars !! k) → set_default k v vars = vars.
Proof. intros [x Hx]. unfold set_default. by rewrite Hx. Qed.

Lemma set_default_lookup (k v : string) (vars : gmap string string) :
  set_default k v vars !! k = Some (default v (vars !! k)).
Proof.
  unfold set_default. destruct (vars !! k) eqn:E; simpl.
  - done.
  - by rewrite lookup_insert_eq.
Qed.

Lemma set_default_keeps (k v k' v' : string) (vars : gmap string string) :
  vars !! k' = Some v' → set_default k v vars !! k' = Some v'.
Proof.
  intros H. destruct (decide (k = k')) as [->|Hne].
  - by rewrite set_default_lookup, H.
  - by rewrite set_default_other.
Qed.

(** X3.  [addDefaultVars] never replaces a value the caller gave; it leaves
    every name other than [USER], [UID], [GID], [HOME] and [PATH] as it
    was; afterwards [PATH] is always defined, by the caller's value or else
    by the [PATH] of the supervisor; and when the current user cannot be
    determined, [PATH] is the only name it may add. *)
Theorem addDefaultVars_only_fills_gaps (o : OS) (vars : gmap string string) :
  (∀ k v, vars !! k = Some v → addDefaultVars o vars !! k = Some v)
  ∧ (∀ k, k ∉ ["USER"; "UID"; "GID"; "HOME"; "PATH"] →
          addDefaultVars o vars !! k = vars !! k)
  ∧ addDefaultVars o vars !! "PATH"
    = Some (default (os_Getenv o "PATH") (vars !! "PATH"))
  ∧ (user_Current o = None →
     ∀ k, k ≠ "PATH" → addDefaultVars o vars !! k = vars !! k).
Proof.
  unfold addDefaultVars. repeat apply conj.
  - intros k v H. destruct (user_Current o); by repeat apply set_default_keeps.
  - intros k Hk.
    rewrite !not_elem_of_cons in Hk. destruct Hk as (?&?&?&?&?&_).
    destruct (user_Current o); by rewrite !set_default_other.
  - rewrite set_default_lookup.
    destruct (user_Current o); by rewrite ?set_default_other.
  - intros -> k Hk. by rewrite set_default_other.
Qed.

Lemma addDefaultVars_only_fills_gaps_witness :
  let vars : gmap string string := {[ "HOME" := "/srv" ]} in
  vars !! "HOME" = Some "/srv"
  ∧ addDefaultVars Sample.machine vars !! "HOME" = Some "/srv".
Proof.
  intros vars.
  assert (vars !! "HOME" = Some "/srv") as H by apply lookup_singleton_eq.
  split; [exact H|].
  destruct (addDefaultVars_only_fills_gaps Sample.machine vars) as [Hk _].
  exact (Hk "HOME" "/srv" H).
Defined.

(** X4.  [addDefaultVars] is idempotent: applied to its own result it
    changes nothing. *)
Theorem addDefaultVars_idempotent (o : OS) (vars : gmap string string) :
  addDefaultVars o (addDefaultVars o vars) = addDefaultVars o vars.
Proof.
  unfold addDefaultVars. destruct (user_Current o) as [u|].
  - set (M := set_default "PATH" (os_Getenv o "PATH")
                (set_default "HOME" (user.HomeDir u)
                   (set_default "GID" (user.Gid u)
                      (set_default "UID" (user.Uid u)
                         (set_default "USER" (user.Username u) vars))))).
    assert (∀ k, k ∈ ["USER"; "UID"; "GID"; "HOME"; "PATH"] → is_Some (M !! k))
      as Hdef.
    { intros k Hk. unfold M.
      repeat (apply elem_of_cons in Hk as [-> | Hk];
        [ repeat first
            [ rewrite set_default_lookup; by eexists
            | rewrite set_default_other by discriminate ] | ]).
      by apply elem_of_nil in Hk. }
    rewrite (set_default_defined "USER" _ M) by (apply Hdef; set_solver).
    rewrite (set_default_defined "UID" _ M) by (apply Hdef; set_solver).
    rewrite (set_default_defined "GID" _ M) by (apply Hdef; set_solver).
    rewrite (set_default_defined "HOME" _ M) by (apply Hdef; set_solver).
    apply set_default_defined. apply Hdef. set_solver.
  - apply set_default_defined. rewrite set_default_lookup. by eexists.
Qed.

(** ** Control of a node *)

Lemma with_run_eq {A} (l : loc) (m : M nodeRun.St A) (s : system) (r : nodeRun.t) :
  heap s !! l = Some r →
  with_run l m s
  = let '(x, (r', w)) := m (r, wd s) in
    (x, {| nd := nd s; heap := <[l := r']> (heap s); wd := w |}).
Proof. intros H. unfold with_run. by rewrite H. Qed.

Lemma handle_set_Paused (b : bool) (r : nodeRun.t) :
  handle (nodeRun.set_Paused b r) = handle r.
Proof. reflexivity. Qed.

(** The status of a node whose active Run has a handle with a positive pid. *)
Lemma node_Status_live (s : system) (l : loc) (r : nodeRun.t) (p : os.Process) :
  node.Active (nd s) = Some l → heap s !! l = Some r →
  handle r = Some p → 0 < os.Pid p →
  node_Status s = if nodeRun.Paused r then "Paused" else "Running".
Proof.
  intros Ha Hr (c & Hc & Hp)%handle_Some Hpos. unfold node_Status.
  rewrite Ha, Hr, Hc, Hp.
  by destruct (Z.ltb_spec 0 (os.Pid p)); [|lia].
Qed.

(** X5.  On a node whose active Run has a live process, [pause] sends SIGSTOP
    and the status becomes [Paused]; [resume] then sends SIGCONT and the
    status is [Running] again.  The two calls return, leave the node, its
    history and the goroutines as they were and create no Run; only the
    paused flag of the active Run is written. *)
Theorem pause_then_resume (s : system) (r : nodeRun.t) (p : os.Process) :
  active_run s r → handle r = Some p → 0 < os.Pid p →
  ∃ s1 s2,
    node_pause s = (Ok tt, s1)
    ∧ node_Status s1 = "Paused"
    ∧ node_resume s1 = (Ok tt, s2)
    ∧ node_Status s2 = "Running"
    ∧ nd s2 = nd s
    ∧ length (heap s2) = length (heap s)
    ∧ active_run s2 (nodeRun.set_Paused false r)
    ∧ trace (wd s2)
      = trace (wd s) ++ [EvSignal (os.Pid p) SIGSTOP; EvSignal (os.Pid p) SIGCONT]
    ∧ goroutines (wd s2) = goroutines (wd s).
Proof.
  intros (l & Ha & Hr) Hh Hpos.
  assert (l < length (heap s))%nat as Hlt by (by eapply lookup_lt_Some).
  destruct (nodeRun_control_handle r (wd s) p Hh) as (_ & Hpause & _).
  set (s1 := {| nd := nd s;
                heap := <[l := nodeRun.set_Paused true r]> (heap s);
                wd := set_trace (trace (wd s) ++ [EvSignal (os.Pid p) SIGSTOP]) (wd s) |}).
  assert (node_pause s = (Ok tt, s1)) as H1.
  { unfold node_pause. sred. rewrite Ha.
    rewrite (with_run_eq l nodeRun_pause s r Hr). by rewrite Hpause. }
  assert (heap s1 !! l = Some (nodeRun.set_Paused true r)) as Hr1
    by (by apply list_lookup_insert_eq).
  destruct (nodeRun_control_handle (nodeRun.set_Paused true r) (wd s1) p Hh)
    as (_ & _ & Hresume).
  set (s2 := {| nd := nd s1;
                heap := <[l := nodeRun.set_Paused false r]> (heap s1);
                wd := set_trace (trace (wd s1) ++ [EvSignal (os.Pid p) SIGCONT]) (wd s1) |}).
  assert (node_resume s1 = (Ok tt, s2)) as H2.
  { unfold node_resume. sred. rewrite Ha.
    rewrite (with_run_eq l nodeRun_resume s1 _ Hr1). by rewrite Hresume. }
  assert (heap s2 !! l = Some (nodeRun.set_Paused false r)) as Hr2.
  { apply list_lookup_insert_eq. cbn. by rewrite length_insert. }
  exists s1, s2. split; [exact H1|].
  split; [by rewrite (node_Status_live s1 l _ p Ha Hr1 Hh Hpos)|].
  split; [exact H2|].
  split; [by rewrite (node_Status_live s2 l _ p Ha Hr2 Hh Hpos)|].
  split; [done|]. split; [cbn; by rewrite !length_insert|].
  split; [by exists l|]. split; [cbn; by rewrite <- app_assoc | done].
Qed.

Lemma pause_then_resume_witness :
  let s := Sample.oneshot_started in
  ∃ r p, active_run s r ∧ handle r = Some p ∧ 0 < os.Pid p
         ∧ ∃ s1 s2, node_pause s = (Ok tt, s1) ∧ node_Status s1 = "Paused"
                    ∧ node_resume s1 = (Ok tt, s2) ∧ node_Status s2 = "Running".
Proof.
  intros s.
  assert (node.Active (nd s) = Some 0%nat) as Ha by (vm_compute; reflexivity).
  assert ((λ r, os.Pid <$> handle r) <$> heap s !! 0%nat = Some (Some 1000)) as Hh
    by (vm_compute; reflexivity).
  destruct (heap s !! 0%nat) as [r|] eqn:Hr; [|discriminate].
  injection Hh as Hh. destruct (handle r) as [p|] eqn:Hp; [|discriminate].
  injection Hh as Hh.
  assert (active_run s r) as Hact by (exists 0%nat; split; [exact Ha | exact Hr]).
  assert (0 < os.Pid p) as Hpos by (rewrite Hh; reflexivity).
  exists r, p. split; [exact Hact|]. split; [exact Hp|]. split; [exact Hpos|].
  destruct (pause_then_resume s r p Hact Hp Hpos)
    as (s1 & s2 & H1 & H2 & H3 & H4 & _).
  exists s1, s2. split; [exact H1|]. split; [exact H2|].
  split; [exact H3 | exact H4].
Defined.

Lemma nodeRun_stop_result (r : nodeRun.t) (w : world) :
  nodeRun_stop (r, w)
  = (Ok tt,
     match handle r with
     | Some p => (nodeRun.set_Paused false r,
                  set_trace (trace w ++ [EvSignal (os.Pid p) SIGKILL]) w)
     | None => (r, w)
     end).
Proof.
  destruct (handle r) as [p|] eqn:Hh.
  - by destruct (nodeRun_control_handle r w p Hh) as (-> & _).
  - by destruct (nodeRun_control_no_handle r w Hh) as (-> & _).
Qed.

(** X6.  [stop] on a node with an active Run returns with the active Run
    cleared, so that the status is [Stopped], and with the history as it
    was.  It sends SIGKILL to the process of the Run when the Run has a
    handle, and nothing otherwise; it starts and removes no goroutine, so a
    waiter and a completion handler of the Run stay in place.  A second
    [stop] does nothing. *)
Theorem stop_kills_and_clears_active (s : system) (r : nodeRun.t) :
  active_run s r →
  ∃ s1,
    node_stop s = (Ok tt, s1)
    ∧ node.Active (nd s1) = None
    ∧ node_Status s1 = "Stopped"
    ∧ node.Runs (nd s1) = node.Runs (nd s)
    ∧ node.Service (nd s1) = node.Service (nd s)
    ∧ length (heap s1) = length (heap s)
    ∧ trace (wd s1)
      = trace (wd s) ++ match handle r with
                        | Some p => [EvSignal (os.Pid p) SIGKILL]
                        | None => []
                        end
    ∧ goroutines (wd s1) = goroutines (wd s)
    ∧ node_stop s1 = (Ok tt, s1).
Proof.
  intros (l & Ha & Hr).
  unfold node_stop at 1. sred. rewrite Ha.
  rewrite (with_run_eq l nodeRun_stop s r Hr), nodeRun_stop_result.
  destruct (handle r) as [p|]; cbn; eexists; (split; [reflexivity|]); cbn;
    rewrite ?length_insert, ?app_nil_r;
    repeat apply conj; try done; by apply node_stop_inactive.
Qed.

Lemma stop_kills_and_clears_active_witness :
  let s := Sample.oneshot_started in
  ∃ r, active_run s r
       ∧ ∃ s1, node_stop s = (Ok tt, s1) ∧ node_Status s1 = "Stopped".
Proof.
  intros s.
  assert (node.Active (nd s) = Some 0%nat) as Ha by (vm_compute; reflexivity).
  assert (nodeRun.ID <$> heap s !! 0%nat = Some 0) as Hh
    by (vm_compute; reflexivity).
  destruct (heap s !! 0%nat) as [r|] eqn:Hr; [|discriminate].
  assert (active_run s r) as Hact by (exists 0%nat; split; [exact Ha | exact Hr]).
  exists r. split; [exact Hact|].
  destruct (stop_kills_and_clears_active s r Hact) as (s1 & H1 & _ & H2 & _).
  exists s1. split; [exact H1 | exact H2].
Defined.

(** *** Control calls in the states of a node *)

Lemma history_ok_active (s : system) (l : loc) :
  history_ok s → node.Active (nd s) = Some l → is_Some (heap s !! l).
Proof.
  intros [Hruns Hact] Ha. apply Hact in Ha.
  apply last_Some in Ha as [l' Hl'].
  destruct (Hruns (length l') l) as (r & Hr & _).
  { rewrite Hl'. by apply list_lookup_middle. }
  by exists r.
Qed.




(** *** Completion and restart *)

(** X8.  When the completion handler of a node takes its turn, it clears the
    active pointer, whichever Run is active at that moment, and leaves the
    history and the Runs alone; it schedules a restart exactly when the
    service flag is set at that moment, so clearing the flag before [stop]
    (as [stopNode] does) prevents the restart, and [stop] alone does not. *)
Theorem completion_clears_active_and_restarts_services (s : system) (c : chan) :
  Resumed c ∈ goroutines (wd s) →
  ∃ s1,
    perform (Receive c) s = Some (Ok tt, s1)
    ∧ node.Active (nd s1) = None
    ∧ node.Runs (nd s1) = node.Runs (nd s)
    ∧ node.Service (nd s1) = node.Service (nd s)
    ∧ heap s1 = heap s
    ∧ trace (wd s1) = trace (wd s) ++ [EvRecv c]
    ∧ goroutines (wd s1)
      = remove_first (Resumed c) (goroutines (wd s))
        ++ (if node.Service (nd s) then [Restart] else []).
Proof.
  intros Hin. cbn. destruct (decide (Resumed c ∈ goroutines (wd s))); [|done].
  unfold node_completion. sred.
  destruct (node.Service (nd s)) eqn:Hs; sred; eexists; (split; [reflexivity|]);
    cbn; rewrite ?app_nil_r; by repeat apply conj.
Qed.

Lemma completion_clears_active_and_restarts_services_witness :
  let s := Sample.exited_state in
  Resumed 0%nat ∈ goroutines (wd s)
  ∧ ∃ s1, perform (Receive 0%nat) s = Some (Ok tt, s1)
          ∧ node.Active (nd s1) = None.
Proof.
  intros s.
  assert (Resumed 0%nat ∈ goroutines (wd s)) as H.
  { replace (goroutines (wd s)) with [Resumed 0%nat] by (vm_compute; reflexivity).
    apply list_elem_of_singleton. reflexivity. }
  split; [exact H|].
  destruct (completion_clears_active_and_restarts_services s 0%nat H)
    as (s1 & H1 & H2 & _).
  exists s1. split; [exact H1 | exact H2].
Defined.

(** X9.  When a scheduled restart takes its turn on a node that is still
    inactive and has a command, it allocates one Run, numbered by the length
    of the history, appends it and makes it active.  The service flag is
    not read again: a restart that was scheduled before the flag was cleared
    still starts a Run.  On a node that was started in the meantime the
    restart does nothing. *)
Theorem scheduled_restart_starts_next_run (s : system) :
  Restart ∈ goroutines (wd s) →
  (node.Active (nd s) = None →
   node.Args (nd s) ≠ [] →
   ∃ x s1 r,
     perform Wake s = Some (x, s1)
     ∧ node.Runs (nd s1) = node.Runs (nd s) ++ [length (heap s)]
     ∧ node.Active (nd s1) = Some (length (heap s))
     ∧ heap s1 = heap s ++ [r]
     ∧ nodeRun.ID r = Z.of_nat (length (node.Runs (nd s))))
  ∧ (is_Some (node.Active (nd s)) →
     ∃ s1,
       perform Wake s = Some (Ok tt, s1)
       ∧ nd s1 = nd s ∧ heap s1 = heap s
       ∧ goroutines (wd s1) = remove_first Restart (goroutines (wd s))).
Proof.
  intros Hin. cbn. destruct (decide (Restart ∈ goroutines (wd s))) as [_|]; [|done].
  sred. split.
  - intros Ha Hargs.
    match goal with
    | |- context [node_start ?s0] =>
        rewrite (node_start_inactive s0 Ha Hargs); cbn zeta;
        destruct (nodeRun_start (length (heap s0)) (chans (wd s0))
                    (next_run (nd s0), set_chans (S (chans (wd s0))) (wd s0)))
          as [y [r' w']] eqn:E
    end.
    apply keeps_nodeRun_start in E as (Hid & _). cbn in Hid.
    destruct y as [[]|e]; eexists _, _, r'; (split; [reflexivity|]); cbn;
      by repeat apply conj.
  - intros Ha.
    match goal with
    | |- context [node_start ?s0] => rewrite (node_start_active s0 Ha)
    end.
    eexists. split; [reflexivity|]. by cbn.
Qed.

Lemma scheduled_restart_starts_next_run_witness :
  let s := Sample.after [Receive 0%nat; SetService false] Sample.exited_state in
  Restart ∈ goroutines (wd s)
  ∧ node.Active (nd s) = None
  ∧ node.Args (nd s) ≠ []
  ∧ node.Service (nd s) = false
  ∧ ∃ x s1, perform Wake s = Some (x, s1)
            ∧ node.Active (nd s1) = Some (length (heap s)).
Proof.
  intros s.
  assert (Restart ∈ goroutines (wd s)) as H.
  { replace (goroutines (wd s)) with [Restart] by (vm_compute; reflexivity).
    apply list_elem_of_singleton. reflexivity. }
  assert (node.Active (nd s) = None) as Ha by (vm_compute; reflexivity).
  assert (node.Args (nd s) ≠ []) as Hargs by (vm_compute; discriminate).
  split; [exact H|]. split; [exact Ha|]. split; [exact Hargs|].
  split; [vm_compute; reflexivity|].
  destruct (scheduled_restart_starts_next_run s H) as [Hw _].
  destruct (Hw Ha Hargs) as (x & s1 & r & H1 & _ & H2 & _).
  exists x, s1. split; [exact H1 | exact H2].
Defined.

(** *** A command that cannot be spawned *)

Lemma nodeRun_start_blocks this c r w cmd e :
  nodeRun.Cmd r = Some cmd →
  exec.Process cmd = None →
  openable (host w) (nodeRun.Stdout r) →
  openable (host w) (nodeRun.Stderr r) →
  os_StartProcess (host w) (starts w) (exec.Args cmd) = inr e →
  Handler c ∉ goroutines w →
  ∃ r1 w1,
    nodeRun_start this c (r, w) = (Abort (Block c), (r1, w1))
    ∧ nodeRun.Error r1 = Some e
    ∧ handle r1 = None
    ∧ goroutines w1 = goroutines w
    ∧ chans w1 = chans w
    ∧ trace w1 = trace w ++
        [EvCreate (nodeRun.Stdout r); EvCreate (nodeRun.Stderr r); EvLog e;
         EvClose (nodeRun.Stdout r); EvClose (nodeRun.Stderr r); EvSend c].
Proof.
  intros Hc Hp [Ho1 Ho2] [He1 He2] Hs Hnin. unfold nodeRun_start. mred.
  rewrite Ho1. mred. rewrite Ho2. mred. rewrite Hc. mred.
  rewrite He1. mred. rewrite He2. mred. rewrite Hp. mred. rewrite Hs. mred.
  rewrite ?Hp. mred.
  destruct (decide (Handler c ∈ goroutines w)) as [Hin|_]; [done|]. mred.
  eexists _, _. split; [reflexivity|]. cbn.
  split; [done|]. split; [unfold handle; cbn; by rewrite Hp|].
  split; [done|]. split; [done|]. by rewrite <- !app_assoc.
Qed.

Lemma hd_tl_nonempty (l : list string) : l ≠ [] → hd EmptyString l :: tl l = l.
Proof. by destruct l. Qed.

(** X10.  When the command of an inactive node cannot be spawned (and its
    two sinks can be opened), [start] does not return: after recording the
    error and closing the sinks it is parked in the completion send on the
    channel it has just made, on which nobody receives yet, since the
    handler is started only after [nodeRun.start] returns.  The failed Run
    stays the active Run, no waiter and no handler exist, so nothing will
    clear it or restart the node; the status is [Stopped] and another
    [start] does nothing. *)
Theorem failed_launch_blocks_start (s : system) (e : string) :
  node.Active (nd s) = None →
  node.Args (nd s) ≠ [] →
  openable (host (wd s)) (nodeRun.Stdout (next_run (nd s))) →
  openable (host (wd s)) (nodeRun.Stderr (next_run (nd s))) →
  os_StartProcess (host (wd s)) (starts (wd s)) (nodeRun.Args (next_run (nd s)))
  = inr e →
  Handler (chans (wd s)) ∉ goroutines (wd s) →
  ∃ s1 r1,
    node_start s = (Abort (Block (chans (wd s))), s1)
    ∧ node.Active (nd s1) = Some (length (heap s))
    ∧ node.Runs (nd s1) = node.Runs (nd s) ++ [length (heap s)]
    ∧ heap s1 = heap s ++ [r1]
    ∧ nodeRun.Error r1 = Some e
    ∧ handle r1 = None
    ∧ goroutines (wd s1) = goroutines (wd s)
    ∧ sends (chans (wd s)) (trace (wd s1))
      = S (sends (chans (wd s)) (trace (wd s)))
    ∧ node_Status s1 = "Stopped"
    ∧ node_start s1 = (Ok tt, s1).
Proof.
  intros Ha Hargs Ho He Hs Hnin.
  rewrite (node_start_inactive s Ha Hargs). cbn zeta.
  assert (os_StartProcess (host (wd s)) (starts (wd s))
            (exec.Args (exec.Command
               (hd EmptyString (nodeRun.Args (next_run (nd s))))
               (tl (nodeRun.Args (next_run (nd s)))))) = inr e) as Hs'.
  { cbn [exec.Command exec.Args]. rewrite hd_tl_nonempty; [exact Hs|].
    cbn. intros Hnil. by apply fmap_nil_inv in Hnil. }
  destruct (nodeRun_start_blocks (length (heap s)) (chans (wd s))
              (next_run (nd s)) (set_chans (S (chans (wd s))) (wd s))
              _ e eq_refl eq_refl Ho He Hs' Hnin)
    as (r1 & w1 & -> & Herr & Hh & Hg & _ & Ht).
  eexists _, r1. split; [reflexivity|]. cbn.
  assert ((heap s ++ [r1]) !! length (heap s) = Some r1) as Hr1
    by (by apply list_lookup_middle).
  split; [done|]. split; [done|]. split; [done|]. split; [done|].
  split; [done|]. split; [done|]. split; [|split].
  - rewrite Ht, sends_app. cbn [trace set_chans]. unfold sends at 2.
    rewrite !(count_occ_cons_neq event_eq_dec) by discriminate.
    rewrite count_occ_cons_eq by reflexivity. cbn [count_occ]. lia.
  - unfold node_Status. cbn. rewrite Hr1.
    unfold handle in Hh. destruct (nodeRun.Cmd r1) as [c1|]; [|done].
    by rewrite Hh.
  - apply node_start_active. by eexists.
Qed.

Lemma failed_launch_blocks_start_witness :
  let s := constructed "1" ["missing"; "start"] None true "logs/${RUN}.stdout"
             "logs/${RUN}.stderr" EmptyString EmptyString [] Sample.boot in
  node.Args (nd s) ≠ []
  ∧ openable (host (wd s)) (nodeRun.Stdout (next_run (nd s)))
  ∧ openable (host (wd s)) (nodeRun.Stderr (next_run (nd s)))
  ∧ (Handler (chans (wd s)) ∉ goroutines (wd s))
  ∧ ∃ s1, node_start s = (Abort (Block 0%nat), s1)
          ∧ node_start s1 = (Ok tt, s1).
Proof.
  intros s.
  assert (node.Args (nd s) ≠ []) as Hargs by discriminate.
  assert (openable (host (wd s)) (nodeRun.Stdout (next_run (nd s)))) as Ho
    by (split; vm_compute; reflexivity).
  assert (openable (host (wd s)) (nodeRun.Stderr (next_run (nd s)))) as He
    by (split; vm_compute; reflexivity).
  assert (Handler (chans (wd s)) ∉ goroutines (wd s)) as Hnin
    by apply not_elem_of_nil.
  split; [exact Hargs|]. split; [exact Ho|]. split; [exact He|].
  split; [exact Hnin|].
  destruct (failed_launch_blocks_start s "executable file not found in $PATH"
              eq_refl Hargs Ho He) as (s1 & r1 & H1 & H2).
  - vm_compute. reflexivity.
  - exact Hnin.
  - exists s1. split; [exact H1|]. apply H2.
Defined.

(** *** The objects of the history *)



(** *** The configuration of a node *)

Lemma same_config_refl (n : node.t) : same_config n n.
Proof. by unfold same_config. Qed.

Lemma node_start_noargs (s : system) :
  node.Active (nd s) = None → node.Args (nd s) = [] →
  node_start s = (Abort (Panic "index out of range"), s).
Proof. intros Ha Hargs. unfold node_start. sred. by rewrite Ha, Hargs. Qed.

Lemma node_start_same_config s x s' :
  node_start s = (x, s') → same_config (nd s) (nd s').
Proof.
  destruct (node.Active (nd s)) as [l|] eqn:Ha.
  { rewrite node_start_active by (by eexists). intros [= _ <-].
    apply same_config_refl. }
  destruct (decide (node.Args (nd s) = [])) as [Hargs|Hargs].
  { rewrite node_start_noargs by done. intros [= _ <-]. apply same_config_refl. }
  rewrite (node_start_inactive s Ha Hargs). cbn zeta.
  destruct (nodeRun_start _ _ _) as [y [r' w']].
  destruct y as [[]|e]; intros [= _ <-]; by unfold same_config.
Qed.

Lemma perform_same_config a s x s' :
  perform a s = Some (x, s') → same_config (nd s) (nd s').
Proof.
  destruct a as [| | | |b|r c|c|]; cbn.
  - intros [= H]. by eapply node_start_same_config.
  - intros [= H]. unfold node_stop in H. revert H. sred.
    destruct (node.Active (nd s)) as [la|].
    + destruct (with_run la nodeRun_stop s) as [y s1] eqn:Hrun.
      apply with_run_effect in Hrun as [Hnd _]; [|apply keeps_nodeRun_stop].
      destruct y as [[]|e]; intros [= _ <-]; cbn; rewrite Hnd;
        by unfold same_config.
    + intros [= _ <-]. apply same_config_refl.
  - intros [= H]. unfold node_pause in H. revert H. sred.
    destruct (node.Active (nd s)) as [la|].
    + intros [Hnd _]%with_run_effect; [|apply keeps_nodeRun_pause].
      rewrite Hnd. apply same_config_refl.
    + intros [= _ <-]. apply same_config_refl.
  - intros [= H]. unfold node_resume in H. revert H. sred.
    destruct (node.Active (nd s)) as [la|].
    + intros [Hnd _]%with_run_effect; [|apply keeps_nodeRun_resume].
      rewrite Hnd. apply same_config_refl.
    + intros [= _ <-]. apply same_config_refl.
  - intros [= _ <-]. by unfold same_config.
  - destruct (decide (Waiter r c ∈ goroutines (wd s))); [|done].
    sred. intros [= H].
    apply with_run_effect in H as [Hnd _]; [|apply keeps_nodeRun_waiter].
    rewrite Hnd. apply same_config_refl.
  - destruct (decide (Resumed c ∈ goroutines (wd s))); [|done].
    unfold node_completion. sred.
    destruct (node.Service (nd s)); sred; intros [= _ <-]; by unfold same_config.
  - destruct (decide (Restart ∈ goroutines (wd s))); [|done].
    sred. intros [= H]. by apply node_start_same_config in H.
Qed.

(** X12.  Nothing that happens to a node changes its configuration: in every
    state after [newNode] the name, the argument templates, the attributes
    and the locality are those given to [newNode], the environment is the
    given one completed by [addDefaultVars], the two path templates are the
    given ones expanded once with that environment, and the URL is the
    empty one that [newNode] leaves. *)
Theorem node_configuration_is_fixed
    (name : string) (args : list string) (env : option (gmap string string))
    (service : bool) (stdout stderr attributes locality : string)
    (h : list nodeRun.t) (w : world) (s : system) :
  reachable (newNode name args env service stdout stderr attributes locality h w).2 s →
  let vars := addDefaultVars (host w)
                (match env with None => ∅ | Some e => e end) in
  node.Name (nd s) = name
  ∧ node.Args (nd s) = args
  ∧ node.Env (nd s) = vars
  ∧ node.Stdout (nd s) = replaceVars stdout vars
  ∧ node.Stderr (nd s) = replaceVars stderr vars
  ∧ node.URL (nd s) = EmptyString
  ∧ node.Attrs (nd s) = attributes
  ∧ node.Locality (nd s) = locality.
Proof.
  intros Hreach vars.
  enough (same_config (nd (constructed name args env service stdout stderr
                             attributes locality h w)) (nd s)) as H
    by (destruct H as (?&?&?&?&?&?&?&?); by repeat apply conj).
  induction Hreach as [|s s' _ IH [a x s'' Hp]].
  - rewrite newNode_unfold. destruct service; [|apply same_config_refl].
    destruct (node_start _) as [x s'] eqn:E.
    by apply node_start_same_config in E.
  - apply perform_same_config in Hp.
    destruct IH as (?&?&?&?&?&?&?&?), Hp as (?&?&?&?&?&?&?&?).
    repeat apply conj; congruence.
Qed.

Lemma node_configuration_is_fixed_witness :
  let s0 := (newNode "1" ["cockroach"; "--store=${HOME}"] None true
               "out-${RUN}.log" "err-${RUN}.log" EmptyString "eu" []
               Sample.boot).2 in
  let s := Sample.after [Stop; SetService false; Start; Pause] s0 in
  reachable s0 s
  ∧ node.Args (nd s) = ["cockroach"; "--store=${HOME}"]
  ∧ node.Locality (nd s) = "eu".
Proof.
  intros s0 s.
  assert (reachable s0 s) as H by (apply reachable_after; apply reachable_init).
  split; [exact H|].
  pose proof (node_configuration_is_fixed _ _ _ _ _ _ _ _ _ _ _ H)
    as (_ & H1 & _ & _ & _ & _ & _ & H2).
  split; [exact H1 | exact H2].
Defined.

(** *** The command of a Run *)

Lemma env_strings_elem (e : gmap string string) (x : string) :
  x ∈ env_strings e ↔ ∃ k v, e !! k = Some v ∧ x = k +:+ "=" +:+ v.
Proof.
  unfold env_strings. rewrite list_elem_of_fmap. split.
  - intros ([k v] & -> & Hkv). apply elem_of_map_to_list in Hkv. eauto.
  - intros (k & v & Hkv & ->). exists (k, v). split; [done|].
    by apply elem_of_map_to_list.
Qed.

(** X13.  When [start] spawns the process of a Run (every file it asks for
    can be created), the command it has started carries the arguments it
    was built with, the two sinks of the Run as its standard output and
    standard error, and in its environment list exactly one entry [k=v] for
    each variable [k] of the Run's environment with value [v], after the
    entries it had. *)
Theorem start_passes_environment_and_sinks
    (this : loc) (c : chan) (r : nodeRun.t) (w : world) (cmd : exec.Cmd) (pid : Z) :
  nodeRun.Cmd r = Some cmd →
  exec.Process cmd = None →
  (∀ p, os_Create (host w) p = None) →
  os_StartProcess (host w) (starts w) (exec.Args cmd) = inl pid →
  ∃ r1 w1 cmd1,
    nodeRun_start this c (r, w) = (Ok tt, (r1, w1))
    ∧ nodeRun.Cmd r1 = Some cmd1
    ∧ exec.Args cmd1 = exec.Args cmd
    ∧ exec.Stdout cmd1 = nodeRun.StdoutBuf r1
    ∧ exec.Stderr cmd1 = nodeRun.StderrBuf r1
    ∧ exec.Env cmd1 = exec.Env cmd ++ env_strings (nodeRun.Env r)
    ∧ length (env_strings (nodeRun.Env r)) = size (nodeRun.Env r)
    ∧ (∀ x, x ∈ env_strings (nodeRun.Env r)
            ↔ ∃ k v, nodeRun.Env r !! k = Some v ∧ x = k +:+ "=" +:+ v).
Proof.
  intros Hc Hp Hfs Hs.
  assert (length (env_strings (nodeRun.Env r)) = size (nodeRun.Env r)) as Hlen.
  { unfold env_strings. rewrite length_fmap. apply length_map_to_list. }
  unfold nodeRun_start. mred.
  destruct (Nat.ltb 0 (Str.len (nodeRun.Stdout r))); mred;
    rewrite ?Hfs; mred; rewrite Hc; mred.
  all: destruct (Nat.ltb 0 (Str.len (nodeRun.Stderr r))); mred;
    rewrite ?Hfs; mred; rewrite Hp; mred; rewrite Hs; mred.
  all: eexists _, _, _; split; [reflexivity|]; cbn.
  all: repeat apply conj; try done; apply env_strings_elem.
Qed.

Lemma start_passes_environment_and_sinks_witness :
  let r := Sample.first_run "logs/0.stdout" "logs/0.stderr" ["cockroach"] in
  (∀ p, os_Create (host Sample.open_boot) p = None)
  ∧ ∃ r1 w1 cmd1,
      nodeRun_start 0%nat 0%nat (r, Sample.open_boot) = (Ok tt, (r1, w1))
      ∧ nodeRun.Cmd r1 = Some cmd1
      ∧ exec.Env cmd1 = env_strings (nodeRun.Env r).
Proof.
  intros r.
  assert (∀ p, os_Create (host Sample.open_boot) p = None) as Hfs
    by (intros p; reflexivity).
  split; [exact Hfs|].
  destruct (start_passes_environment_and_sinks 0%nat 0%nat r Sample.open_boot
              (exec.Command "cockroach" []) 1000 eq_refl eq_refl Hfs eq_refl)
    as (r1 & w1 & cmd1 & Hs & Hc & _ & _ & _ & He & _).
  exists r1, w1, cmd1. split; [exact Hs|]. split; [exact Hc | exact He].
Defined.

(** *** Decimal numbers of requests *)





(** *** Requests for a Run *)

Ltac rred :=
  repeat (progress
    (unfold mbind, M_bind, mret, M_ret, modify, get, throw, emit, log_Printf,
       log_Fatalf, on_rw, rqW, WriteHeader, Write;
     cbn)).

(** [renderError] returns or ends the application in [log.Fatal]; it never
    changes a status that is already written. *)
Lemma renderError_outcome (tmpls : gmap string template) (msg : string) (rq : Rq) :
  ∃ x rq', renderError tmpls msg rq = (x, rq')
    ∧ (x = Ok tt ∨ ∃ m, x = Abort (Fatal m))
    ∧ (∀ c, Code rq.1 = Some c → Code rq'.1 = Some c).
Proof.
  destruct rq as [rw w]. unfold renderError, renderSimple, render.
  destruct (tmpls !! "error.html") as [t|]; rred.
  - destruct (t _) as [html|err]; rred.
    + destruct (Broken rw) as [e|] eqn:Hb; rred.
      * eexists _, _. split; [reflexivity|]. split; [by left | done].
      * eexists _, _. split; [reflexivity|]. split; [by left|].
        intros c Hc. by rewrite Hc.
    + eexists _, _. split; [reflexivity|]. split; [right; by eexists | done].
  - eexists _, _. split; [reflexivity|]. split; [right; by eexists | done].
Qed.

(** The two refusals of [findNodeRun]: status 400 and the error page. *)
Lemma refusal_outcome (tmpls : gmap string template) (msg : string) (rq : Rq) :
  ∃ x rq', (WriteHeader 400;; renderError tmpls msg;; mret (@None loc)) rq = (x, rq')
    ∧ (x = Ok None ∨ ∃ m, x = Abort (Fatal m))
    ∧ (Code rq.1 = None → Code rq'.1 = Some 400).
Proof.
  unfold mbind, M_bind. 
  destruct (WriteHeader 400 rq) as [y rq1] eqn:Hw.
  assert (y = Ok tt ∧ (Code rq.1 = None → Code rq1.1 = Some 400)) as [-> H1].
  { destruct rq as [rw w]. revert Hw. rred. intros [= <- <-]. split; [done|].
    cbn. by intros ->. }
  destruct (renderError_outcome tmpls msg rq1) as (x & rq' & -> & Hx & Hc).
  destruct Hx as [-> | [m ->]].
  - eexists _, _. split; [reflexivity|]. split; [by left | by intros ?%H1%Hc].
  - eexists _, _. split; [reflexivity|]. split; [right; by eexists | by intros ?%H1%Hc].
Qed.

(** X14.  [findNodeRun] returns a Run exactly when the [run] argument of
    the request is a decimal number that is an index of the node's history,
    and then it returns the Run at that index and leaves the response
    untouched.  It never indexes the history out of range: in every other
    case it answers with status 400 (when no status was written before) and
    returns nil, or the application ends in [log.Fatal] when the error page
    cannot be rendered. *)
Theorem findNodeRun_answers_indices_of_the_history
    (tmpls : gmap string template) (t : node.t) (args : gmap string string)
    (rq : Rq) :
  let out := findNodeRun tmpls t args rq in
  (∀ l, out.1 = Ok (Some l)
        ↔ ∃ run, Atoi (arg args "run") = Some run
                 ∧ 0 ≤ run
                 ∧ node.Runs t !! Z.to_nat run = Some l)
  ∧ (∀ l, out.1 = Ok (Some l) → out.2 = rq)
  ∧ (∀ m, out.1 ≠ Abort (Panic m))
  ∧ ((∀ l, out.1 ≠ Ok (Some l)) →
     (out.1 = Ok None ∨ ∃ m, out.1 = Abort (Fatal m))
     ∧ (Code rq.1 = None → Code out.2.1 = Some 400)).
Proof.
  cbn zeta. unfold findNodeRun.
  destruct (Atoi (arg args "run")) as [run|] eqn:Ha.
  - destruct (Z.ltb_spec run 0) as [Hneg|Hpos]; cbn [orb].
    { destruct (refusal_outcome tmpls
                  ("run " +:+ Itoa run +:+ " of node " +:+ node.Name t
                   +:+ " not found") rq) as (x & rq' & -> & Hx & Hc).
      cbn [fst snd]. repeat apply conj.
      - intros l. split.
        + destruct Hx as [-> | [m ->]]; discriminate.
        + intros (run' & [= <-] & H0 & _). lia.
      - intros l. destruct Hx as [-> | [m ->]]; discriminate.
      - intros m. destruct Hx as [-> | [m' ->]]; discriminate.
      - intros _. split; [exact Hx | exact Hc]. }
    destruct (Z.leb_spec (Z.of_nat (length (node.Runs t))) run) as [Hbig|Hin].
    { destruct (refusal_outcome tmpls
                  ("run " +:+ Itoa run +:+ " of node " +:+ node.Name t
                   +:+ " not found") rq) as (x & rq' & -> & Hx & Hc).
      cbn [fst snd]. repeat apply conj.
      - intros l. split.
        + destruct Hx as [-> | [m ->]]; discriminate.
        + intros (run' & [= <-] & H0 & Hl). apply lookup_lt_Some in Hl. lia.
      - intros l. destruct Hx as [-> | [m ->]]; discriminate.
      - intros m. destruct Hx as [-> | [m' ->]]; discriminate.
      - intros _. split; [exact Hx | exact Hc]. }
    destruct (lookup_lt_is_Some_2 (node.Runs t) (Z.to_nat run)) as [l Hl]; [lia|].
    rewrite Hl. cbn. repeat apply conj.
    + intros l'. split.
      * intros [= <-]. by exists run.
      * intros (run' & [= <-] & _ & Hl'). congruence.
    + done.
    + done.
    + intros H. by destruct (H l).
  - destruct (refusal_outcome tmpls
                ("strconv.Atoi: parsing " +:+ arg args "run") rq)
      as (x & rq' & -> & Hx & Hc).
    cbn [fst snd]. repeat apply conj.
    + intros l. split.
      * destruct Hx as [-> | [m ->]]; discriminate.
      * intros (run' & [=] & _).
    + intros l. destruct Hx as [-> | [m ->]]; discriminate.
    + intros m. destruct Hx as [-> | [m' ->]]; discriminate.
    + intros _. split; [exact Hx | exact Hc].
Qed.



(** *** The environment handed to the nodes of a cluster *)

Section EnvRE.

#[local] Arguments String.append !_ _ /.

Lemma strip_prefix_spec (p s r : string) :
  strip_prefix p s = Some r ↔ s = p +:+ r.
Proof.
  revert s. induction p as [|a p IH]; intros s; cbn.
  - split; [by intros [= ->] | by intros ->].
  - destruct s as [|b s]; [done|].
    destruct (Ascii.eqb_spec a b) as [->|Hne].
    + rewrite IH. split; [by intros -> | by intros [= ->]].
    + split; [done | intros [= -> _]; done].
Qed.

Lemma cut_at_equals_sound (s a b : string) :
  cut_at_equals s = Some (a, b) →
  s = a +:+ "=" +:+ b ∧ Str.contains "=" a = false.
Proof.
  revert a. induction s as [|c s IH]; intros a; cbn; [done|].
  destruct (Ascii.eqb_spec c "="%char) as [->|Hne].
  - by intros [= <- <-].
  - destruct (cut_at_equals s) as [[a' b']|]; [|done].
    intros [= <- <-]. destruct (IH a' eq_refl) as [-> Ha].
    split; [done|]. cbn. rewrite Ha.
    by destruct (Ascii.eqb_spec c "="%char).
Qed.

Lemma cut_at_equals_complete (a b : string) :
  Str.contains "=" a = false → cut_at_equals (a +:+ "=" +:+ b) = Some (a, b).
Proof.
  induction a as [|c a IH]; cbn in *; [done|].
  destruct (Ascii.eqb_spec c "="%char) as [->|Hne]; [done|].
  cbn. intros Ha. by rewrite (IH Ha).
Qed.

Lemma cut_at_equals_app (lit s : string) :
  Str.contains "=" lit = false →
  cut_at_equals (lit +:+ s)
  = match cut_at_equals s with
    | Some (a, b) => Some (lit +:+ a, b)
    | None => None
    end.
Proof.
  induction lit as [|c lit IH]; cbn.
  - intros _. by destruct (cut_at_equals s) as [[]|].
  - destruct (Ascii.eqb_spec c "="%char) as [->|Hne]; [done|].
    cbn. intros Hl. rewrite (IH Hl). by destruct (cut_at_equals s) as [[]|].
Qed.

Lemma up_to_newline_sound (s : string) :
  Str.contains "010" (up_to_newline s) = false
  ∧ ∃ post, s = up_to_newline s +:+ post
            ∧ (post = EmptyString ∨ ∃ t, post = String "010" t).
Proof.
  induction s as [|c s [IH1 (post & IH2 & IH3)]]; cbn.
  - split; [done|]. exists EmptyString. by split; [|left].
  - destruct (Ascii.eqb_spec c "010"%char) as [->|Hne]; cbn.
    + split; [done|]. eexists. split; [reflexivity|]. right. by eexists.
    + rewrite IH1. split; [by destruct (Ascii.eqb_spec c "010"%char)|].
      exists post. split; [by rewrite <- IH2 | done].
Qed.

Lemma up_to_newline_id (s : string) :
  Str.contains "010" s = false → up_to_newline s = s.
Proof.
  induction s as [|c s IH]; cbn; [done|].
  destruct (Ascii.eqb_spec c "010"%char) as [->|Hne]; [done|].
  cbn. intros H. by rewrite (IH H).
Qed.

(** One alternative matches at the start of [s] exactly when [s] goes on
    with the literal, at least one more byte, and an equals sign. *)
Lemma envRE_alternative_spec (lit s k v : string) :
  Str.contains "=" lit = false →
  envRE_alternative lit s = Some (k, v)
  ↔ ∃ x rest, x ≠ EmptyString
       ∧ k = lit +:+ x
       ∧ cut_at_equals s = Some (k, rest)
       ∧ v = up_to_newline rest.
Proof.
  intros Hlit. unfold envRE_alternative. split.
  - destruct (strip_prefix lit s) as [r|] eqn:E; [|done].
    apply strip_prefix_spec in E as ->. rewrite (cut_at_equals_app _ _ Hlit).
    destruct (cut_at_equals r) as [[run value]|]; [|done].
    destruct run as [|c run]; [done|]. cbn [Str.is_empty].
    intros [= <- <-]. by exists (String c run), value.
  - intros (x & rest & Hx & -> & Hc & ->).
    destruct (cut_at_equals_sound _ _ _ Hc) as [-> Hk].
    rewrite append_assoc in Hc |- *.
    assert (strip_prefix lit (lit +:+ x +:+ "=" +:+ rest)
            = Some (x +:+ "=" +:+ rest)) as -> by by apply strip_prefix_spec.
    rewrite contains_append in Hk. apply orb_false_elim in Hk as [_ Hx'].
    rewrite (cut_at_equals_complete _ _ Hx').
    by destruct x.
Qed.

Lemma envRE_here_spec (s k v : string) :
  envRE_here s = Some (k, v)
  ↔ ∃ x rest, x ≠ EmptyString
       ∧ (k = "COCKROACH_" +:+ x ∨ k = "GO" +:+ x)
       ∧ cut_at_equals s = Some (k, rest)
       ∧ v = up_to_newline rest.
Proof.
  unfold envRE_here. split.
  - destruct (envRE_alternative "COCKROACH_" s) as [m|] eqn:E.
    + intros [= ->]. apply envRE_alternative_spec in E; [|done].
      destruct E as (x & rest & ? & ? & ? & ?). exists x, rest. eauto.
    + intros E2. apply envRE_alternative_spec in E2; [|done].
      destruct E2 as (x & rest & ? & ? & ? & ?). exists x, rest. eauto.
  - intros (x & rest & Hx & [Hk|Hk] & Hc & Hv).
    + assert (envRE_alternative "COCKROACH_" s = Some (k, v)) as ->; [|done].
      apply envRE_alternative_spec; [done|]. by exists x, rest.
    + assert (envRE_alternative "GO" s = Some (k, v)) as Hgo.
      { apply envRE_alternative_spec; [done|]. by exists x, rest. }
      destruct (envRE_alternative "COCKROACH_" s) as [[k' v']|] eqn:E; [|done].
      apply envRE_alternative_spec in E; [|done].
      destruct E as (x' & rest' & _ & Hk' & Hc' & _).
      rewrite Hc in Hc'. injection Hc' as <- _. rewrite Hk in Hk'. discriminate.
Qed.

Lemma envRE_FindStringSubmatch_unfold (val : string) :
  envRE_FindStringSubmatch val
  = match envRE_here val with
    | Some m => Some m
    | None =>
        match val with
        | EmptyString => None
        | String _ val' => envRE_FindStringSubmatch val'
        end
    end.
Proof. by destruct val. Qed.

(** What a match of [envRE] says of the entry. *)
Lemma envRE_FindStringSubmatch_sound (val k v : string) :
  envRE_FindStringSubmatch val = Some (k, v) →
  (∃ x, x ≠ EmptyString ∧ (k = "COCKROACH_" +:+ x ∨ k = "GO" +:+ x))
  ∧ Str.contains "=" k = false
  ∧ Str.contains "010" v = false
  ∧ ∃ pre post, val = pre +:+ k +:+ "=" +:+ v +:+ post
                ∧ (post = EmptyString ∨ ∃ t, post = String "010" t).
Proof.
  induction val as [|c val IH]; rewrite envRE_FindStringSubmatch_unfold.
  - done.
  - destruct (envRE_here (String c val)) as [m|] eqn:E.
    + intros [= ->]. apply envRE_here_spec in E as (x & rest & Hx & Hk & Hc & ->).
      apply cut_at_equals_sound in Hc as [Hval Hnk].
      destruct (up_to_newline_sound rest) as [Hv (post & Hrest & Hpost)].
      split; [by exists x|]. split; [done|]. split; [done|].
      exists EmptyString, post. split; [|done].
      cbn [String.append]. by rewrite <- Hrest.
    + intros H. destruct (IH H) as (Hk & Hnk & Hv & pre & post & -> & Hpost).
      split; [done|]. split; [done|]. split; [done|].
      by exists (String c pre), post.
Qed.

(** An entry [name=value] whose name has no equals sign and ends with a
    matching name is matched from the leftmost place on where its name
    matches. *)
Lemma envRE_FindStringSubmatch_complete (pre k x v : string) :
  x ≠ EmptyString →
  k = "COCKROACH_" +:+ x ∨ k = "GO" +:+ x →
  Str.contains "=" (pre +:+ k) = false →
  Str.contains "010" v = false →
  ∃ p q, pre = p +:+ q
    ∧ envRE_FindStringSubmatch (pre +:+ k +:+ "=" +:+ v) = Some (q +:+ k, v).
Proof.
  intros Hx Hk Hne Hv. induction pre as [|c pre IH].
  - exists EmptyString, EmptyString. split; [done|].
    rewrite envRE_FindStringSubmatch_unfold.
    assert (envRE_here (k +:+ "=" +:+ v) = Some (k, v)) as E.
    { apply envRE_here_spec. exists x, v. split; [done|]. split; [done|].
      split; [by apply cut_at_equals_complete | by rewrite up_to_newline_id]. }
    change (EmptyString +:+ k +:+ "=" +:+ v) with (k +:+ "=" +:+ v).
    by rewrite E.
  - rewrite envRE_FindStringSubmatch_unfold.
    pose proof (cut_at_equals_complete _ v Hne) as Hcut.
    rewrite append_assoc in Hcut.
    destruct (envRE_here (String c pre +:+ k +:+ "=" +:+ v)) as [[k' v']|] eqn:E.
    + apply envRE_here_spec in E as (x' & rest & _ & _ & Hc & ->).
      rewrite Hcut in Hc. injection Hc as <- <-.
      exists EmptyString, (String c pre). split; [done|].
      by rewrite up_to_newline_id.
    + destruct IH as (p & q & Hpq & Hm).
      { revert Hne. cbn. by intros [_ ?]%orb_false_elim. }
      exists (String c p), q. split; [by rewrite Hpq | exact Hm].
Qed.

Lemma cockroach_env_snoc (environ : list string) (val : string) :
  cockroach_env (environ ++ [val])
  = match envRE_FindStringSubmatch val with
    | None => cockroach_env environ
    | Some (k, v) => <[k := v]> (cockroach_env environ)
    end.
Proof. unfold cockroach_env. by rewrite foldl_app. Qed.

(** X16.  Every variable [newNode] of the cluster hands to a node comes from
    an entry of the process environment: its name begins with [COCKROACH_]
    or [GO] followed by at least one more byte and has no equals sign, its
    value has no line break, and [name=value] stands in some entry, up to
    the entry's end or first line break after it. *)
Theorem cockroach_env_holds_only_matching_entries
    (environ : list string) (k v : string) :
  cockroach_env environ !! k = Some v →
  (∃ x, x ≠ EmptyString ∧ (k = "COCKROACH_" +:+ x ∨ k = "GO" +:+ x))
  ∧ Str.contains "=" k = false
  ∧ Str.contains "010" v = false
  ∧ ∃ val pre post, val ∈ environ
      ∧ val = pre +:+ k +:+ "=" +:+ v +:+ post
      ∧ (post = EmptyString ∨ ∃ t, post = String "010" t).
Proof.
  induction environ as [|val environ IH] using rev_ind; [done|].
  rewrite cockroach_env_snoc.
  destruct (envRE_FindStringSubmatch val) as [[k' v']|] eqn:E;
    [destruct (decide (k' = k)) as [->|Hne]|].
  - rewrite lookup_insert_eq. intros [= ->].
    destruct (envRE_FindStringSubmatch_sound _ _ _ E)
      as (H1 & H2 & H3 & pre & post & Hval).
    split; [exact H1|]. split; [exact H2|]. split; [exact H3|].
    exists val, pre, post. split; [|exact Hval].
    apply elem_of_app. right. by apply list_elem_of_singleton.
  - rewrite lookup_insert_ne by done. intros H.
    destruct (IH H) as (H1 & H2 & H3 & val' & pre & post & Hin & Hval).
    split; [exact H1|]. split; [exact H2|]. split; [exact H3|].
    exists val', pre, post. split; [|exact Hval]. apply elem_of_app. by left.
  - intros H.
    destruct (IH H) as (H1 & H2 & H3 & val' & pre & post & Hin & Hval).
    split; [exact H1|]. split; [exact H2|]. split; [exact H3|].
    exists val', pre, post. split; [|exact Hval]. apply elem_of_app. by left.
Qed.

Lemma cockroach_env_holds_only_matching_entries_witness :
  cockroach_env ["PATH=/bin"; "GOPATH=/go"] !! "GOPATH" = Some "/go"
  ∧ Str.contains "=" "GOPATH" = false.
Proof.
  assert (cockroach_env ["PATH=/bin"; "GOPATH=/go"] !! "GOPATH" = Some "/go") as H
    by (vm_compute; reflexivity).
  split; [exact H|].
  exact (proj1 (proj2 (cockroach_env_holds_only_matching_entries _ _ _ H))).
Defined.

(** X17.  An entry [name=value] of the process environment is handed to the
    nodes when the name has no equals sign, the value has no line break and
    the name ends with [COCKROACH_] or [GO] and at least one more byte: the
    expression is not anchored, so the variable is passed under the part of
    its name that begins where the expression first matches, which is the
    whole name when the name begins with [COCKROACH_] or [GO].  The entry
    overrides whatever the entries before it gave for that name, and
    entries after it that match nothing leave it in place. *)
Theorem cockroach_env_passes_names_that_end_in_a_match
    (environ later : list string) (pre k x v : string) :
  x ≠ EmptyString →
  k = "COCKROACH_" +:+ x ∨ k = "GO" +:+ x →
  Str.contains "=" (pre +:+ k) = false →
  Str.contains "010" v = false →
  (∀ val, val ∈ later → envRE_FindStringSubmatch val = None) →
  ∃ p q, pre = p +:+ q
    ∧ cockroach_env (environ ++ [pre +:+ k +:+ "=" +:+ v] ++ later) !! (q +:+ k)
      = Some v
    ∧ (pre = EmptyString → q = EmptyString).
Proof.
  intros Hx Hk Hne Hv Hlater.
  destruct (envRE_FindStringSubmatch_complete pre k x v Hx Hk Hne Hv)
    as (p & q & Hpq & Hm).
  exists p, q. split; [exact Hpq|]. split.
  - induction later as [|val later IH] using rev_ind.
    + rewrite app_nil_r, cockroach_env_snoc, Hm. apply lookup_insert_eq.
    + rewrite !app_assoc, cockroach_env_snoc, <- app_assoc.
      rewrite (Hlater val) by (apply elem_of_app; right; by apply list_elem_of_singleton).
      apply IH. intros val' Hin. apply Hlater, elem_of_app. by left.
  - intros ->. by destruct p.
Qed.

Lemma cockroach_env_passes_names_that_end_in_a_match_witness :
  Str.contains "=" ("DJAN" +:+ "GO_SETTINGS") = false
  ∧ ∃ p q, "DJAN" = p +:+ q
      ∧ cockroach_env (["GO_SETTINGS=old"] ++ ["DJAN" +:+ "GO_SETTINGS" +:+ "=" +:+ "new"]
                       ++ ["PATH=/bin"]) !! (q +:+ "GO_SETTINGS") = Some "new".
Proof.
  assert (Str.contains "=" ("DJAN" +:+ "GO_SETTINGS") = false) as Hne by reflexivity.
  split; [exact Hne|].
  assert (∀ val, val ∈ ["PATH=/bin"] → envRE_FindStringSubmatch val = None) as Hl
    by (intros val ->%list_elem_of_singleton; reflexivity).
  destruct (cockroach_env_passes_names_that_end_in_a_match ["GO_SETTINGS=old"]
              ["PATH=/bin"] "DJAN" "GO_SETTINGS" "_SETTINGS" "new"
              ltac:(discriminate) (or_intror eq_refl) Hne eq_refl Hl)
    as (p & q & Hpq & Hlk & _).
  exists p, q. split; [exact Hpq | exact Hlk].
Defined.

End EnvRE.

(** *** The nodes of a cluster *)

#[local] Arguments newNode : simpl never.
#[local] Arguments filepath_Join : simpl never.

Ltac cred :=
  repeat (progress
    (unfold mbind, M_bind, mret, M_ret, modify, get, throw, emit, log_Fatalf,
       srvW, assign_cluster;
     cbn)).

(** What [newNode] gives for a service node. *)
Lemma newNode_service_outcome name args env stdout stderr attributes locality h w y sys :
  newNode name args env true stdout stderr attributes locality h w = (y, sys) →
  let s0 := constructed name args env true stdout stderr attributes locality h w in
  same_config (nd s0) (nd sys) ∧ effect s0 sys ∧ history_ok sys.
Proof.
  rewrite newNode_unfold. intros H. cbn zeta.
  split; [by eapply node_start_same_config|].
  split; [by eapply node_start_effect|].
  eapply history_ok_effect; [apply history_ok_constructed|].
  by eapply node_start_effect.
Qed.

Lemma cluster_newNode_cases (ch : cluster_host) (s : server) x s' :
  cluster_newNode ch s = (x, s') →
  let c := cl s in
  let id := Z.of_nat (size (cluster.Nodes c)) + 1 in
  let name := Itoa id in
  let port := cluster.NextPort c in
  (∃ err, os_MkdirAll ch (logdir_of name) = Some err
     ∧ x = Abort (Fatal err) ∧ cl s' = c ∧ mem s' = mem s
     ∧ host (sw s') = host (sw s) ∧ goroutines (sw s') = goroutines (sw s))
  ∨ (os_MkdirAll ch (logdir_of name) = None
     ∧ ∃ y sys,
         newNode name (node_command ch c id port)
           (Some (cockroach_env (os_Environ ch))) true
           (filepath_Join (logdir_of name) "${RUN}.stdout")
           (filepath_Join (logdir_of name) "${RUN}.stderr")
           (default EmptyString (cluster.attrs c id))
           (default EmptyString (cluster.localities c id))
           (mem s) (sw s) = (y, sys)
         ∧ mem s' = heap sys ∧ sw s' = wd sys
         ∧ match y with
           | Abort e => x = Abort e ∧ cl s' = cluster.set_NextPort (port + 2) c
           | Ok _ =>
               x = Ok name
               ∧ cl s' = cluster.set_Nodes
                           (<[name := node_set_URL ("http://localhost:" +:+ Itoa (port + 1))
                                        (nd sys)]> (cluster.Nodes c))
                           (cluster.set_NextPort (port + 2) c)
           end).
Proof.
  unfold cluster_newNode, logdir_of. cred.
  destruct (os_MkdirAll ch _) as [err|] eqn:Hmk; cred.
  { intros [= <- <-]. left. exists err. by repeat split. }
  intros H. right. split; [done|].
  match type of H with
  | context [newNode _ ?args] =>
      assert (args = node_command ch (cl s)
                       (Z.of_nat (size (cluster.Nodes (cl s))) + 1)
                       (cluster.NextPort (cl s))) as Hargs
  end.
  { unfold node_command.
    destruct (decide _), (cluster.attrs _ _), (cluster.localities _ _);
      cbn; by rewrite <- ?app_assoc. }
  rewrite Hargs in H. clear Hargs.
  destruct (newNode _ _ _ _ _ _ _ _ _ _) as [y sys] eqn:Hn.
  exists y, sys. split; [done|].
  pose proof (newNode_service_outcome _ _ _ _ _ _ _ _ _ _ _ Hn) as [Hcfg _].
  destruct Hcfg as (Hname & _). cbn in Hname.
  destruct y as [[]|e]; revert H; cred; intros [= <- <-]; cbn.
  - rewrite Hname. by repeat split.
  - by repeat split.
Qed.

Lemma string_of_uint_digits (c : ascii) (d : Decimal.uint) :
  Str.contains c (NilEmpty.string_of_uint d) = true →
  (Nat.leb 48 (nat_of_ascii c) && Nat.leb (nat_of_ascii c) 57)%bool = true.
Proof.
  induction d as [|d IH|d IH|d IH|d IH|d IH|d IH|d IH|d IH|d IH|d IH];
    cbn [NilEmpty.string_of_uint Str.contains]; [done|..];
    (intros [Hc|Hc]%orb_true_elim; [|by apply IH]);
    apply Ascii.eqb_eq in Hc; by subst c.
Qed.

(** [Itoa] prints digits and the minus sign only. *)
Lemma Itoa_bytes (c : ascii) (z : Z) :
  (Nat.leb 48 (nat_of_ascii c) && Nat.leb (nat_of_ascii c) 57)%bool = false →
  c ≠ "-"%char →
  Str.contains c (Itoa z) = false.
Proof.
  intros Hd Hm. unfold Itoa.
  assert (∀ d, Str.contains c (NilEmpty.string_of_uint d) = false) as Hu.
  { intros d. destruct (Str.contains c _) eqn:E; [|done].
    apply string_of_uint_digits in E. congruence. }
  destruct (Z.to_int z) as [d|d];
    cbn [NilEmpty.string_of_int Str.contains]; [apply Hu|].
  rewrite Hu. by destruct (Ascii.eqb_spec "-"%char c).
Qed.

Lemma cockroach_env_RUN (environ : list string) :
  cockroach_env environ !! "RUN" = None.
Proof.
  induction environ as [|val environ IH] using rev_ind; [done|].
  rewrite cockroach_env_snoc.
  destruct (envRE_FindStringSubmatch val) as [[k v]|] eqn:E; [|done].
  apply envRE_FindStringSubmatch_sound in E as ((x & _ & Hk) & _).
  rewrite lookup_insert_ne; [done|].
  destruct Hk as [-> | ->]; discriminate.
Qed.

(** The log paths of a node of the cluster after the pass of [newNode]. *)
Lemma logdir_template (k post : string) (z : Z) (vars : gmap string string) :
  k = Itoa z →
  vars !! "RUN" = None →
  Str.contains "$" post = false →
  replaceVars (filepath_Join (logdir_of k) ("${RUN}" +:+ post)) vars
  = filepath_Join (logdir_of k) ("$RUN" +:+ post).
Proof.
  intros -> Hv Hpost. unfold filepath_Join.
  rewrite <- !(append_assoc (logdir_of (Itoa z)) "/").
  apply replaceVars_RUN_undefined; [done| |done].
  unfold logdir_of, filepath_Join, dataDir.
  rewrite !contains_append, Itoa_bytes by done. done.
Qed.

Lemma history_ok_heap (n : node.t) (h h' : list nodeRun.t) (w w' : world) :
  history_ok {| nd := n; heap := h; wd := w |} →
  heap_le h h' →
  history_ok {| nd := n; heap := h'; wd := w' |}.
Proof.
  intros H Hle. eapply history_ok_effect; [exact H|].
  split; [exact Hle|]. split; [done|]. split; [done|].
  left. split; [done | by left].
Qed.

Lemma history_ok_valid (s : system) (l : loc) :
  history_ok s → l ∈ node.Runs (nd s) → is_Some (heap s !! l).
Proof.
  intros [H _] [i Hi]%list_elem_of_lookup.
  destruct (H i l Hi) as (r & Hr & _). by exists r.
Qed.

Lemma effect_runs (s s' : system) (l : loc) :
  effect s s' → l ∈ node.Runs (nd s') →
  l ∈ node.Runs (nd s) ∨ heap s !! l = None.
Proof.
  intros (_ & _ & _ & [[HR _] | (l' & r & Hfresh & _ & _ & _ & _ & HR & _)]) Hl.
  - left. by rewrite <- HR.
  - rewrite HR in Hl. apply elem_of_app in Hl as [Hl | Hl]; [by left|].
    apply list_elem_of_singleton in Hl as ->. by right.
Qed.

Lemma node_command_frame (ch : cluster_host) (c c' : cluster.t) (id port : Z) :
  cluster.args c' = cluster.args c →
  cluster.attrs c' = cluster.attrs c →
  cluster.localities c' = cluster.localities c →
  node_command ch c' id port = node_command ch c id port.
Proof. intros H1 H2 H3. unfold node_command. by rewrite H1, H2, H3. Qed.

#[local] Arguments addDefaultVars : simpl never.
#[local] Arguments node_command : simpl never.
#[local] Arguments cockroach_env : simpl never.
#[local] Arguments logdir_of : simpl never.

Lemma cluster_ok_init (ch : cluster_host) args attrs localities h w :
  cluster_ok ch {| cl := newCluster args attrs localities; mem := h; sw := w |}.
Proof.
  unfold cluster_ok. cbn [cl newCluster cluster.Nodes cluster.NextPort].
  split; [exists 0; split; [done | lia]|].
  split; [intros k n Hk; by rewrite lookup_empty in Hk|].
  split; [intros i Hi; rewrite map_size_empty in Hi; lia|].
  intros k1 k2 n1 n2 _ Hk. by rewrite lookup_empty in Hk.
Qed.

Lemma cluster_ok_node_acts (ch : cluster_host) (s : server) k a x s' :
  cluster_ok ch s → node_acts k a s = Some (x, s') → cluster_ok ch s'.
Proof.
  intros (HJ & Hnodes & Hall & Hpair) H. unfold node_acts in H.
  destruct (cluster.Nodes (cl s) !! k) as [n|] eqn:Hk; [|done].
  destruct (perform a _) as [[y sys]|] eqn:Hp; [|done].
  injection H as <- <-.
  pose proof (perform_same_config _ _ _ _ Hp) as Hcfg. cbn [nd] in Hcfg.
  pose proof (perform_effect _ _ _ _ Hp) as Heff.
  destruct Hcfg as (C1 & C2 & C3 & C4 & C5 & C6 & C7 & C8).
  destruct (Hnodes k n Hk)
    as (Hname & (i & j & Hi & Hki & Hj & Hport & Hurl & Hargs) & Hout & Herr & Hhist).
  assert (size (<[k := nd sys]> (cluster.Nodes (cl s))) = size (cluster.Nodes (cl s)))
    as Hsize by (apply map_size_insert_Some; eauto).
  unfold cluster_ok.
  cbn [cl mem sw cluster.Nodes cluster.NextPort cluster.set_Nodes].
  rewrite Hsize.
  split; [exact HJ|]. split; [|split].
  - intros k' n' Hk'. destruct (decide (k = k')) as [<-|Hne].
    + rewrite lookup_insert_eq in Hk'. injection Hk' as <-.
      split; [congruence|]. split.
      { exists i, j. rewrite C6, C2. split; [exact Hi|]. split; [exact Hki|].
        split; [exact Hj|]. split; [exact Hport|].
        split; [exact Hurl | exact Hargs]. }
      split; [congruence|]. split; [congruence|].
      destruct sys as [n' h' w']. eapply history_ok_effect; [exact Hhist | exact Heff].
    + rewrite lookup_insert_ne in Hk' by done.
      destruct (Hnodes k' n' Hk') as (H1 & H2 & H3 & H4 & H5).
      split; [exact H1|]. split; [exact H2|]. split; [exact H3|].
      split; [exact H4|].
      eapply history_ok_heap; [exact H5|]. by destruct Heff as [Hle _].
  - intros i' Hi'. destruct (decide (k = Itoa i')) as [->|Hne].
    + rewrite lookup_insert_eq. by eexists.
    + rewrite lookup_insert_ne by done. by apply Hall.
  - intros k1 k2 n1 n2 Hne H1 H2.
    destruct (decide (k = k1)) as [<-|Hk1].
    + assert (k ≠ k2) as Hk2 by done.
      rewrite lookup_insert_eq in H1. injection H1 as <-.
      rewrite lookup_insert_ne in H2 by done.
      destruct (Hpair k k2 n n2 Hne Hk H2) as [Hu Hr]. split.
      * by rewrite C6.
      * intros l Hl Hl2. apply (effect_runs _ _ _ Heff) in Hl as [Hl|Hl].
        -- exact (Hr l Hl Hl2).
        -- destruct (Hnodes k2 n2 H2) as (_ & _ & _ & _ & Hh2).
           apply (history_ok_valid _ l Hh2) in Hl2 as [r Hr2].
           cbn in Hl, Hr2. congruence.
    + rewrite lookup_insert_ne in H1 by done.
      destruct (decide (k = k2)) as [<-|Hk2].
      * rewrite lookup_insert_eq in H2. injection H2 as <-.
        destruct (Hpair k1 k n1 n Hne H1 Hk) as [Hu Hr]. split.
        -- by rewrite C6.
        -- intros l Hl Hl2. apply (effect_runs _ _ _ Heff) in Hl2 as [Hl2|Hl2].
           ++ exact (Hr l Hl Hl2).
           ++ destruct (Hnodes k1 n1 H1) as (_ & _ & _ & _ & Hh1).
              apply (history_ok_valid _ l Hh1) in Hl as [r Hr1].
              cbn in Hl2, Hr1. congruence.
      * rewrite lookup_insert_ne in H2 by done.
        exact (Hpair k1 k2 n1 n2 Hne H1 H2).
Qed.

Lemma cluster_ok_newNode (ch : cluster_host) (s : server) x s' :
  cluster_ok ch s → cluster_newNode ch s = (x, s') → cluster_ok ch s'.
Proof.
  intros (HJ & Hnodes & Hall & Hpair) H.
  apply cluster_newNode_cases in H. cbn zeta in H.
  destruct H as [(err & _ & _ & Hcl & Hmem & _) | (_ & y & sys & Hn & Hmem & Hsw & Hy)].
  { destruct s' as [c' m' w']. cbn in Hcl, Hmem. subst c' m'.
    unfold cluster_ok. cbn [cl mem sw].
    split; [exact HJ|]. split; [|split; [exact Hall | exact Hpair]].
    intros k n Hk. destruct (Hnodes k n Hk) as (H1 & H2 & H3 & H4 & H5).
    split; [exact H1|]. split; [exact H2|]. split; [exact H3|].
    split; [exact H4|]. eapply history_ok_heap; [exact H5 | apply heap_le_refl]. }
  pose proof (newNode_service_outcome _ _ _ _ _ _ _ _ _ _ _ Hn)
    as (Hcfg & Heff & Hhist).
  cbn zeta in Hcfg, Heff.
  assert (heap_le (mem s) (heap sys)) as Hle by (by destruct Heff as [Hle _]).
  destruct HJ as (J & HJ0 & HJe).
  set (N := Z.of_nat (size (cluster.Nodes (cl s)))) in *.
  assert (∀ k n, cluster.Nodes (cl s) !! k = Some n →
            node.Name n = k
            ∧ (∃ i j, 1 ≤ i ≤ N + 1 ∧ k = Itoa i ∧ 0 ≤ j
                 ∧ basePort + 2 * j + 2 ≤ cluster.NextPort (cl s) + 2
                 ∧ node.URL n = "http://localhost:" +:+ Itoa (basePort + 2 * j + 1)
                 ∧ node.Args n = node_command ch (cl s) i (basePort + 2 * j))
            ∧ node.Stdout n = filepath_Join (logdir_of k) "$RUN.stdout"
            ∧ node.Stderr n = filepath_Join (logdir_of k) "$RUN.stderr"
            ∧ history_ok {| nd := n; heap := heap sys; wd := wd sys |}) as Hold.
  { intros k n Hk.
    destruct (Hnodes k n Hk)
      as (H1 & (i & j & Hi & Hki & Hj & Hport & Hurl & Hargs) & H3 & H4 & H5).
    split; [exact H1|]. split.
    { exists i, j. split; [lia|]. split; [exact Hki|]. split; [exact Hj|].
      split; [lia|]. split; [exact Hurl | exact Hargs]. }
    split; [exact H3|]. split; [exact H4|].
    eapply history_ok_heap; [exact H5 | exact Hle]. }
  destruct y as [[]|e]; destruct Hy as [-> Hcl];
    destruct s' as [c' m' w']; cbn in Hcl, Hmem, Hsw; subst c' m' w'.
  - (* the node is registered *)
    set (name := Itoa (N + 1)) in *.
    set (n0 := node_set_URL _ _).
    assert (cluster.Nodes (cl s) !! name = None) as Hfresh.
    { destruct (cluster.Nodes (cl s) !! name) as [n|] eqn:E; [|done].
      destruct (Hnodes _ _ E) as (_ & (i & j & Hi & Hki & _) & _).
      apply Itoa_inj in Hki. fold N in Hi. lia. }
    assert (Z.of_nat (size (<[name := n0]> (cluster.Nodes (cl s)))) = N + 1) as Hsize.
    { rewrite map_size_insert_None by done. subst N. lia. }
    assert (addDefaultVars (host (sw s)) (cockroach_env (os_Environ ch)) !! "RUN"
            = None) as Hrun.
    { rewrite addDefaultVars_RUN. apply cockroach_env_RUN. }
    destruct Hcfg as (C1 & C2 & C3 & C4 & C5 & C6 & C7 & C8).
    unfold cluster_ok.
    cbn [cl mem sw cluster.Nodes cluster.NextPort cluster.set_Nodes
         cluster.set_NextPort].
    rewrite Hsize.
    split; [exists (J + 1); split; lia|]. split; [|split].
    + intros k n Hk. destruct (decide (name = k)) as [<-|Hne].
      * rewrite lookup_insert_eq in Hk. injection Hk as <-.
        split; [exact C1|]. split.
        { exists (N + 1), J. split; [lia|]. split; [done|]. split; [done|].
          split; [lia|]. split.
          - subst n0. cbn [node_set_URL node.URL]. by rewrite HJe.
          - subst n0. cbn [node_set_URL node.Args]. rewrite C2, <- HJe. done. }
        split.
        { subst n0. cbn [node_set_URL node.Stdout]. rewrite C4.
          exact (logdir_template name ".stdout" (N + 1) _ eq_refl Hrun eq_refl). }
        split.
        { subst n0. cbn [node_set_URL node.Stderr]. rewrite C5.
          exact (logdir_template name ".stderr" (N + 1) _ eq_refl Hrun eq_refl). }
        exact Hhist.
      * rewrite lookup_insert_ne in Hk by done. exact (Hold k n Hk).
    + intros i Hi. destruct (decide (i = N + 1)) as [->|Hne].
      * rewrite lookup_insert_eq. by eexists.
      * rewrite lookup_insert_ne.
        -- apply Hall. fold N. lia.
        -- intros E. by apply Itoa_inj in E.
    + assert (∀ k n, cluster.Nodes (cl s) !! k = Some n →
                node.URL n0 ≠ node.URL n
                ∧ ∀ l, l ∈ node.Runs n0 → l ∉ node.Runs n) as Hnew.
      { intros k n Hk.
        destruct (Hnodes k n Hk)
          as (_ & (i & j & _ & _ & _ & Hport & Hurl & _) & _ & _ & Hh).
        split.
        - subst n0. cbn [node_set_URL node.URL]. rewrite Hurl.
          intros E. apply append_inv_head, Itoa_inj in E. lia.
        - intros l Hl Hl'. subst n0. cbn [node_set_URL node.Runs] in Hl.
          apply (history_ok_valid _ l Hh) in Hl' as [r Hr].
          apply (effect_runs _ _ _ Heff) in Hl as [Hl|Hl].
          + cbn in Hl. by apply elem_of_nil in Hl.
          + cbn in Hl, Hr. congruence. }
      intros k1 k2 n1 n2 Hne H1 H2.
      destruct (decide (name = k1)) as [<-|Hk1].
      * rewrite lookup_insert_eq in H1. injection H1 as <-.
        rewrite lookup_insert_ne in H2 by done. exact (Hnew k2 n2 H2).
      * rewrite lookup_insert_ne in H1 by done.
        destruct (decide (name = k2)) as [<-|Hk2].
        -- rewrite lookup_insert_eq in H2. injection H2 as <-.
           destruct (Hnew k1 n1 H1) as [Hu Hr]. split; [done|].
           intros l Hl Hl'. exact (Hr l Hl' Hl).
        -- rewrite lookup_insert_ne in H2 by done.
           exact (Hpair k1 k2 n1 n2 Hne H1 H2).
  - (* the start of the node did not return *)
    unfold cluster_ok.
    cbn [cl mem sw cluster.Nodes cluster.NextPort cluster.set_NextPort].
    split; [exists (J + 1); split; lia|].
    split; [|split; [exact Hall | exact Hpair]].
    intros k n Hk.
    destruct (Hold k n Hk)
      as (H1 & (i & j & Hi & Hki & Hj & Hport & Hurl & Hargs) & H3 & H4 & H5).
    split; [exact H1|].
    split; [|split; [exact H3|]; split; [exact H4 | exact H5]].
    destruct (Hnodes k n Hk) as (_ & (i' & j' & Hi' & Hki' & _) & _).
    exists i', j. rewrite Hki in Hki'. apply Itoa_inj in Hki'. subst i'.
    split; [exact Hi'|]. split; [exact Hki|]. split; [exact Hj|].
    split; [exact Hport|]. split; [exact Hurl | exact Hargs].
Qed.

Lemma cluster_ok_reachable (ch : cluster_host) args attrs localities h w s :
  cluster_reachable ch
    {| cl := newCluster args attrs localities; mem := h; sw := w |} s →
  cluster_ok ch s.
Proof.
  induction 1 as [|s s' _ IH Hstep]; [apply cluster_ok_init|].
  destruct Hstep as [x s'' H | k a x s'' H].
  - by eapply cluster_ok_newNode.
  - by eapply cluster_ok_node_acts.
Qed.

Lemma cluster_reachable_grown (ch : cluster_host) (n : nat) :
  cluster_reachable ch SampleCluster.fresh (SampleCluster.grown ch n).
Proof.
  induction n as [|n IH]; [apply cluster_reachable_init|].
  eapply cluster_reachable_step; [exact IH|].
  eapply (cluster_step_newNode _ _ (cluster_newNode ch (SampleCluster.grown ch n)).1).
  cbn [SampleCluster.grown]. by destruct (cluster_newNode _ _).
Qed.

(** X18.  In every state of the application the nodes of the cluster are
    registered under the decimal numbers 1, 2, ... up to the number of
    nodes, without a gap, and each node carries the key it is registered
    under as its name: [findNode] finds a node exactly by its name. *)
Theorem cluster_nodes_are_numbered
    (ch : cluster_host) (args : list string) (attrs localities : Z → option string)
    (h : list nodeRun.t) (w : world) (s : server) :
  cluster_reachable ch
    {| cl := newCluster args attrs localities; mem := h; sw := w |} s →
  (∀ k, is_Some (cluster.Nodes (cl s) !! k)
        ↔ ∃ i, 1 ≤ i ≤ Z.of_nat (size (cluster.Nodes (cl s))) ∧ k = Itoa i)
  ∧ (∀ k n, cluster.Nodes (cl s) !! k = Some n → node.Name n = k).
Proof.
  intros (_ & Hnodes & Hall & _)%cluster_ok_reachable. split.
  - intros k. split.
    + intros [n Hk]. destruct (Hnodes k n Hk) as (_ & (i & j & Hi & Hki & _) & _).
      by exists i.
    + intros (i & Hi & ->). by apply Hall.
  - intros k n Hk. by destruct (Hnodes k n Hk) as (Hname & _).
Qed.

Lemma cluster_nodes_are_numbered_witness :
  let s := SampleCluster.grown SampleCluster.datacenter 2 in
  cluster_reachable SampleCluster.datacenter SampleCluster.fresh s
  ∧ ∀ k n, cluster.Nodes (cl s) !! k = Some n → node.Name n = k.
Proof.
  intros s.
  pose proof (cluster_reachable_grown SampleCluster.datacenter 2) as H.
  split; [exact H|].
  exact (proj2 (cluster_nodes_are_numbered _ _ _ _ _ _ _ H)).
Defined.

(** X19.  Every node of the cluster runs the command line that [newNode]
    of the cluster builds for its number and its port; the port is
    [basePort] plus an even number, below [NextPort], the HTTP port of the
    URL is the next number, and the store directory is the node's own.  Two
    different nodes have different numbers and so different stores, and
    their four ports are four different numbers. *)
Theorem cluster_nodes_have_own_ports
    (ch : cluster_host) (args : list string) (attrs localities : Z → option string)
    (h : list nodeRun.t) (w : world) (s : server) :
  cluster_reachable ch
    {| cl := newCluster args attrs localities; mem := h; sw := w |} s →
  (∀ k n, cluster.Nodes (cl s) !! k = Some n →
     ∃ i p, k = Itoa i
       ∧ basePort ≤ p ∧ p + 1 < cluster.NextPort (cl s)
       ∧ Z.even (p - basePort) = true
       ∧ node.Args n = node_command ch (cl s) i p
       ∧ node.URL n = "http://localhost:" +:+ Itoa (p + 1))
  ∧ (∀ k1 k2 n1 n2 i1 i2 p1 p2,
       k1 ≠ k2 →
       cluster.Nodes (cl s) !! k1 = Some n1 →
       cluster.Nodes (cl s) !! k2 = Some n2 →
       node.Args n1 = node_command ch (cl s) i1 p1 →
       node.Args n2 = node_command ch (cl s) i2 p2 →
       i1 ≠ i2 ∧ p1 ≠ p2 ∧ p1 ≠ p2 + 1 ∧ p1 + 1 ≠ p2).
Proof.
  intros (_ & Hnodes & _ & Hpair)%cluster_ok_reachable. split.
  - intros k n Hk.
    destruct (Hnodes k n Hk) as (_ & (i & j & Hi & Hki & Hj & Hp & Hurl & Hargs) & _).
    exists i, (basePort + 2 * j). split; [exact Hki|]. split; [lia|].
    split; [lia|]. split; [|split; [exact Hargs|]].
    + replace (basePort + 2 * j - basePort) with (2 * j) by lia.
      apply Z.even_even.
    + exact Hurl.
  - intros k1 k2 n1 n2 i1 i2 p1 p2 Hne H1 H2 A1 A2.
    destruct (Hnodes k1 n1 H1)
      as (_ & (i1' & j1 & _ & Hk1 & _ & _ & Hu1 & Ha1) & _).
    destruct (Hnodes k2 n2 H2)
      as (_ & (i2' & j2 & _ & Hk2 & _ & _ & Hu2 & Ha2) & _).
    destruct (Hpair k1 k2 n1 n2 Hne H1 H2) as [Hurl _].
    rewrite A1 in Ha1. rewrite A2 in Ha2.
    unfold node_command in Ha1, Ha2.
    injection Ha1 as Hp1 _ Hs1 _. injection Ha2 as Hp2 _ Hs2 _.
    apply append_inv_head, Itoa_inj in Hp1, Hp2.
    apply append_inv_head, Itoa_inj in Hs1, Hs2.
    subst i1' i2' p1 p2.
    assert (j1 ≠ j2) as Hj by (intros ->; apply Hurl; by rewrite Hu1, Hu2).
    split; [intros ->; apply Hne; by rewrite Hk1, Hk2 | lia].
Qed.

Lemma cluster_nodes_have_own_ports_witness :
  let s := SampleCluster.grown SampleCluster.datacenter 2 in
  cluster_reachable SampleCluster.datacenter SampleCluster.fresh s
  ∧ ∀ k n, cluster.Nodes (cl s) !! k = Some n →
      ∃ i p, k = Itoa i
        ∧ basePort ≤ p ∧ p + 1 < cluster.NextPort (cl s)
        ∧ Z.even (p - basePort) = true
        ∧ node.Args n = node_command SampleCluster.datacenter (cl s) i p
        ∧ node.URL n = "http://localhost:" +:+ Itoa (p + 1).
Proof.
  intros s.
  pose proof (cluster_reachable_grown SampleCluster.datacenter 2) as H.
  split; [exact H|].
  exact (proj1 (cluster_nodes_have_own_ports _ _ _ _ _ _ _ H)).
Defined.

(** *** The files of a cluster *)

Section Cut.

#[local] Arguments String.append !_ _ /.


End Cut.

(** The path of the i-th Run of the node named [k]. *)
Lemma run_path_resolved (k post : string) (z : Z) (i : nat) :
  k = Itoa z →
  Str.contains "$" post = false →
  starts_alnum post = false →
  replaceVars (filepath_Join (logdir_of k) ("$RUN" +:+ post))
    {[ "RUN" := Itoa (Z.of_nat i) ]}
  = "cockroach-data/" +:+ k +:+ "/logs/" +:+ Itoa (Z.of_nat i) +:+ post.
Proof.
  intros -> Hpost Hal. unfold filepath_Join.
  rewrite <- !(append_assoc (logdir_of (Itoa z)) "/").
  rewrite replaceVars_RUN_defined; [|  |done|done].
  - unfold logdir_of, filepath_Join, dataDir. by rewrite !append_assoc.
  - unfold logdir_of, filepath_Join, dataDir.
    rewrite !contains_append, Itoa_bytes by done. done.
Qed.




(** *** The summaries of the cluster page *)

Lemma any_node_true (p : node.t → bool) (c : cluster.t) :
  any_node p c = true ↔ ∃ k n, cluster.Nodes c !! k = Some n ∧ p n = true.
Proof.
  unfold any_node. rewrite existsb_exists. split.
  - intros ([k n] & Hin & Hp). exists k, n. split; [|exact Hp].
    apply elem_of_map_to_list. by apply list_elem_of_In.
  - intros (k & n & Hk & Hp). exists (k, n). split; [|exact Hp].
    apply list_elem_of_In. by apply elem_of_map_to_list.
Qed.

(** X21.  In every state of the application the four summaries of the
    cluster page fit together: some node is started exactly when some node
    is paused or some node is not paused, since the active Run of a node is
    always an object of the memory; and some node is started or stopped
    exactly when the cluster has a node.  A node counts as started as long
    as it has an active Run, whatever became of the process. *)
Theorem cluster_summaries_fit_together
    (ch : cluster_host) (args : list string) (attrs localities : Z → option string)
    (h : list nodeRun.t) (w : world) (s : server) :
  cluster_reachable ch
    {| cl := newCluster args attrs localities; mem := h; sw := w |} s →
  AnyNodesStarted s = AnyNodesPaused s || AnyNodesNotPaused s
  ∧ AnyNodesStarted s || AnyNodesStopped s
    = negb (bool_decide (cluster.Nodes (cl s) = ∅))
  ∧ (AnyNodesStarted s = true
     ↔ ∃ k n l, cluster.Nodes (cl s) !! k = Some n ∧ node.Active n = Some l
                ∧ is_Some (mem s !! l)).
Proof.
  intros (_ & Hnodes & _ & _)%cluster_ok_reachable.
  assert (∀ k n l, cluster.Nodes (cl s) !! k = Some n → node.Active n = Some l →
            is_Some (mem s !! l)) as Hvalid.
  { intros k n l Hk Ha. destruct (Hnodes k n Hk) as (_ & _ & _ & _ & Hh).
    apply (history_ok_valid (node_of s n) l Hh).
    destruct Hh as [_ Hlast]. apply Hlast in Ha. cbn [node_of nd] in *.
    apply last_Some in Ha as [l' ->]. apply elem_of_app. right.
    by apply list_elem_of_singleton. }
  unfold AnyNodesStarted, AnyNodesStopped, AnyNodesPaused, AnyNodesNotPaused.
  split; [|split].
  - apply Bool.eq_iff_eq_true. rewrite orb_true_iff, !any_node_true. split.
    + intros (k & n & Hk & Hp). apply bool_decide_eq_true in Hp.
      destruct (node.Active n) as [l|] eqn:Ha; [|done].
      destruct (Hvalid k n l Hk Ha) as [r Hr].
      destruct (nodeRun.Paused r) eqn:Hpa; [left | right]; exists k, n;
        (split; [exact Hk|]); apply bool_decide_eq_true;
        unfold active_paused; by rewrite Ha, Hr, <- Hpa.
    + intros [(k & n & Hk & Hp) | (k & n & Hk & Hp)]; exists k, n;
        (split; [exact Hk|]); apply bool_decide_eq_true;
        apply bool_decide_eq_true in Hp; unfold active_paused in Hp;
        by destruct (node.Active n).
  - apply Bool.eq_iff_eq_true.
    rewrite orb_true_iff, !any_node_true, negb_true_iff, bool_decide_eq_false.
    split.
    + intros [(k & n & Hk & _) | (k & n & Hk & _)] E; rewrite E in Hk;
        by rewrite lookup_empty in Hk.
    + intros Hne. apply map_choose in Hne as (k & n & Hk).
      destruct (node.Active n) as [l|] eqn:Ha; [left | right]; exists k, n;
        (split; [exact Hk|]); apply bool_decide_eq_true; congruence.
  - rewrite any_node_true. split.
    + intros (k & n & Hk & Hp). apply bool_decide_eq_true in Hp.
      destruct (node.Active n) as [l|] eqn:Ha; [|done].
      exists k, n, l. split; [exact Hk|]. split; [exact Ha|]. by eapply Hvalid.
    + intros (k & n & l & Hk & Ha & _). exists k, n. split; [exact Hk|].
      apply bool_decide_eq_true. congruence.
Qed.

Lemma cluster_summaries_fit_together_witness :
  let s := SampleCluster.grown SampleCluster.datacenter 2 in
  cluster_reachable SampleCluster.datacenter SampleCluster.fresh s
  ∧ AnyNodesStarted s = AnyNodesPaused s || AnyNodesNotPaused s.
Proof.
  intros s.
  pose proof (cluster_reachable_grown SampleCluster.datacenter 2) as H.
  split; [exact H|].
  exact (proj1 (cluster_summaries_fit_together _ _ _ _ _ _ _ H)).
Defined.

(** *** The handlers of the node controls *)

#[local] Arguments renderError : simpl never.
#[local] Arguments node_start : simpl never.
#[local] Arguments node_stop : simpl never.
#[local] Arguments node_pause : simpl never.
#[local] Arguments node_resume : simpl never.

(** The refusal of [findNode]. *)
Lemma findNode_unknown (tmpls : gmap string template) (c : cluster.t)
    (args : gmap string string) (rq : Rq) :
  cluster.Nodes c !! arg args "node" = None →
  ∃ x rq', findNode tmpls c args rq = (x, rq')
    ∧ (x = Ok None ∨ ∃ m, x = Abort (Fatal m))
    ∧ Header rq'.1 = Header rq.1
    ∧ (Code rq.1 = None → Code rq'.1 = Some 400)
    ∧ goroutines rq'.2 = goroutines rq.2
    ∧ host rq'.2 = host rq.2.
Proof.
  intros Hk. unfold findNode. rewrite Hk. destruct rq as [rw w].
  unfold renderError, renderSimple, render.
  destruct (tmpls !! "error.html") as [t|]; rred.
  - destruct (t _) as [html|err]; rred.
    + destruct (Code rw) as [code|] eqn:Hc; cbn;
        destruct (Broken rw) as [e|] eqn:Hb; rred; rewrite ?Hc; cbn;
        eexists _, _; (split; [reflexivity|]); cbn;
        (split; [by left|]); by repeat split.
    + eexists _, _. split; [reflexivity|]. cbn.
      split; [right; by eexists|]. split; [by destruct (Code rw)|].
      split; [by intros ->|done].
  - eexists _, _. split; [reflexivity|]. cbn.
    split; [right; by eexists|]. split; [by destruct (Code rw)|].
    split; [by intros ->|done].
Qed.

Ltac hred :=
  repeat (progress
    (unfold mbind, M_bind, mret, M_ret, get, throw, hdRq; cbn)).

(** X22.  A request to start, stop, pause or resume a node that names no
    node of the cluster touches nothing: the cluster, the Runs and the
    goroutines are as before, no redirect is set, and the answer is the
    error page with status 400 (when no status was written before), or the
    application ends in [log.Fatal] when that page cannot be rendered. *)
Theorem control_of_unknown_node_changes_nothing
    (tmpls : gmap string template) (referer : string)
    (args : gmap string string) (rw : ResponseWriter) (s : server) :
  cluster.Nodes (cl s) !! arg args "node" = None →
  ∀ handler, handler ∈ [startNode; stopNode; pauseNode; resumeNode] →
    ∃ x rw' s',
      handler tmpls referer args (rw, s) = (x, (rw', s'))
      ∧ (x = Ok tt ∨ ∃ m, x = Abort (Fatal m))
      ∧ cl s' = cl s
      ∧ mem s' = mem s
      ∧ goroutines (sw s') = goroutines (sw s)
      ∧ Header rw' = Header rw
      ∧ (Code rw = None → Code rw' = Some 400).
Proof.
  intros Hk handler Hin.
  destruct (findNode_unknown tmpls (cl s) args (rw, sw s) Hk)
    as (x & [rw' w'] & Hf & Hx & Hh & Hc & Hg & _).
  cbn [fst snd] in Hh, Hc, Hg.
  assert (∀ body : string → M Hd unit,
            (st ← get;
             t ← hdRq (findNode tmpls (cl st.2) args);
             match t with None => mret tt | Some k => body k end) (rw, s)
            = (match x with Ok _ => Ok tt | Abort e => Abort e end,
               (rw', {| cl := cl s; mem := mem s; sw := w' |}))) as Hrun.
  { intros body. hred. rewrite Hf.
    destruct Hx as [-> | [m ->]]; reflexivity. }
  assert (match x with Ok _ => Ok tt | Abort e => Abort e end = Ok tt
          ∨ ∃ m, match x with Ok _ => Ok tt | Abort e => Abort e end
                 = Abort (Fatal m)) as Hx'.
  { destruct Hx as [-> | [m ->]]; [by left | right; by eexists]. }
  repeat (apply elem_of_cons in Hin as [-> | Hin]);
    [..| by apply elem_of_nil in Hin];
    eexists _, rw', _; (split; [apply Hrun|]); by repeat split.
Qed.

Lemma control_of_unknown_node_changes_nothing_witness :
  let s := SampleCluster.grown SampleCluster.datacenter 1 in
  let rw := {| Code := None; Body := []; Header := ∅; Broken := None |} in
  cluster.Nodes (cl s) !! arg {[ "node" := "7" ]} "node" = None
  ∧ ∃ x rw' s',
      stopNode ∅ "/" {[ "node" := "7" ]} (rw, s) = (x, (rw', s'))
      ∧ cl s' = cl s
      ∧ Code rw' = Some 400.
Proof.
  intros s rw.
  assert (cluster.Nodes (cl s) !! arg {[ "node" := "7" ]} "node" = None) as Hk
    by (vm_compute; reflexivity).
  split; [exact Hk|].
  destruct (control_of_unknown_node_changes_nothing ∅ "/" _ rw s Hk stopNode)
    as (x & rw' & s' & Hrun & _ & Hcl & _ & _ & _ & Hc).
  { apply elem_of_cons. right. apply elem_of_cons. by left. }
  exists x, rw', s'. split; [exact Hrun|]. split; [exact Hcl|]. by apply Hc.
Defined.

Lemma node_stop_returns (s : system) :
  history_ok s →
  ∃ s1, node_stop s = (Ok tt, s1)
    ∧ node.Active (nd s1) = None
    ∧ node.Runs (nd s1) = node.Runs (nd s)
    ∧ node.Service (nd s1) = node.Service (nd s)
    ∧ goroutines (wd s1) = goroutines (wd s).
Proof.
  intros Hh. unfold node_stop. sred.
  destruct (node.Active (nd s)) as [l|] eqn:Ha.
  - destruct (history_ok_active s l Hh Ha) as [r Hr].
    rewrite (with_run_eq l nodeRun_stop s r Hr), nodeRun_stop_result.
    destruct (handle r); cbn; eexists; (split; [reflexivity|]); by cbn.
  - eexists. split; [reflexivity|]. by repeat split.
Qed.

(** X23.  In every state of the application, a request to stop a node of
    the cluster returns with a redirect to the referring page (status 302
    when no status was written before) and nothing written to the body.
    The node is then without an active Run and no longer a service, so the
    completion of its process will not restart it; its history is as
    before, no goroutine is started or removed, and the application is in a
    state it also reaches by clearing the flag and calling [stop]. *)
Theorem stopNode_stops_and_redirects
    (ch : cluster_host) (cargs : list string) (attrs localities : Z → option string)
    (h : list nodeRun.t) (w : world) (s : server)
    (tmpls : gmap string template) (referer : string)
    (args : gmap string string) (rw : ResponseWriter) (n : node.t) :
  cluster_reachable ch
    {| cl := newCluster cargs attrs localities; mem := h; sw := w |} s →
  cluster.Nodes (cl s) !! arg args "node" = Some n →
  ∃ rw' s' n',
    stopNode tmpls referer args (rw, s) = (Ok tt, (rw', s'))
    ∧ cluster_reachable ch
        {| cl := newCluster cargs attrs localities; mem := h; sw := w |} s'
    ∧ cluster.Nodes (cl s') !! arg args "node" = Some n'
    ∧ node.Service n' = false
    ∧ node.Active n' = None
    ∧ node.Runs n' = node.Runs n
    ∧ goroutines (sw s') = goroutines (sw s)
    ∧ Header rw' !! "Location" = Some referer
    ∧ (Code rw = None → Code rw' = Some 302)
    ∧ Body rw' = Body rw.
Proof.
  intros Hreach Hk. remember (arg args "node") as k eqn:Ek.
  pose proof (cluster_ok_reachable _ _ _ _ _ _ _ Hreach) as (_ & Hnodes & _).
  destruct (Hnodes k n Hk) as (_ & _ & _ & _ & Hh).
  set (sys0 := {| nd := node.set_Service false n; heap := mem s; wd := sw s |}).
  assert (history_ok sys0) as Hh0 by exact Hh.
  destruct (node_stop_returns sys0 Hh0) as (sys1 & Hstop & Ha & Hr & Hs & Hg).
  set (s1 := {| cl := cluster.set_Nodes
                        (<[k := node.set_Service false n]> (cluster.Nodes (cl s))) (cl s);
                mem := mem s; sw := sw s |}).
  assert (node_acts k (SetService false) s = Some (Ok tt, s1)) as Hstep1.
  { unfold node_acts. by rewrite Hk. }
  set (s2 := {| cl := cluster.set_Nodes (<[k := nd sys1]> (cluster.Nodes (cl s))) (cl s);
                mem := heap sys1; sw := wd sys1 |}).
  assert (node_acts k Stop s1 = Some (Ok tt, s2)) as Hstep2.
  { unfold node_acts. cbn [s1 cl mem sw cluster.Nodes cluster.set_Nodes].
    rewrite lookup_insert_eq. cbn [perform]. fold sys0. rewrite Hstop.
    unfold s2. by rewrite insert_insert_eq. }
  eexists _, s2, (nd sys1).
  split.
  { unfold stopNode. hred. unfold findNode. rewrite <- Ek, Hk. hred.
    unfold hdNode. cbn [fst snd cl mem sw]. rewrite Hk.
    unfold assign_node, modify. hred. fold sys0. rewrite Hstop.
    unfold redirect. rred. reflexivity. }
  split.
  { eapply cluster_reachable_step; [|eapply cluster_step_node; exact Hstep2].
    eapply cluster_reachable_step; [exact Hreach|].
    eapply cluster_step_node; exact Hstep1. }
  split; [apply lookup_insert_eq|].
  split; [by rewrite Hs|]. split; [exact Ha|]. split; [by rewrite Hr|].
  split; [exact Hg|]. cbn.
  split; [by destruct (Code rw); cbn; rewrite lookup_insert_eq|].
  split; [by intros ->|]. by destruct (Code rw).
Qed.

Lemma stopNode_stops_and_redirects_witness :
  let s := SampleCluster.grown SampleCluster.datacenter 2 in
  let rw := {| Code := None; Body := []; Header := ∅; Broken := None |} in
  cluster_reachable SampleCluster.datacenter SampleCluster.fresh s
  ∧ is_Some (cluster.Nodes (cl s) !! arg {[ "node" := "2" ]} "node")
  ∧ ∃ rw' s' n',
      stopNode ∅ "/" {[ "node" := "2" ]} (rw, s) = (Ok tt, (rw', s'))
      ∧ cluster.Nodes (cl s') !! "2" = Some n'
      ∧ node.Active n' = None
      ∧ Code rw' = Some 302.
Proof.
  intros s rw.
  pose proof (cluster_reachable_grown SampleCluster.datacenter 2) as H.
  split; [exact H|].
  assert (is_Some (cluster.Nodes (cl s) !! arg {[ "node" := "2" ]} "node")) as [n Hn].
  { destruct (cluster_ok_reachable _ _ _ _ _ _ _ H) as (_ & _ & Hall & _).
    assert (size (cluster.Nodes (cl (SampleCluster.grown SampleCluster.datacenter 2)))
            = 2%nat) as Hsize by (vm_compute; reflexivity).
    apply (Hall 2). rewrite Hsize. lia. }
  split; [by exists n|].
  destruct (stopNode_stops_and_redirects _ _ _ _ _ _ s ∅ "/" {[ "node" := "2" ]}
              rw n H Hn)
    as (rw' & s' & n' & Hrun & _ & Hk' & _ & Ha & _ & _ & _ & Hc & _).
  exists rw', s', n'. split; [exact Hrun|]. split; [exact Hk'|].
  split; [exact Ha|]. by apply Hc.
Defined.

(** *** A cluster whose binary cannot be spawned *)

(** X24.  When the binary of the cluster cannot be spawned (and the log
    files can be created), [newNode] of the cluster does not return: the
    start of the new node is parked in its completion send.  The node is
    never registered, so no page shows it and no request can reach it, but
    its pair of ports is used up and its failed Run stays in memory, with
    the error recorded. *)
Theorem cluster_newNode_blocks_on_failed_launch
    (ch : cluster_host) (s : server) (e : string) :
  os_MkdirAll ch
    (logdir_of (Itoa (Z.of_nat (size (cluster.Nodes (cl s))) + 1))) = None →
  (∀ p, os_Create (host (sw s)) p = None) →
  (∀ argv, os_StartProcess (host (sw s)) (starts (sw s)) argv = inr e) →
  Handler (chans (sw s)) ∉ goroutines (sw s) →
  ∃ s' r,
    cluster_newNode ch s = (Abort (Block (chans (sw s))), s')
    ∧ cluster.Nodes (cl s') = cluster.Nodes (cl s)
    ∧ cluster.NextPort (cl s') = cluster.NextPort (cl s) + 2
    ∧ mem s' = mem s ++ [r]
    ∧ nodeRun.Error r = Some e
    ∧ nodeRun.ID r = 0
    ∧ goroutines (sw s') = goroutines (sw s).
Proof.
  intros Hmk Hfs Hspawn Hnin.
  destruct (cluster_newNode ch s) as [x s'] eqn:Hc.
  apply cluster_newNode_cases in Hc. cbn zeta in Hc.
  destruct Hc as [(err & Hmk' & _) | (_ & y & sys & Hn & Hmem & Hsw & Hy)];
    [congruence|].
  rewrite newNode_unfold in Hn.
  match type of Hn with node_start ?c = _ => set (s0 := c) in * end.
  assert (addDefaultVars (host (sw s)) (cockroach_env (os_Environ ch)) !! "RUN"
          = None) as Hrun.
  { rewrite addDefaultVars_RUN. apply cockroach_env_RUN. }
  set (name := Itoa (Z.of_nat (size (cluster.Nodes (cl s))) + 1)) in *.
  assert (nodeRun.Stdout (next_run (nd s0))
          = "cockroach-data/" +:+ name +:+ "/logs/" +:+ Itoa (Z.of_nat 0) +:+ ".stdout")
    as Hout.
  { cbn [next_run nodeRun.Stdout s0 constructed nd node.Stdout node.Runs length].
    pose proof (logdir_template name ".stdout" _ _ eq_refl Hrun eq_refl) as Ht.
    change ("${RUN}" +:+ ".stdout") with "${RUN}.stdout" in Ht. rewrite Ht.
    exact (run_path_resolved name ".stdout" _ 0 eq_refl eq_refl eq_refl). }
  assert (nodeRun.Stderr (next_run (nd s0))
          = "cockroach-data/" +:+ name +:+ "/logs/" +:+ Itoa (Z.of_nat 0) +:+ ".stderr")
    as Herr.
  { cbn [next_run nodeRun.Stderr s0 constructed nd node.Stderr node.Runs length].
    pose proof (logdir_template name ".stderr" _ _ eq_refl Hrun eq_refl) as Ht.
    change ("${RUN}" +:+ ".stderr") with "${RUN}.stderr" in Ht. rewrite Ht.
    exact (run_path_resolved name ".stderr" _ 0 eq_refl eq_refl eq_refl). }
  assert (node.Args (nd s0) ≠ []) as Hargs by discriminate.
  rewrite (node_start_inactive s0 eq_refl Hargs) in Hn. cbn zeta in Hn.
  destruct (nodeRun_start_blocks (length (heap s0)) (chans (wd s0))
              (next_run (nd s0)) (set_chans (S (chans (wd s0))) (wd s0))
              _ e eq_refl eq_refl)
    as (r1 & w1 & Hstart & Herror & _ & Hg & _ & _).
  { split; [by rewrite Hout | apply Hfs]. }
  { split; [by rewrite Herr | apply Hfs]. }
  { apply Hspawn. }
  { exact Hnin. }
  rewrite Hstart in Hn. injection Hn as <- <-.
  destruct Hy as [-> Hcl].
  exists s', r1. split; [reflexivity|].
  rewrite Hcl, Hmem, Hsw. cbn.
  split; [done|]. split; [done|]. split; [done|]. split; [exact Herror|].
  split; [|exact Hg].
  destruct (keeps_nodeRun_start _ _ _ _ _ _ _ Hstart) as (Hid & _).
  by rewrite Hid.
Qed.

Lemma cluster_newNode_blocks_on_failed_launch_witness :
  let s := SampleCluster.stranded in
  (∀ p, os_Create (host (sw s)) p = None)
  ∧ (∀ argv, os_StartProcess (host (sw s)) (starts (sw s)) argv
             = inr "executable file not found in $PATH")
  ∧ ∃ s' r,
      cluster_newNode SampleCluster.broken s = (Abort (Block (chans (sw s))), s')
      ∧ cluster.Nodes (cl s') = cluster.Nodes (cl s)
      ∧ cluster.NextPort (cl s') = cluster.NextPort (cl s) + 2
      ∧ mem s' = mem s ++ [r].
Proof.
  intros s.
  assert (∀ p, os_Create (host (sw s)) p = None) as Hfs by (intros p; reflexivity).
  assert (∀ argv, os_StartProcess (host (sw s)) (starts (sw s)) argv
                  = inr "executable file not found in $PATH") as Hsp
    by (intros argv; reflexivity).
  split; [exact Hfs|]. split; [exact Hsp|].
  destruct (cluster_newNode_blocks_on_failed_launch SampleCluster.broken s _
              eq_refl Hfs Hsp ltac:(apply not_elem_of_nil))
    as (s' & r & Hrun & Hn & Hp & Hm & _).
  exists s', r. split; [exact Hrun|]. split; [exact Hn|].
  split; [exact Hp | exact Hm].
Defined.
